(** * Quiz generator bot: the text parser and the quiz page's session engine

    A shallow embedding of [bot.py]:
    - [Re]: the fragment of Python's [re] module that [parse_txt_file] uses
      (a backtracking matcher with Python's priorities: leftmost, greedy,
      first alternative first), with [re.match], [re.search], [re.split] and
      [re.sub] with an empty replacement;
    - [Parser]: [parse_txt_file];
    - [Page]: the script of the HTML template of [generate_html_quiz]
      ([initQuiz], [startTimer], [submitQuiz], [displayResults], the
      listeners of [attachListeners], ...), as handlers over an explicit page
      state;
    - [Board]: [showLeaderboard].

    A Python [str] is modelled as a [string] whose characters are the code
    points 0..255; on these, [str.isspace] (which [\s] and [str.strip] use),
    [\d] and the case folding of IGNORECASE are as defined in [Str]. *)

From Stdlib Require Import ZArith QArith Qcanon List String Ascii Lia Bool.
From Stdlib Require Import Sorting.Sorted Sorting.Permutation.
From Stdlib Require Import Floats.SpecFloat.
From stdpp Require Import base option list gmap strings pretty.

Local Open Scope string_scope.

(* ===================================================================== *)
(** ** Python's [str] helpers *)
(* ===================================================================== *)

Module Str.

(** [str.isspace] on one character, code points 0..255: TAB, LF, VT, FF,
    CR, FS, GS, RS, US, SPACE, NEL (0x85) and NBSP (0xA0). *)
Definition isspace (c : ascii) : bool :=
  let n := N_of_ascii c in
  (((9 <=? n) && (n <=? 13)) || ((28 <=? n) && (n <=? 32))
   || (n =? 133) || (n =? 160))%N.

(** [\d]: the decimal digits among the code points 0..255. *)
Definition isdigit (c : ascii) : bool :=
  let n := N_of_ascii c in ((48 <=? n) && (n <=? 57))%N.

Definition is_upper (c : ascii) : bool :=
  let n := N_of_ascii c in ((65 <=? n) && (n <=? 90))%N.

Definition is_lower (c : ascii) : bool :=
  let n := N_of_ascii c in ((97 <=? n) && (n <=? 122))%N.

(** Case mapping of the letters A-Z / a-z. *)
Definition to_lower (c : ascii) : ascii :=
  if is_upper c then ascii_of_N (N_of_ascii c + 32) else c.

Definition to_upper (c : ascii) : ascii :=
  if is_lower c then ascii_of_N (N_of_ascii c - 32) else c.

Definition swapcase (c : ascii) : ascii :=
  if is_upper c then to_lower c else to_upper c.

(** [s.lower()], on the letters A-Z. *)
Fixpoint lower (s : string) : string :=
  match s with
  | EmptyString => EmptyString
  | String c s' => String (to_lower c) (lower s')
  end.

Fixpoint lstrip (s : string) : string :=
  match s with
  | EmptyString => EmptyString
  | String c s' => if isspace c then lstrip s' else s
  end.

Fixpoint rstrip (s : string) : string :=
  match s with
  | EmptyString => EmptyString
  | String c s' =>
      match rstrip s' with
      | EmptyString => if isspace c then EmptyString else String c EmptyString
      | t => String c t
      end
  end.

(** [s.strip()] *)
Definition strip (s : string) : string := rstrip (lstrip s).

(** [s.split('\n')]: always at least one piece. *)
Fixpoint split_nl (s : string) : list string :=
  match s with
  | EmptyString => [EmptyString]
  | String c s' =>
      if Ascii.eqb c "010"%char then EmptyString :: split_nl s'
      else match split_nl s' with
           | p :: ps => String c p :: ps
           | [] => [String c EmptyString]
           end
  end.

(** Truth value of a [str] (Python) or of a string (JavaScript). *)
Definition truthy (s : string) : bool :=
  match s with EmptyString => false | _ => true end.

(** [sep.join(l)] *)
Definition join (sep : string) (l : list string) : string :=
  String.concat sep l.

End Str.

(* ===================================================================== *)
(** ** The fragment of [re] used by the parser *)
(* ===================================================================== *)

Module Re.

(** Character sets. *)
Inductive cset : Type :=
| One (c : ascii)          (* a literal character *)
| Range (lo hi : ascii)    (* [lo-hi] *)
| Digit                    (* \d *)
| Space                    (* \s *)
| Either (a b : cset).     (* two items of one [...] *)

Inductive regex : Type :=
| Eps
| Bol                          (* ^ (no MULTILINE) *)
| Chr (cs : cset)              (* one character of the set *)
| Star (cs : cset)             (* cs*, greedy *)
| Plus (cs : cset)             (* cs+, greedy *)
| Opt (r : regex)              (* (?:r)?, greedy *)
| Cat (r1 r2 : regex)          (* r1 r2 *)
| Alt (r1 r2 : regex)          (* r1|r2 *)
| Grp (n : nat) (r : regex)    (* the n-th capturing group *)
| Ahead (r : regex).           (* (?=r) *)

Fixpoint mem (cs : cset) (c : ascii) : bool :=
  match cs with
  | One x => Ascii.eqb c x
  | Range lo hi => ((N_of_ascii lo <=? N_of_ascii c)
                    && (N_of_ascii c <=? N_of_ascii hi))%N
  | Digit => Str.isdigit c
  | Space => Str.isspace c
  | Either a b => mem a c || mem b c
  end.

(** Membership under the flags: with IGNORECASE a character also matches
    when its other case is in the set. *)
Definition member (ignorecase : bool) (cs : cset) (c : ascii) : bool :=
  mem cs c || (ignorecase && mem cs (Str.swapcase c)).

(** The literal text [s], character by character. *)
Fixpoint lit (s : string) : regex :=
  match s with
  | EmptyString => Eps
  | String c EmptyString => Chr (One c)
  | String c s' => Cat (Chr (One c)) (lit s')
  end.

(** Captured groups, most recent first. *)
Definition groups := list (nat * string).

Fixpoint group (n : nat) (g : groups) : string :=
  match g with
  | [] => EmptyString
  | (m, s) :: g' => if Nat.eqb n m then s else group n g'
  end.

(** Greedy repetition of one character class: the longest run first, then
    shorter ones when the continuation fails. *)
Fixpoint star {A} (p : ascii -> bool) (i : nat) (s : string)
         (k : nat -> string -> option A) : option A :=
  match s with
  | String c s' =>
      if p c then
        match star p (S i) s' k with
        | Some a => Some a
        | None => k i s
        end
      else k i s
  | EmptyString => k i s
  end.

(** [run ic r g i s k]: match [r] at offset [i] of the subject, whose rest
    is [s]; [k] receives the groups, the end offset and the rest. *)
Fixpoint run {A} (ic : bool) (r : regex) (g : groups) (i : nat) (s : string)
         (k : groups -> nat -> string -> option A) : option A :=
  match r with
  | Eps => k g i s
  | Bol => if Nat.eqb i 0 then k g i s else None
  | Chr cs =>
      match s with
      | String c s' => if member ic cs c then k g (S i) s' else None
      | EmptyString => None
      end
  | Star cs => star (member ic cs) i s (k g)
  | Plus cs =>
      match s with
      | String c s' =>
          if member ic cs c then star (member ic cs) (S i) s' (k g) else None
      | EmptyString => None
      end
  | Opt r1 =>
      match run ic r1 g i s k with
      | Some a => Some a
      | None => k g i s
      end
  | Cat r1 r2 => run ic r1 g i s (fun g' i' s' => run ic r2 g' i' s' k)
  | Alt r1 r2 =>
      match run ic r1 g i s k with
      | Some a => Some a
      | None => run ic r2 g i s k
      end
  | Grp n r1 =>
      run ic r1 g i s (fun g' j s' => k ((n, substring 0 (j - i) s) :: g') j s')
  | Ahead r1 =>
      match run ic r1 g i s (fun g' _ _ => Some g') with
      | Some g' => k g' i s
      | None => None
      end
  end.

(** [re.match(r, s, flags)]: the end offset and the groups. *)
Definition re_match (ic : bool) (r : regex) (s : string) : option (nat * groups) :=
  run ic r [] 0 s (fun g j _ => Some (j, g)).

Definition matches (ic : bool) (r : regex) (s : string) : bool :=
  bool_decide (is_Some (re_match ic r s)).

(** [re.search(r, s, flags)]: the leftmost match. *)
Fixpoint search_from (ic : bool) (r : regex) (i : nat) (s : string)
  : option (nat * groups) :=
  match run ic r [] i s (fun g j _ => Some (j, g)) with
  | Some m => Some m
  | None =>
      match s with
      | String _ s' => search_from ic r (S i) s'
      | EmptyString => None
      end
  end.

Definition re_search (ic : bool) (r : regex) (s : string) : option (nat * groups) :=
  search_from ic r 0 s.

(** One match attempt of the scanning loop of [re.split] and [re.sub]:
    after an empty match the next attempt at the same offset must advance. *)
Definition attempt (ic : bool) (r : regex) (must_advance : bool)
           (i : nat) (s : string) : option nat :=
  run ic r [] i s
      (fun _ j _ => if must_advance && Nat.eqb j i then None else Some j).

Definition push (c : ascii) (pieces : list string) : list string :=
  match pieces with
  | p :: ps => String c p :: ps
  | [] => [String c EmptyString]
  end.

(** [re.split(r, s)] for a pattern without capturing groups. The result
    starts with the rest of the piece that is open at offset [i]; [skip]
    characters of a match are still to be dropped. *)
Fixpoint split_go (ic : bool) (r : regex) (i : nat) (s : string) (skip : nat)
         {struct s} : list string :=
  match s with
  | EmptyString =>
      match skip with
      | S _ => [EmptyString]
      | O =>
          match attempt ic r false i s with
          | Some _ => [EmptyString; EmptyString]
          | None => [EmptyString]
          end
      end
  | String c s' =>
      match skip with
      | S n => split_go ic r (S i) s' n
      | O =>
          match attempt ic r false i s with
          | None => push c (split_go ic r (S i) s' 0)
          | Some j =>
              if Nat.eqb j i then
                EmptyString ::
                  match attempt ic r true i s with
                  | None => push c (split_go ic r (S i) s' 0)
                  | Some j' => EmptyString :: split_go ic r (S i) s' (j' - i - 1)
                  end
              else EmptyString :: split_go ic r (S i) s' (j - i - 1)
          end
      end
  end.

Definition re_split (ic : bool) (r : regex) (s : string) : list string :=
  split_go ic r 0 s 0.

(** [re.sub(r, '', s)] for a pattern without capturing groups: what is left
    between the matches. *)
Definition re_sub_empty (ic : bool) (r : regex) (s : string) : string :=
  String.concat EmptyString (re_split ic r s).

End Re.

(* ===================================================================== *)
(** ** [parse_txt_file] *)
(* ===================================================================== *)

Module Parser.
Import Re.

Declare Scope re_scope.
Delimit Scope re_scope with re.
Bind Scope re_scope with regex.
Notation "r1 >> r2" := (Cat r1 r2) (at level 41, right associativity) : re_scope.
Notation "r1 |: r2" := (Alt r1 r2) (at level 51, right associativity) : re_scope.

Definition a_e : cset := Range "a" "e".            (* [a-e] *)
Definition colon_dash : cset := Either (One ":") (One "-").   (* [:-] *)

(** [r'\n\s*\n|(?=Q\.\d+|\d+\.\s*[A-Z])'] *)
Definition block_sep : regex :=
  (Chr (One "010") >> Star Space >> Chr (One "010")
   |: Ahead (lit "Q." >> Plus Digit
             |: Plus Digit >> Chr (One ".") >> Star Space >> Chr (Range "A" "Z")))%re.

(** [r'^(?:\d+\.\s*|Q\.\d+\s+)'] *)
Definition number_prefix : regex :=
  (Bol >> (Plus Digit >> Chr (One ".") >> Star Space
           |: lit "Q." >> Plus Digit >> Plus Space))%re.

(** [r'^[a-e]\)\s*|^\([a-e]\)\s*|^[a-e]\.\s*'] *)
Definition option_start : regex :=
  (Bol >> Chr a_e >> Chr (One ")") >> Star Space
   |: Bol >> Chr (One "(") >> Chr a_e >> Chr (One ")") >> Star Space
   |: Bol >> Chr a_e >> Chr (One ".") >> Star Space)%re.

(** [option_pattern = re.compile(r'^([a-e])[\)\.]\s*|^\(([a-e])\)\s*', re.IGNORECASE)] *)
Definition option_pattern : regex :=
  (Bol >> Grp 1 (Chr a_e) >> Chr (Either (One ")") (One ".")) >> Star Space
   |: Bol >> Chr (One "(") >> Grp 2 (Chr a_e) >> Chr (One ")") >> Star Space)%re.

(** [r'^Correct|^Answer:|^ex:'] *)
Definition keyword_line : regex :=
  (Bol >> lit "Correct" |: Bol >> lit "Answer:" |: Bol >> lit "ex:")%re.

(** [r'^[a-e]\)|^\([a-e]\)|^[a-e]\.|^Correct|^Answer:|^ex:'] *)
Definition not_continuation : regex :=
  (Bol >> Chr a_e >> Chr (One ")")
   |: Bol >> Chr (One "(") >> Chr a_e >> Chr (One ")")
   |: Bol >> Chr a_e >> Chr (One ".")
   |: Bol >> lit "Correct" |: Bol >> lit "Answer:" |: Bol >> lit "ex:")%re.

(** [r'^Correct\s*(?:option)?\s*[:-]'] *)
Definition correct_line : regex :=
  (Bol >> lit "Correct" >> Star Space >> Opt (lit "option") >> Star Space
   >> Chr colon_dash)%re.

(** [r'^Answer\s*[:-]'] *)
Definition answer_line : regex :=
  (Bol >> lit "Answer" >> Star Space >> Chr colon_dash)%re.

(** [r'[:-]\s*([a-e])'] *)
Definition letter_after_sign : regex :=
  (Chr colon_dash >> Star Space >> Grp 1 (Chr a_e))%re.

(** [r'\(([a-e])\)'] *)
Definition letter_in_parens : regex :=
  (Chr (One "(") >> Grp 1 (Chr a_e) >> Chr (One ")"))%re.

(** [r'^ex:'] and [r'^ex:\s*'] *)
Definition ex_line : regex := (Bol >> lit "ex:")%re.
Definition ex_prefix : regex := (Bol >> lit "ex:" >> Star Space)%re.

(** The dict [question]; the metadata keys that hold constants other than
    the two scores ("deleted", the image keys, ...) are left out. *)
Record Question : Type := mkQuestion {
  question : string;
  option_1 : string;
  option_2 : string;
  option_3 : string;
  option_4 : string;
  option_5 : string;
  answer : string;
  solution_text : string;
  correct_score : string;
  negative_score : string
}.

Definition empty_question : Question :=
  mkQuestion "" "" "" "" "" "" "" "" "" "".

Definition set_question (v : string) (q : Question) : Question :=
  mkQuestion v (option_1 q) (option_2 q) (option_3 q) (option_4 q) (option_5 q)
             (answer q) (solution_text q) (correct_score q) (negative_score q).

(** [question[f"option_{n}"] = v]; the loop only uses n = 1..5. *)
Definition set_option (n : nat) (v : string) (q : Question) : Question :=
  match n with
  | 1 => mkQuestion (question q) v (option_2 q) (option_3 q) (option_4 q) (option_5 q)
                    (answer q) (solution_text q) (correct_score q) (negative_score q)
  | 2 => mkQuestion (question q) (option_1 q) v (option_3 q) (option_4 q) (option_5 q)
                    (answer q) (solution_text q) (correct_score q) (negative_score q)
  | 3 => mkQuestion (question q) (option_1 q) (option_2 q) v (option_4 q) (option_5 q)
                    (answer q) (solution_text q) (correct_score q) (negative_score q)
  | 4 => mkQuestion (question q) (option_1 q) (option_2 q) (option_3 q) v (option_5 q)
                    (answer q) (solution_text q) (correct_score q) (negative_score q)
  | 5 => mkQuestion (question q) (option_1 q) (option_2 q) (option_3 q) (option_4 q) v
                    (answer q) (solution_text q) (correct_score q) (negative_score q)
  | _ => q
  end.

Definition get_option (n : nat) (q : Question) : string :=
  match n with
  | 1 => option_1 q | 2 => option_2 q | 3 => option_3 q
  | 4 => option_4 q | 5 => option_5 q | _ => ""
  end.

Definition set_answer (v : string) (q : Question) : Question :=
  mkQuestion (question q) (option_1 q) (option_2 q) (option_3 q) (option_4 q)
             (option_5 q) v (solution_text q) (correct_score q) (negative_score q).

Definition set_solution_text (v : string) (q : Question) : Question :=
  mkQuestion (question q) (option_1 q) (option_2 q) (option_3 q) (option_4 q)
             (option_5 q) (answer q) v (correct_score q) (negative_score q).

Definition set_scores (c n : string) (q : Question) : Question :=
  mkQuestion (question q) (option_1 q) (option_2 q) (option_3 q) (option_4 q)
             (option_5 q) (answer q) (solution_text q) c n.

(** The two [while] loops that gather the question text: the lines from
    [current_line] on, up to the first one that starts like an option.
    Returns the lines gathered and [lines[current_line:]] at the exit. *)
Fixpoint question_loop (rest : list string) : list string * list string :=
  match rest with
  | [] => ([], [])
  | l :: rest' =>
      if negb (matches true option_start l) then
        let '(qs, r) := question_loop rest' in (l :: qs, r)
      else ([], rest)
  end.

(** The [while] loop "Extract options", on [lines[current_line:]]. *)
Fixpoint options_loop (rest : list string) (option_count : nat) (q : Question)
  : Question * list string :=
  match rest with
  | [] => (q, [])
  | l :: rest' =>
      if (option_count <? 5)%nat
         && (matches true option_pattern l || negb (matches true keyword_line l))
      then
        if matches true option_pattern l then
          let option_text := l in
          match rest' with
          | l' :: rest'' =>
              if negb (matches true not_continuation l') then
                options_loop rest'' (S option_count)
                             (set_option (S option_count) (option_text ++ "<br>" ++ l') q)
              else
                options_loop rest' (S option_count)
                             (set_option (S option_count) option_text q)
          | [] => options_loop rest' (S option_count)
                               (set_option (S option_count) option_text q)
          end
        else options_loop rest' option_count q
      else (q, rest)
  end.

(** [answer_map.get(ans, '1')] *)
Definition answer_map_get (ans : string) : string :=
  if String.eqb ans "a" then "1"
  else if String.eqb ans "b" then "2"
  else if String.eqb ans "c" then "3"
  else if String.eqb ans "d" then "4"
  else if String.eqb ans "e" then "5"
  else "1".

(** What one line of the loop "Extract correct answer" assigns to
    [question["answer"]], if anything. *)
Definition answer_of_line (line : string) : option string :=
  if matches true correct_line line then
    match re_search true letter_after_sign line with
    | Some (_, g) => Some (answer_map_get (Str.lower (group 1 g)))
    | None => None
    end
  else if matches true answer_line line then
    let m := match re_search true letter_in_parens line with
             | Some m => Some m
             | None => re_search true letter_after_sign line
             end in
    match m with
    | Some (_, g) => Some (answer_map_get (Str.lower (group 1 g)))
    | None => None
    end
  else None.

(** The [while] loop "Extract correct answer", on [lines[current_line:]]. *)
Fixpoint answer_loop (rest : list string) (q : Question) : Question :=
  match rest with
  | [] => q
  | line :: rest' =>
      answer_loop rest'
                  (match answer_of_line line with
                   | Some a => set_answer a q
                   | None => q
                   end)
  end.

(** The [for] loop "Extract explanation". *)
Fixpoint solution_lines (lines : list string) : list string :=
  match lines with
  | [] => []
  | l :: lines' =>
      if matches true ex_line l
      then re_sub_empty true ex_prefix l :: solution_lines lines'
      else solution_lines lines'
  end.

(** [[line.strip() for line in block.split('\n') if line.strip()]] *)
Definition block_lines (block : string) : list string :=
  map Str.strip (filter (fun line => Str.truthy (Str.strip line) = true)
                        (Str.split_nl block)).

(** The question text and [lines[current_line:]] after it. *)
Definition question_stage (lines : list string) : string * list string :=
  match lines with
  | l0 :: tl =>
      if matches false number_prefix l0 then
        let question_text := re_sub_empty false number_prefix l0 in
        let '(qs, rest) := question_loop tl in
        (Str.join "<br>" (question_text :: qs), rest)
      else
        let '(qs, rest) := question_loop lines in
        (Str.join "<br>" qs, rest)
  | [] => ("", [])
  end.

(** The dict built from the lines of one block (at least 3 of them). *)
Definition build_question (lines : list string) : Question :=
  let '(text, rest) := question_stage lines in
  let q := set_question text empty_question in
  let '(q, rest) := options_loop rest 0 q in
  let q := answer_loop rest q in
  let q := set_solution_text (Str.join "<br>" (solution_lines lines)) q in
  set_scores "3" "1" q.

(** The body of [for block in blocks]: the question appended, if any. *)
Definition parse_block (block : string) : option Question :=
  let block := Str.strip block in
  if negb (Str.truthy block) then None
  else
    let lines := block_lines block in
    if (length lines <? 3)%nat then None
    else
      let q := build_question lines in
      if Str.truthy (question q)
         && (Str.truthy (option_1 q) || Str.truthy (option_2 q))
      then Some q
      else None.

Definition parse_txt_file (content : string) : list Question :=
  let blocks := re_split false block_sep (Str.strip content) in
  omap parse_block blocks.

End Parser.

(* ===================================================================== *)
(** ** The quiz page: the script of the template of [generate_html_quiz] *)
(* ===================================================================== *)

Module Page.

(** One element of [QUESTIONS], as the script reads it. [generate_html_quiz]
    gives every question its ["id"], ["correct_score"] and
    ["negative_score"], so [q.id ?? i] (in [submitQuiz]: [q.id ?? q]),
    [q.correct_score ?? 1] and [q.negative_score ?? 0] are the stored
    values; the two scores are held as the numbers that [Number(...)]
    yields, exact rationals here. *)
Record Q : Type := mkQ {
  id : string;
  question : string;
  options : list string;       (* option_1 .. option_5, "" when unused *)
  answer : string;             (* "1".."5", or "" *)
  solution_text : string;
  correct_score : Qc;
  negative_score : Qc
}.

(** [currentUser]: [email] and [displayName] may be null. *)
Record User : Type := mkUser {
  uid : string;
  email : option string;
  displayName : option string
}.

(** JavaScript's [a || b] on values that are a string or null. *)
Definition js_or (a b : option string) : option string :=
  match a with
  | Some s => if Str.truthy s then a else b
  | None => b
  end.

Definition js_or_else (a : option string) (d : string) : string :=
  match a with
  | Some s => if Str.truthy s then s else d
  | None => d
  end.

(** One row of [payload.answers]. *)
Record AnswerRow : Type := mkRow {
  r_question : string;
  r_options : list string;
  r_correctAnswer : string;
  r_userAnswer : option string
}.

(** The [payload] of [submitQuiz]. *)
Record Payload : Type := mkPayload {
  userId : string;
  p_email : option string;
  p_displayName : string;
  score : Qc;
  maxMarks : Qc;
  correct : nat;
  wrong : nat;
  unattempted : Z;
  timeTaken : Z;
  submittedAt : Z;
  p_answers : list AnswerRow
}.

(** The object that [saveQuizState] stores under [QUIZ_STATE_KEY]; a key
    may be missing in what is read back, which [??] replaces. *)
Record Snapshot : Type := mkSnapshot {
  s_current : option nat;
  s_answers : option (gmap string string);
  s_seconds : option Z;
  s_markedForReview : option (gset nat)
}.

Inductive Header : Type :=
| QuizControls       (* mode toggle, timer, Submit, View, Leaderboard *)
| ResultControls.    (* title, Re-Attempt, Leaderboard *)

(** The object that [displayResults] stores under [QUIZ_RESULT_KEY]. *)
Record SavedResult : Type := mkSavedResult {
  submitted : bool;
  resultHTML : string;
  headerHTML : option Header
}.

(** A [localStorage] item, through [JSON.parse]: text that is not JSON, on
    which [JSON.parse] throws, or the text of an object. *)
Inductive Item (A : Type) : Type :=
| NotJSON (raw : string)
| Json (v : A).
Arguments NotJSON {A} raw.
Arguments Json {A} v.

Inductive Error : Type := SyntaxError | TypeError | ReferenceError.

(** The script's global variables. *)
Record Globals : Type := mkGlobals {
  current : nat;
  answers : gmap string string;
  markedForReview : gset nat;
  seconds : Z;
  timerInterval : bool;      (* an interval set by [setInterval] is running *)
  isQuiz : bool
}.

(** The part of the document that the script changes. *)
Record Document : Type := mkDocument {
  quizCard : bool;           (* style.display is not "none" *)
  floatBar : bool;
  quizHeader : bool;
  submitModal : bool;        (* style.display is "flex" *)
  results : option string;   (* innerHTML of a displayed #results *)
  headerControls : Header;
  rendered : option nat;     (* the question whose option divs are in #options *)
  listeners : bool           (* [attachListeners] has run *)
}.

Record page : Type := mkPage {
  js : Globals;
  doc : Document;
  ls_state : option (Item Snapshot);        (* localStorage[QUIZ_STATE_KEY] *)
  ls_result : option (Item SavedResult);    (* localStorage[QUIZ_RESULT_KEY] *)
  attempt_history : list Payload            (* the payloads [set] in the database, oldest first *)
}.

(** *** Handlers: state and uncaught exceptions *)

Definition M (A : Type) : Type := page -> (A + Error) * page.

Definition ret {A} (a : A) : M A := fun p => (inl a, p).
Definition throw {A} (e : Error) : M A := fun p => (inr e, p).
Definition bind {A B} (m : M A) (k : A -> M B) : M B :=
  fun p => match m p with
           | (inl a, p') => k a p'
           | (inr e, p') => (inr e, p')
           end.
Definition get : M page := fun p => (inl p, p).
Definition modify (f : page -> page) : M unit := fun p => (inl tt, f p).

Declare Scope js_scope.
Delimit Scope js_scope with js.
Notation "x <- m ;; k" := (bind m (fun x => k))
  (at level 100, m at next level, right associativity) : js_scope.
Notation "m ;; k" := (bind m (fun _ => k))
  (at level 100, right associativity) : js_scope.
Local Open Scope js_scope.

Definition with_js (f : Globals -> Globals) (p : page) : page :=
  mkPage (f (js p)) (doc p) (ls_state p) (ls_result p) (attempt_history p).
Definition with_doc (f : Document -> Document) (p : page) : page :=
  mkPage (js p) (f (doc p)) (ls_state p) (ls_result p) (attempt_history p).

Definition set_current v (g : Globals) :=
  mkGlobals v (answers g) (markedForReview g) (seconds g) (timerInterval g) (isQuiz g).
Definition set_answers v (g : Globals) :=
  mkGlobals (current g) v (markedForReview g) (seconds g) (timerInterval g) (isQuiz g).
Definition set_markedForReview v (g : Globals) :=
  mkGlobals (current g) (answers g) v (seconds g) (timerInterval g) (isQuiz g).
Definition set_seconds v (g : Globals) :=
  mkGlobals (current g) (answers g) (markedForReview g) v (timerInterval g) (isQuiz g).
Definition set_timerInterval v (g : Globals) :=
  mkGlobals (current g) (answers g) (markedForReview g) (seconds g) v (isQuiz g).
Definition set_isQuiz v (g : Globals) :=
  mkGlobals (current g) (answers g) (markedForReview g) (seconds g) (timerInterval g) v.

Definition set_quizCard v (d : Document) :=
  mkDocument v (floatBar d) (quizHeader d) (submitModal d) (results d)
             (headerControls d) (rendered d) (listeners d).
Definition set_floatBar v (d : Document) :=
  mkDocument (quizCard d) v (quizHeader d) (submitModal d) (results d)
             (headerControls d) (rendered d) (listeners d).
Definition set_quizHeader v (d : Document) :=
  mkDocument (quizCard d) (floatBar d) v (submitModal d) (results d)
             (headerControls d) (rendered d) (listeners d).
Definition set_submitModal v (d : Document) :=
  mkDocument (quizCard d) (floatBar d) (quizHeader d) v (results d)
             (headerControls d) (rendered d) (listeners d).
Definition set_results v (d : Document) :=
  mkDocument (quizCard d) (floatBar d) (quizHeader d) (submitModal d) v
             (headerControls d) (rendered d) (listeners d).
Definition set_headerControls v (d : Document) :=
  mkDocument (quizCard d) (floatBar d) (quizHeader d) (submitModal d) (results d)
             v (rendered d) (listeners d).
Definition set_rendered v (d : Document) :=
  mkDocument (quizCard d) (floatBar d) (quizHeader d) (submitModal d) (results d)
             (headerControls d) v (listeners d).
Definition set_listeners v (d : Document) :=
  mkDocument (quizCard d) (floatBar d) (quizHeader d) (submitModal d) (results d)
             (headerControls d) (rendered d) v.

Definition set_ls_state v (p : page) :=
  mkPage (js p) (doc p) v (ls_result p) (attempt_history p).
Definition set_ls_result v (p : page) :=
  mkPage (js p) (doc p) (ls_state p) v (attempt_history p).
Definition db_set (pl : Payload) (p : page) :=
  mkPage (js p) (doc p) (ls_state p) (ls_result p) (attempt_history p ++ [pl]).

(** [JSON.parse(text)] *)
Definition JSON_parse {A} (it : Item A) : M A :=
  match it with
  | NotJSON _ => throw SyntaxError
  | Json v => ret v
  end.

(** The names that an identifier of the script can resolve to: the
    declarations at the top level of the script, and the ids of the
    elements of the document (named properties of [window]). A function
    also sees its own parameters and locals. *)
Definition script_scope : list string :=
  [ "firebaseConfig"; "auth"; "db"; "LOGIN_PAGE_URL"; "QUIZ_TITLE"; "QUESTIONS";
    "TOTAL_TIME_SECONDS"; "currentUser"; "current"; "answers"; "markedForReview";
    "seconds"; "timerInterval"; "isQuiz"; "LAST_RESULT_HTML"; "QUIZ_STATE_KEY";
    "QUIZ_RESULT_KEY"; "syncUser"; "el";
    "showQuizImmediately"; "initQuiz"; "showSavedResult"; "renderQuestion";
    "selectOption"; "showFeedback"; "startTimer"; "fmt"; "saveQuizState";
    "normalizeMathForQuiz"; "renderMath"; "showLeaderboard"; "submitQuiz";
    "displayResults"; "filterResults"; "attachListeners"; "buildPalette";
    "highlightPalette"; "togglePalette"; "rebindResultHeaderActions";
    "loadingMessage"; "quizHeader"; "headerControls"; "modeToggle"; "timer";
    "submitBtn"; "paletteBtn"; "leaderboardBtn"; "quizContainer"; "quizCard";
    "qindex"; "qtotal"; "marking"; "qtext"; "options"; "explanation"; "results";
    "floatBar"; "prevBtn"; "markReviewBtn"; "clearBtn"; "saveNextBtn"; "nextBtn";
    "submitModal"; "submitMsg"; "cancelSubmit"; "confirmSubmit";
    "leaderboardModal"; "leaderboardBody"; "closeLeaderboard"; "palette" ].

(** Reading the identifier [name] inside a function with the given
    parameters and locals. *)
Definition resolve (locals : list string) (name : string) : M unit :=
  if bool_decide (name ∈ (locals ++ script_scope)%list) then ret tt
  else throw ReferenceError.

(** *** The scoring lines of [submitQuiz] *)

Record Tally : Type := mkTally {
  t_correct : nat;
  t_wrong : nat;
  t_totalMarks : Qc;
  t_maxMarks : Qc
}.

(** The body of [QUESTIONS.forEach(q => ...)] in [submitQuiz]. *)
Definition score_step (answers : gmap string string) (t : Tally) (q : Q) : Tally :=
  let maxMarks := (t_maxMarks t + correct_score q)%Qc in
  let ans := answers !! id q in
  match ans with
  | Some a =>
      if Str.truthy a && String.eqb a (answer q) then
        mkTally (S (t_correct t)) (t_wrong t)
                (t_totalMarks t + correct_score q)%Qc maxMarks
      else if Str.truthy a then
        mkTally (t_correct t) (S (t_wrong t))
                (t_totalMarks t - negative_score q)%Qc maxMarks
      else mkTally (t_correct t) (t_wrong t) (t_totalMarks t) maxMarks
  | None => mkTally (t_correct t) (t_wrong t) (t_totalMarks t) maxMarks
  end.

Definition tally (QUESTIONS : list Q) (answers : gmap string string) : Tally :=
  fold_left (score_step answers) QUESTIONS (mkTally 0 0 0%Qc 0%Qc).

(** [attempted = Object.keys(answers).length] *)
Definition attempted (answers : gmap string string) : nat := size answers.

(** [unattempted = QUESTIONS.length - attempted] *)
Definition unattempted_of (QUESTIONS : list Q) (answers : gmap string string) : Z :=
  Z.of_nat (length QUESTIONS) - Z.of_nat (attempted answers).

(** *** Numbers

    A JavaScript Number is an IEEE 754 double: 53 bits of precision and
    exponents below 1024; [/] and [*] give the double nearest to the exact
    result, the one with an even last bit when two are as near. *)
Definition prec : Z := 53.
Definition emax : Z := 1024.

Definition Number : Type := spec_float.

(** The Number of a counter. *)
Definition Number_of_nat (n : nat) : Number :=
  binary_normalize prec emax (Z.of_nat n) 0 false.

Definition Number_div : Number -> Number -> Number := SFdiv prec emax.
Definition Number_mul : Number -> Number -> Number := SFmul prec emax.

(** The integer [n] for which [n / 10 - m * 2^e] is as close to zero as
    possible, the larger one when there are two. *)
Definition tenths (m : positive) (e : Z) : N :=
  match e with
  | Z0 => 10 * Npos m
  | Zpos p => 10 * Npos m * 2 ^ Npos p
  | Zneg p => (20 * Npos m + 2 ^ Npos p) / (2 * 2 ^ Npos p)
  end%N.

(** [x.toFixed(1)], for [x] below 10^21 in absolute value: the digits of
    the integer [n] above, with a point before the last one. *)
Definition toFixed_1 (x : Number) : string :=
  match x with
  | S754_zero _ => "0.0"
  | S754_finite s m e =>
      let n := tenths m e in
      (if s then "-" else "") ++ pretty (n / 10)%N ++ "." ++ pretty (n mod 10)%N
  | S754_infinity s => if s then "-Infinity" else "Infinity"
  | S754_nan => "NaN"
  end.

(** [(correct/attempted)*100] *)
Definition percentage (correct attempted : nat) : Number :=
  Number_mul (Number_div (Number_of_nat correct) (Number_of_nat attempted))
             (Number_of_nat 100).

(** [attempted ? ((correct/attempted)*100).toFixed(1) : "0.0"] *)
Definition accuracy_of (correct attempted : nat) : string :=
  match attempted with
  | O => "0.0"
  | _ => toFixed_1 (percentage correct attempted)
  end.

(** What the scoring lines of [submitQuiz] compute: the counters of the
    loop, [attempted], [unattempted] and [accuracy]. The payload takes all
    of them but [attempted] and [accuracy]. *)
Record Scores : Type := mkScores {
  sc_tally : Tally;
  sc_attempted : nat;
  sc_unattempted : Z;
  sc_accuracy : string
}.

Definition scoring (QUESTIONS : list Q) (answers : gmap string string) : Scores :=
  let t := tally QUESTIONS answers in
  let attempted := attempted answers in
  let unattempted := unattempted_of QUESTIONS answers in
  let accuracy := accuracy_of (t_correct t) attempted in
  mkScores t attempted unattempted accuracy.

(** *** The functions of the script

    [QUESTIONS], [TOTAL_TIME_SECONDS] and [currentUser] are fixed for one
    page; [review_html] stands for the markup that [displayResults] builds
    (its template literal and its loop over [QUESTIONS]). *)
Section Script.

Variable QUESTIONS : list Q.
Variable TOTAL_TIME_SECONDS : Z.
Variable currentUser : User.
Variable review_html : Payload -> gmap string string -> string.

(** The page when [showQuizImmediately] calls [initQuiz]: the globals
    have their initial values, the header, the quiz container and the
    bottom bar are displayed; [localStorage] and the database are those
    of the browser. *)
Definition loaded (st : option (Item Snapshot)) (res : option (Item SavedResult))
           (db : list Payload) : page :=
  mkPage (mkGlobals 0 ∅ ∅ TOTAL_TIME_SECONDS false false)
         (mkDocument true true true false None QuizControls None false)
         st res db.

Definition saveQuizState : M unit :=
  modify (fun p =>
    set_ls_state
      (Some (Json (mkSnapshot (Some (current (js p))) (Some (answers (js p)))
                              (Some (seconds (js p)))
                              (Some (markedForReview (js p)))))) p).

Definition renderQuestion (i : nat) : M unit :=
  modify (with_js (set_current i)) ;;
  match QUESTIONS !! i with
  | None => throw TypeError          (* q is undefined: q.question *)
  | Some q =>
      modify (with_doc (set_rendered (Some i))) ;;
      saveQuizState
  end.

(** A click on the option [val] of [q]; [showFeedback] only changes the
    classes of the option divs and the explanation box. *)
Definition selectOption (q : Q) (val : nat) : M unit :=
  modify (with_js (fun g => set_answers (<[id q := pretty val]> (answers g)) g)) ;;
  saveQuizState.

Definition showSavedResult (data : SavedResult) : M unit :=
  modify (with_doc (set_quizCard false)) ;;
  modify (with_doc (set_floatBar false)) ;;
  modify (with_doc (set_results (Some (resultHTML data)))) ;;
  match headerHTML data with
  | Some h => modify (with_doc (set_headerControls h))
  | None => ret tt
  end.

Definition startTimer : M unit :=
  modify (with_js (set_timerInterval true)).

Definition attachListeners : M unit :=
  modify (with_doc (set_listeners true)).

Definition initQuiz : M unit :=
  p <- get ;;
  shown <- match ls_result p with
           | Some resultSaved =>
               data <- JSON_parse resultSaved ;;
               if submitted data && Str.truthy (resultHTML data)
               then showSavedResult data ;; ret true
               else ret false
           | None => ret false
           end ;;
  if shown : bool then ret tt
  else
    match ls_state p with
    | Some saved =>
        state <- JSON_parse saved ;;
        modify (with_js (set_current (default 0%nat (s_current state)))) ;;
        modify (with_js (set_answers (default ∅ (s_answers state)))) ;;
        modify (with_js (fun g => set_seconds (default (seconds g) (s_seconds state)) g)) ;;
        match s_markedForReview state with
        | Some m => modify (with_js (set_markedForReview m))
        | None => ret tt
        end
    | None => ret tt
    end ;;
    g <- get ;;
    renderQuestion (current (js g)) ;;
    startTimer ;;
    attachListeners.

(** The listener of [submitBtn]. *)
Definition on_submitBtn : M unit :=
  modify (with_doc (set_submitModal true)).

Definition displayResults (payload : Payload) : M unit :=
  modify (with_doc (set_quizCard false)) ;;
  modify (with_doc (set_floatBar false)) ;;
  modify (with_doc (set_quizHeader false)) ;;
  (* let reviewHTML = `... ${payload.score} ... ${accuracy} ...` *)
  resolve ["payload"; "reviewHTML"; "headerHTML"; "header"] "accuracy" ;;
  p <- get ;;
  let reviewHTML := review_html payload (answers (js p)) in
  modify (with_doc (set_results (Some reviewHTML))) ;;
  let headerHTML := headerControls (doc p) in
  modify (set_ls_result (Some (Json (mkSavedResult true reviewHTML (Some headerHTML))))) ;;
  modify (with_doc (set_headerControls ResultControls)).

Definition answer_rows (answers : gmap string string) : list AnswerRow :=
  map (fun q => mkRow (question q)
                      (filter (fun o => Str.truthy o = true) (options q))
                      (answer q)
                      (js_or (answers !! id q) None))
      QUESTIONS.

Definition submitQuiz (now : Z) : M unit :=
  modify (with_js (set_timerInterval false)) ;;
  p <- get ;;
  let timeTaken := (TOTAL_TIME_SECONDS - seconds (js p))%Z in
  let sc := scoring QUESTIONS (answers (js p)) in
  let t := sc_tally sc in
  let unattempted := sc_unattempted sc in
  let displayName := js_or_else (js_or (displayName currentUser) (email currentUser))
                                "Anonymous" in
  let payload :=
    mkPayload (uid currentUser) (email currentUser) displayName
              (t_totalMarks t) (t_maxMarks t) (t_correct t) (t_wrong t)
              unattempted timeTaken now (answer_rows (answers (js p))) in
  modify (db_set payload) ;;
  displayResults payload.

(** The callback of [setInterval] in [startTimer]. *)
Definition tick : M unit :=
  modify (with_js (fun g => set_seconds (seconds g - 1)%Z g)) ;;
  p <- get ;;
  if (seconds (js p) <=? 0)%Z then
    modify (with_js (set_timerInterval false)) ;;
    (* document.getElementById("submitBtn")?.click() *)
    if listeners (doc p) then on_submitBtn else ret tt
  else ret tt.

(** The other listeners of [attachListeners]. *)
Definition on_nextBtn : M unit :=
  p <- get ;;
  if (Z.of_nat (current (js p)) <? Z.of_nat (length QUESTIONS) - 1)%Z
  then renderQuestion (current (js p) + 1) else ret tt.

Definition on_prevBtn : M unit :=
  p <- get ;;
  if (0 <? current (js p))%nat
  then renderQuestion (current (js p) - 1) else ret tt.

Definition on_clearBtn : M unit :=
  p <- get ;;
  match QUESTIONS !! current (js p) with
  | None => throw TypeError
  | Some q =>
      modify (with_js (fun g => set_answers (delete (id q) (answers g)) g)) ;;
      renderQuestion (current (js p))
  end.

Definition on_markReviewBtn : M unit :=
  modify (with_js (fun g =>
    set_markedForReview
      (if bool_decide (current g ∈ markedForReview g)
       then markedForReview g ∖ {[ current g ]}
       else markedForReview g ∪ {[ current g ]}) g)) ;;
  saveQuizState.

Definition on_saveNextBtn : M unit :=
  saveQuizState ;;
  p <- get ;;
  if (Z.of_nat (current (js p)) <? Z.of_nat (length QUESTIONS) - 1)%Z
  then renderQuestion (current (js p) + 1) else ret tt.

Definition on_cancelSubmit : M unit :=
  modify (with_doc (set_submitModal false)).

Definition on_confirmSubmit (now : Z) : M unit :=
  modify (with_doc (set_submitModal false)) ;;
  submitQuiz now.

Definition on_modeToggle : M unit :=
  modify (with_js (fun g => set_isQuiz (negb (isQuiz g)) g)) ;;
  p <- get ;;
  renderQuestion (current (js p)).

(** *** What the browser delivers to the script *)

Inductive Event : Type :=
| Tick                            (* the interval of [startTimer] fires *)
| ClickNext | ClickPrev | ClickClear | ClickMarkReview | ClickSaveNext
| ClickSubmit | ClickCancelSubmit
| ClickConfirmSubmit (now : Z)    (* [now] is what [Date.now()] returns *)
| ClickModeToggle
| ClickOption (val : nat)         (* the option div [val] of the rendered question *)
| ClickPalette (i : nat)          (* the palette button of question [i] *)
| Reload.                         (* [location.reload()], also the Re-Attempt button *)

Definition handler (e : Event) : M unit :=
  match e with
  | Tick => tick
  | ClickNext => on_nextBtn
  | ClickPrev => on_prevBtn
  | ClickClear => on_clearBtn
  | ClickMarkReview => on_markReviewBtn
  | ClickSaveNext => on_saveNextBtn
  | ClickSubmit => on_submitBtn
  | ClickCancelSubmit => on_cancelSubmit
  | ClickConfirmSubmit now => on_confirmSubmit now
  | ClickModeToggle => on_modeToggle
  | ClickOption val =>
      p <- get ;;
      match rendered (doc p) with
      | Some i =>
          match QUESTIONS !! i with
          | Some q =>
              if Str.truthy (nth (val - 1) (options q) "")
              then selectOption q val else ret tt
          | None => ret tt
          end
      | None => ret tt
      end
  | ClickPalette i => renderQuestion i
  | Reload => ret tt
  end.

(** Whether the event has a receiver: the interval exists once
    [startTimer] has run and until [clearInterval]; the buttons have
    their listeners once [attachListeners] has run; the option divs
    exist once a question is rendered. *)
Definition enabled (e : Event) (p : page) : bool :=
  match e with
  | Tick => timerInterval (js p)
  | ClickOption _ => bool_decide (is_Some (rendered (doc p)))
  | Reload => true
  | _ => listeners (doc p)
  end.

(** One event. An exception that a handler does not catch ends that
    handler and leaves the state as it was when it was thrown. A reload
    runs the script again on what the browser kept. *)
Definition deliver (p : page) (e : Event) : page :=
  match e with
  | Reload => snd (initQuiz (loaded (ls_state p) (ls_result p) (attempt_history p)))
  | _ => if enabled e p then snd (handler e p) else p
  end.

Definition run_events (p : page) (es : list Event) : page :=
  fold_left deliver es p.

(** Opening the page in a browser with the given storage. *)
Definition open_page (st : option (Item Snapshot)) (res : option (Item SavedResult))
           (db : list Payload) : (unit + Error) * page :=
  initQuiz (loaded st res db).

End Script.

End Page.

(* ===================================================================== *)
(** ** [showLeaderboard] *)
(* ===================================================================== *)

Module Board.

(** An attempt as read back from [attempt_history/QUIZ_TITLE]: the fields
    of the payload that [showLeaderboard] reads. *)
Record Attempt : Type := mkAttempt {
  displayName : option string;
  email : option string;
  score : Qc;
  timeTaken : Z
}.

(** A row of the leaderboard: [idx+1], the name, the score, the time. *)
Record Entry : Type := mkEntry {
  rank : nat;
  name : string;
  e_score : Qc;
  e_time : Z
}.

(** [(a,b) => b.score - a.score || a.timeTaken - b.timeTaken] *)
Definition comparefn (a b : Attempt) : Qc :=
  let d := (score b - score a)%Qc in
  if Qc_eq_dec d 0%Qc then Q2Qc (inject_Z (timeTaken a - timeTaken b)) else d.

(** [Array.prototype.sort] is stable: of two attempts that compare equal
    the one that came first stays first. [insert a l] puts [a], which came
    before all of [l], into the sorted [l]. *)
Fixpoint insert (a : Attempt) (l : list Attempt) : list Attempt :=
  match l with
  | [] => [a]
  | b :: l' =>
      match (comparefn a b ?= 0)%Qc with
      | Gt => b :: insert a l'
      | _ => a :: l
      end
  end.

Fixpoint sort (l : list Attempt) : list Attempt :=
  match l with
  | [] => []
  | a :: l' => insert a (sort l')
  end.

(** [a.displayName || a.email || 'Anonymous'] *)
Definition name_of (a : Attempt) : string :=
  Page.js_or_else (Page.js_or (displayName a) (email a)) "Anonymous".

Fixpoint entries (idx : nat) (l : list Attempt) : list Entry :=
  match l with
  | [] => []
  | a :: l' => mkEntry (idx + 1) (name_of a) (score a) (timeTaken a)
                 :: entries (S idx) l'
  end.

Inductive View : Type :=
| NoAttemptsYet
| Rows (l : list Entry).

(** [data] is [snapshot.val()]: null, or per user ([Object.values(data)])
    the attempts of that user ([Object.values(userAttempts)]). *)
Definition showLeaderboard (data : option (list (list Attempt))) : View :=
  match data with
  | None => NoAttemptsYet
  | Some users =>
      let attempts := concat users in
      let attempts := sort attempts in
      let top10 := firstn 10 attempts in
      Rows (entries 0 top10)
  end.

End Board.

(* ===================================================================== *)
(** * Properties of the parser *)
(* ===================================================================== *)

Module ParserProps.
Import Re Parser.

(** A text given line by line. *)
Definition text (lines : list string) : string :=
  Str.join (String "010" "") lines.

(** *** Records *)

Lemma get_set_option m n v q :
  get_option n (set_option m v q)
  = if bool_decide (n = m ∧ (1 ≤ m ≤ 5)%nat) then v else get_option n q.
Proof.
  do 6 (try destruct m as [|m]); do 6 (try destruct n as [|n]);
    try reflexivity; simpl;
    case_bool_decide as H; try reflexivity; exfalso; lia.
Qed.

Lemma get_option_set_answer n v q :
  get_option n (set_answer v q) = get_option n q.
Proof. do 6 (try destruct n as [|n]); reflexivity. Qed.

Lemma get_option_set_solution_text n v q :
  get_option n (set_solution_text v q) = get_option n q.
Proof. do 6 (try destruct n as [|n]); reflexivity. Qed.

Lemma get_option_set_scores n c d q :
  get_option n (set_scores c d q) = get_option n q.
Proof. do 6 (try destruct n as [|n]); reflexivity. Qed.

Lemma get_option_set_question n v q :
  get_option n (set_question v q) = get_option n q.
Proof. do 6 (try destruct n as [|n]); reflexivity. Qed.

Lemma answer_set_option m v q : answer (set_option m v q) = answer q.
Proof. do 6 (try destruct m as [|m]); reflexivity. Qed.

(** *** The text of the file and its blocks *)

(** The blocks of a text. *)
Definition blocks (content : string) : list string :=
  re_split false block_sep (Str.strip content).

Lemma parse_txt_file_blocks content q :
  q ∈ parse_txt_file content →
  ∃ block, block ∈ blocks content ∧ parse_block block = Some q.
Proof.
  unfold parse_txt_file. intros H.
  apply list_elem_of_omap in H as (block & Hb & H). eauto.
Qed.

Lemma parse_block_Some block q :
  parse_block block = Some q →
  q = build_question (block_lines (Str.strip block))
  ∧ (3 ≤ length (block_lines (Str.strip block)))%nat
  ∧ Str.truthy (question q) = true
  ∧ (Str.truthy (option_1 q) = true ∨ Str.truthy (option_2 q) = true).
Proof.
  unfold parse_block. intros H.
  destruct (negb (Str.truthy (Str.strip block))); [discriminate|].
  destruct (length (block_lines (Str.strip block)) <? 3)%nat eqn:Hlen; [discriminate|].
  apply Nat.ltb_ge in Hlen.
  destruct (Str.truthy (question _) && _) eqn:Hemit; [|discriminate].
  injection H as <-.
  apply andb_true_iff in Hemit as [Hq Ho]. apply orb_true_iff in Ho.
  auto.
Qed.

(** *** The loop that extracts the options *)

Lemma star_some {A : Set} (p : ascii -> bool) (k : nat -> string -> option A) :
  (∀ i s, is_Some (k i s)) → ∀ s i, is_Some (star p i s k).
Proof.
  intros Hk. induction s as [|c s IH]; intros i; cbn [star]; [apply Hk|].
  destruct (p c); [|apply Hk].
  destruct (IH (S i)) as [a ->]. eauto.
Qed.

Lemma matches_alt ic r1 r2 l :
  matches ic (Alt r1 r2) l = matches ic r1 l || matches ic r2 l.
Proof.
  unfold matches, re_match. cbn [run].
  destruct (run ic r1 [] 0 l _) as [a|] eqn:E.
  - rewrite bool_decide_eq_true_2 by eauto. reflexivity.
  - rewrite (bool_decide_eq_false_2 (is_Some None)) by (intros [? ?]; discriminate).
    reflexivity.
Qed.

(** The three ways in which a line starts with an option marker. *)
Definition paren_after : regex := (Bol >> Chr a_e >> Chr (One ")"))%re.
Definition in_parens : regex := (Bol >> Chr (One "(") >> Chr a_e >> Chr (One ")"))%re.
Definition dot_after : regex := (Bol >> Chr a_e >> Chr (One "."))%re.

Lemma is_Some_true {A} (x : option A) : is_Some x → bool_decide (is_Some x) = true.
Proof. intros H. apply bool_decide_eq_true_2, H. Qed.

Lemma is_Some_None {A} : bool_decide (is_Some (@None A)) = false.
Proof. apply bool_decide_eq_false_2. intros [? ?]. discriminate. Qed.

Lemma member_either ic a b c :
  member ic (Either a b) c = member ic a c || member ic b c.
Proof.
  unfold member. cbn [mem].
  destruct ic, (mem a c), (mem b c), (mem a (Str.swapcase c)), (mem b (Str.swapcase c));
    reflexivity.
Qed.

Lemma star_space_some {A : Set} i s (a : nat → A) :
  bool_decide (is_Some (star (member true Space) i s (λ j _, Some (a j)))) = true.
Proof. apply is_Some_true, star_some. eauto. Qed.

Lemma option_pattern_markers l :
  matches true option_pattern l
  = matches true paren_after l || matches true in_parens l || matches true dot_after l.
Proof.
  unfold option_pattern. rewrite matches_alt.
  unfold matches, re_match, paren_after, in_parens, dot_after.
  destruct l as [|c1 [|c2 r]].
  - vm_compute. reflexivity.
  - cbn -[member].
    destruct (member true a_e c1), (member true (One "(") c1);
      rewrite ?is_Some_None; reflexivity.
  - cbn -[member]. rewrite member_either.
    destruct (member true a_e c1), (member true (One "(") c1),
      (member true (One ")") c2), (member true (One ".") c2), (member true a_e c2);
      cbn [orb]; rewrite ?is_Some_None, ?star_space_some; cbn [orb];
      try reflexivity;
      try (destruct r as [|c3 r]; [reflexivity|];
           destruct (member true (One ")") c3);
           rewrite ?is_Some_None, ?star_space_some; reflexivity).
Qed.

Lemma option_start_markers l :
  matches true option_start l
  = matches true paren_after l || matches true in_parens l || matches true dot_after l.
Proof.
  unfold option_start. rewrite !matches_alt.
  unfold matches, re_match, paren_after, in_parens, dot_after.
  destruct l as [|c1 [|c2 r]].
  - vm_compute. reflexivity.
  - cbn -[member].
    destruct (member true a_e c1), (member true (One "(") c1);
      rewrite ?is_Some_None; reflexivity.
  - cbn -[member].
    destruct (member true a_e c1), (member true (One "(") c1),
      (member true (One ")") c2), (member true (One ".") c2), (member true a_e c2);
      cbn [orb]; rewrite ?is_Some_None, ?star_space_some; cbn [orb];
      try reflexivity;
      try (destruct r as [|c3 r]; [reflexivity|];
           destruct (member true (One ")") c3);
           rewrite ?is_Some_None, ?star_space_some; reflexivity).
Qed.

Lemma not_continuation_parts l :
  matches true not_continuation l
  = matches true option_pattern l || matches true keyword_line l.
Proof.
  rewrite option_pattern_markers. unfold not_continuation, keyword_line.
  rewrite !matches_alt.
  fold paren_after in_parens dot_after.
  destruct (matches true paren_after l), (matches true in_parens l),
    (matches true dot_after l); reflexivity.
Qed.

Lemma two_first_characters (x y : ascii) (rest : regex) l :
  matches true (Bol >> Chr (One x) >> Chr (One y) >> rest)%re l = true →
  ∃ c1 c2 r, l = String c1 (String c2 r)
             ∧ member true (One x) c1 = true ∧ member true (One y) c2 = true.
Proof.
  unfold matches, re_match. destruct l as [|c1 [|c2 r]]; cbn -[member].
  - rewrite ?is_Some_None. discriminate.
  - destruct (member true (One x) c1); rewrite ?is_Some_None; discriminate.
  - destruct (member true (One x) c1) eqn:E1; [|rewrite ?is_Some_None; discriminate].
    destruct (member true (One y) c2) eqn:E2; [|rewrite ?is_Some_None; discriminate].
    intros _. exists c1, c2, r. auto.
Qed.

Lemma keyword_line_start l :
  matches true keyword_line l = true →
  ∃ c1 c2 r, l = String c1 (String c2 r)
             ∧ (member true (One "C") c1 = true ∧ member true (One "o") c2 = true
                ∨ member true (One "A") c1 = true ∧ member true (One "n") c2 = true
                ∨ member true (One "e") c1 = true ∧ member true (One "x") c2 = true).
Proof.
  unfold keyword_line. rewrite !matches_alt. intros H.
  apply orb_true_iff in H as [H|H]; [|apply orb_true_iff in H as [H|H]];
    apply two_first_characters in H as (c1 & c2 & r & -> & H1 & H2); eauto 10.
Qed.

Lemma option_pattern_start l :
  matches true option_pattern l = true →
  ∃ c1 c2 r, l = String c1 (String c2 r)
             ∧ (member true (One ")") c2 = true ∨ member true (One ".") c2 = true
                ∨ member true (One "(") c1 = true).
Proof.
  rewrite option_pattern_markers.
  unfold matches, re_match, paren_after, in_parens, dot_after.
  destruct l as [|c1 [|c2 r]].
  - vm_compute. discriminate.
  - cbn -[member].
    destruct (member true a_e c1), (member true (One "(") c1);
      rewrite ?is_Some_None; discriminate.
  - cbn -[member]. intros H. exists c1, c2, r. split; [reflexivity|].
    destruct (member true (One ")") c2); [auto|].
    destruct (member true (One ".") c2); [auto|].
    destruct (member true (One "(") c1); [auto|].
    destruct (member true a_e c1); rewrite ?is_Some_None in H; discriminate.
Qed.

Lemma keyword_characters c :
  (member true (One "o") c || member true (One "n") c || member true (One "x") c)
  && (member true (One ")") c || member true (One ".") c) = false
  ∧ (member true (One "C") c || member true (One "A") c || member true (One "e") c)
    && member true (One "(") c = false.
Proof. destruct c as [[] [] [] [] [] [] [] []]; vm_compute; split; reflexivity. Qed.

Lemma keyword_not_option l :
  matches true keyword_line l = true → matches true option_pattern l = false.
Proof.
  intros Hk. destruct (matches true option_pattern l) eqn:Ho; [|reflexivity].
  apply keyword_line_start in Hk as (c1 & c2 & r & -> & Hk).
  apply option_pattern_start in Ho as (d1 & d2 & r' & [= <- <- <-] & Ho).
  destruct (keyword_characters c1) as [_ H1]. destruct (keyword_characters c2) as [H2 _].
  destruct Hk as [[Ha Hb]|[[Ha Hb]|[Ha Hb]]]; rewrite Ha in H1; rewrite Hb in H2;
    destruct Ho as [Ho|[Ho|Ho]]; rewrite Ho in *;
    cbn in H1, H2; rewrite ?orb_true_r in *; cbn in H1, H2; congruence.
Qed.

Lemma number_prefix_start l :
  matches false number_prefix l = true →
  ∃ c r, l = String c r
         ∧ (member false Digit c = true ∨ member false (One "Q") c = true).
Proof.
  unfold matches, re_match, number_prefix. destruct l as [|c r]; cbn -[member].
  - rewrite ?is_Some_None. discriminate.
  - intros H. exists c, r. split; [reflexivity|].
    destruct (member false Digit c); [auto|].
    destruct (member false (One "Q") c); [auto|].
    rewrite ?is_Some_None in H. discriminate.
Qed.

Lemma option_pattern_first l :
  matches true option_pattern l = true →
  ∃ c r, l = String c r
         ∧ (member true a_e c = true ∨ member true (One "(") c = true).
Proof.
  rewrite option_pattern_markers.
  unfold matches, re_match, paren_after, in_parens, dot_after.
  destruct l as [|c r].
  - vm_compute. discriminate.
  - cbn -[member]. intros H. exists c, r. split; [reflexivity|].
    destruct (member true a_e c); [auto|].
    destruct (member true (One "(") c); [auto|].
    destruct r; rewrite ?is_Some_None in H; discriminate.
Qed.

Lemma number_characters c :
  (member false Digit c || member false (One "Q") c)
  && (member true a_e c || member true (One "(") c) = false.
Proof. destruct c as [[] [] [] [] [] [] [] []]; vm_compute; reflexivity. Qed.

Lemma numbered_not_option l :
  matches false number_prefix l = true → matches true option_pattern l = false.
Proof.
  intros Hn. destruct (matches true option_pattern l) eqn:Ho; [|reflexivity].
  apply number_prefix_start in Hn as (c & r & -> & Hn).
  apply option_pattern_first in Ho as (d & r' & [= <- <-] & Ho).
  pose proof (number_characters c) as H.
  destruct Hn as [Hn|Hn], Ho as [Ho|Ho]; rewrite Hn, Ho in H;
    rewrite ?orb_true_r in H; cbn in H; congruence.
Qed.

(** *** The options in the words of the specification *)

(** A line that starts with an option marker, a line that starts with a
    keyword of the answer or of the explanation, and a line that starts
    with neither: a continuation. *)
Definition is_option (l : string) : bool := matches true option_pattern l.
Definition is_keyword (l : string) : bool := matches true keyword_line l.
Definition is_continuation (l : string) : bool :=
  negb (matches true not_continuation l).

(** The lines from the first option line on. *)
Fixpoint from_first_option (lines : list string) : list string :=
  match lines with
  | [] => []
  | l :: rest => if is_option l then lines else from_first_option rest
  end.

(** The lines before the first keyword line. *)
Fixpoint before_keyword (lines : list string) : list string :=
  match lines with
  | [] => []
  | l :: rest => if is_keyword l then [] else l :: before_keyword rest
  end.

(** Every line with the line that follows it, if any. *)
Fixpoint with_next (lines : list string) : list (string * option string) :=
  match lines with
  | [] => []
  | l :: rest => (l, head rest) :: with_next rest
  end.

(** The text kept for an option line: the whole line, then the line-break
    marker and the next line exactly when that line is a continuation. *)
Definition stored_text (p : string * option string) : string :=
  match p.2 with
  | Some l' => if is_continuation l' then p.1 ++ "<br>" ++ l' else p.1
  | None => p.1
  end.

(** The texts of the option lines of a block, in their order: those of the
    lines from the first option line up to the first keyword line. *)
Definition texts_from (rest : list string) : list string :=
  map stored_text
      (filter (λ p, is_option p.1 = true) (with_next (before_keyword rest))).

Definition option_texts (lines : list string) : list string :=
  texts_from (from_first_option lines).

(** The five option slots of a record. *)
Definition options_of (q : Question) : list string :=
  [option_1 q; option_2 q; option_3 q; option_4 q; option_5 q].

Lemma question_loop_from_first rest :
  snd (question_loop rest) = from_first_option rest.
Proof.
  induction rest as [|l rest IH]; [reflexivity|].
  cbn [question_loop from_first_option]. unfold is_option.
  rewrite option_start_markers, <- option_pattern_markers.
  destruct (matches true option_pattern l); cbn [negb]; [reflexivity|].
  destruct (question_loop rest). exact IH.
Qed.

Lemma question_stage_from_first lines :
  snd (question_stage lines) = from_first_option lines.
Proof.
  destruct lines as [|l0 tl]; [reflexivity|]. unfold question_stage.
  destruct (matches false number_prefix l0) eqn:E.
  - cbn [from_first_option]. unfold is_option. rewrite (numbered_not_option l0 E).
    rewrite <- question_loop_from_first. destruct (question_loop tl). reflexivity.
  - rewrite <- question_loop_from_first. destruct (question_loop (l0 :: tl)). reflexivity.
Qed.

Lemma texts_from_keyword l rest : is_keyword l = true → texts_from (l :: rest) = [].
Proof. intros H. unfold texts_from. cbn [before_keyword]. rewrite H. reflexivity. Qed.

Lemma texts_from_option l rest :
  is_option l = true →
  texts_from (l :: rest) = stored_text (l, head (before_keyword rest)) :: texts_from rest.
Proof.
  intros H. unfold texts_from. cbn [before_keyword].
  destruct (is_keyword l) eqn:K.
  { apply keyword_not_option in K. unfold is_option in H. congruence. }
  cbn [with_next]. rewrite filter_cons, decide_True by exact H. reflexivity.
Qed.

Lemma texts_from_other l rest :
  is_option l = false → is_keyword l = false → texts_from (l :: rest) = texts_from rest.
Proof.
  intros H K. unfold texts_from. cbn [before_keyword]. rewrite K.
  cbn [with_next]. rewrite filter_cons, decide_False; [reflexivity|].
  cbn. rewrite H. discriminate.
Qed.

Lemma continuation_plain l :
  is_continuation l = true → is_option l = false ∧ is_keyword l = false.
Proof.
  unfold is_continuation, is_option, is_keyword. rewrite not_continuation_parts.
  destruct (matches true option_pattern l), (matches true keyword_line l);
    cbn; intros H; try discriminate; auto.
Qed.

Lemma stored_text_next l l' rest :
  is_continuation l' = true →
  stored_text (l, head (before_keyword (l' :: rest))) = l ++ "<br>" ++ l'.
Proof.
  intros H. destruct (continuation_plain l' H) as [_ K].
  cbn [before_keyword]. rewrite K. unfold stored_text. cbn. rewrite H. reflexivity.
Qed.

Lemma stored_text_alone l l' rest :
  is_continuation l' = false →
  stored_text (l, head (before_keyword (l' :: rest))) = l.
Proof.
  intros H. cbn [before_keyword]. unfold stored_text.
  destruct (is_keyword l'); cbn; rewrite ?H; reflexivity.
Qed.

(** The slot [n] after one more option [v] is stored in slot [count + 1]. *)
Lemma slot_step count n v (later : list string) (g : string) :
  (count < 5)%nat →
  (if bool_decide (S count < n ≤ 5)%nat
   then default (if bool_decide (n = S count ∧ (1 ≤ S count ≤ 5)%nat) then v else g)
                (later !! (n - S count - 1)%nat)
   else if bool_decide (n = S count ∧ (1 ≤ S count ≤ 5)%nat) then v else g)
  = if bool_decide (count < n ≤ 5)%nat
    then default g ((v :: later) !! (n - count - 1)%nat)
    else g.
Proof.
  intros Hc. repeat case_bool_decide; try lia; try reflexivity.
  - replace (n - count - 1)%nat with (S (n - S count - 1)) by lia. reflexivity.
  - replace (n - count - 1)%nat with 0%nat by lia. reflexivity.
Qed.

Lemma options_loop_texts n :
  ∀ k rest count q,
    (length rest ≤ k)%nat →
    get_option n (fst (options_loop rest count q))
    = if bool_decide (count < n ≤ 5)%nat
      then default (get_option n q) (texts_from rest !! (n - count - 1)%nat)
      else get_option n q.
Proof.
  induction k as [|k IH]; intros rest count q Hk.
  - destruct rest; [|simpl in Hk; lia]. cbn. case_bool_decide; reflexivity.
  - destruct rest as [|l rest']; [cbn; case_bool_decide; reflexivity|].
    simpl in Hk. cbn [options_loop].
    destruct (Nat.ltb_spec count 5) as [Hlt|Hge]; cbn [andb];
      [|cbn [fst]; rewrite bool_decide_eq_false_2 by lia; reflexivity].
    fold (is_option l). fold (is_keyword l).
    destruct (is_option l) eqn:Hopt; cbn [orb].
    + rewrite (texts_from_option l rest' Hopt).
      destruct rest' as [|l' rest''].
      * cbn [options_loop fst]. rewrite get_set_option.
        change (stored_text (l, head (before_keyword []))) with l.
        change (texts_from []) with (@nil string).
        rewrite <- (slot_step count n l [] (get_option n q) Hlt).
        rewrite lookup_nil. cbn [default]. repeat case_bool_decide; reflexivity.
      * fold (is_continuation l'). destruct (is_continuation l') eqn:Hcont.
        -- rewrite IH by (simpl in Hk; lia). rewrite get_set_option.
           rewrite (stored_text_next l l' rest'' Hcont).
           destruct (continuation_plain l' Hcont) as [Ho Hkw].
           rewrite (texts_from_other l' rest'' Ho Hkw).
           apply slot_step, Hlt.
        -- rewrite IH by lia. rewrite get_set_option.
           rewrite (stored_text_alone l l' rest'' Hcont).
           apply slot_step, Hlt.
    + destruct (is_keyword l) eqn:Hkw; cbn [negb].
      * cbn [fst]. rewrite (texts_from_keyword l rest' Hkw), lookup_nil.
        cbn. case_bool_decide; reflexivity.
      * rewrite IH by lia. rewrite (texts_from_other l rest' Hopt Hkw). reflexivity.
Qed.

(** The lines that are left when the options have been read. *)
Definition after_options (lines : list string) : list string :=
  snd (options_loop (snd (question_stage lines)) 0
                    (set_question (fst (question_stage lines)) empty_question)).

Lemma build_question_eq lines :
  build_question lines
  = set_scores "3" "1"
      (set_solution_text (Str.join "<br>" (solution_lines lines))
         (answer_loop (after_options lines)
            (fst (options_loop (snd (question_stage lines)) 0
                    (set_question (fst (question_stage lines)) empty_question))))).
Proof.
  unfold build_question, after_options.
  destruct (question_stage lines) as [t rest]. cbn [fst snd].
  destruct (options_loop rest 0 (set_question t empty_question)). reflexivity.
Qed.

Lemma get_option_answer_loop n rest :
  ∀ q, get_option n (answer_loop rest q) = get_option n q.
Proof.
  induction rest as [|l rest IH]; intros q; [reflexivity|].
  cbn [answer_loop]. rewrite IH.
  destruct (answer_of_line l); [apply get_option_set_answer | reflexivity].
Qed.

Lemma take_five_padded (ts : list string) :
  [default "" (ts !! 0%nat); default "" (ts !! 1%nat); default "" (ts !! 2%nat);
   default "" (ts !! 3%nat); default "" (ts !! 4%nat)]
  = take 5 (ts ++ replicate 5 "").
Proof. do 5 (try destruct ts as [|? ts]); reflexivity. Qed.

Lemma build_question_slot lines n :
  (1 ≤ n ≤ 5)%nat →
  get_option n (build_question lines) = default "" (option_texts lines !! (n - 1)%nat).
Proof.
  intros Hn. rewrite build_question_eq, get_option_set_scores,
    get_option_set_solution_text, get_option_answer_loop.
  rewrite (options_loop_texts n (length (snd (question_stage lines)))) by reflexivity.
  rewrite bool_decide_eq_true_2 by lia. rewrite get_option_set_question.
  rewrite question_stage_from_first. unfold option_texts.
  replace (n - 0 - 1)%nat with (n - 1)%nat by lia.
  replace (get_option n empty_question) with "";
    [reflexivity | do 6 (try destruct n as [|n]); reflexivity].
Qed.

Lemma build_question_options lines :
  options_of (build_question lines) = take 5 (option_texts lines ++ replicate 5 "").
Proof.
  rewrite <- take_five_padded. unfold options_of.
  pose proof (build_question_slot lines 1 ltac:(lia)) as H1.
  pose proof (build_question_slot lines 2 ltac:(lia)) as H2.
  pose proof (build_question_slot lines 3 ltac:(lia)) as H3.
  pose proof (build_question_slot lines 4 ltac:(lia)) as H4.
  pose proof (build_question_slot lines 5 ltac:(lia)) as H5.
  cbn [get_option Nat.sub] in H1, H2, H3, H4, H5.
  rewrite H1, H2, H3, H4, H5. reflexivity.
Qed.

(** *** The loop that extracts the answer *)

Lemma answer_of_line_range line v :
  answer_of_line line = Some v → v ∈ ["1"; "2"; "3"; "4"; "5"].
Proof.
  assert (Hmap : ∀ s, answer_map_get s ∈ ["1"; "2"; "3"; "4"; "5"]).
  { intros s. unfold answer_map_get.
    repeat (destruct (String.eqb s _); [set_solver|]). set_solver. }
  unfold answer_of_line.
  destruct (matches true correct_line line).
  - destruct (re_search true letter_after_sign line) as [[? g]|]; [|discriminate].
    intros [= <-]. apply Hmap.
  - destruct (matches true answer_line line); [|discriminate].
    destruct (match re_search true letter_in_parens line with
              | Some m => Some m
              | None => re_search true letter_after_sign line
              end) as [[? g]|]; [|discriminate].
    intros [= <-]. apply Hmap.
Qed.

Lemma answer_loop_last rest :
  ∀ q, answer (answer_loop rest q)
       = default (answer q) (last (omap answer_of_line rest)).
Proof.
  induction rest as [|l rest IH]; intros q; [reflexivity|].
  cbn [answer_loop]. rewrite IH. cbn [omap list_omap].
  destruct (answer_of_line l) as [a|]; [|reflexivity].
  cbn [answer set_answer]. rewrite last_cons.
  destruct (last (omap answer_of_line rest)); reflexivity.
Qed.

Lemma answer_options_loop :
  ∀ k rest count q, (length rest ≤ k)%nat →
    answer (fst (options_loop rest count q)) = answer q.
Proof.
  induction k as [|k IH]; intros rest count q Hk.
  - destruct rest; [reflexivity | simpl in Hk; lia].
  - destruct rest as [|l rest']; [reflexivity|].
    simpl in Hk. cbn [options_loop].
    destruct ((count <? 5)%nat && _); [|reflexivity].
    destruct (matches true option_pattern l).
    + destruct rest' as [|l' rest''].
      * cbn [options_loop fst]. apply answer_set_option.
      * destruct (negb (matches true not_continuation l'));
          (rewrite IH; [apply answer_set_option | simpl in Hk |- *; lia]).
    + apply IH. lia.
Qed.

Lemma build_question_answer lines :
  answer (build_question lines)
  = default "" (last (omap answer_of_line (after_options lines))).
Proof.
  rewrite build_question_eq. cbn [answer set_scores set_solution_text].
  rewrite answer_loop_last.
  rewrite (answer_options_loop (length (snd (question_stage lines)))); reflexivity.
Qed.

End ParserProps.

(* ===================================================================== *)
(** * The parser: what a record holds *)
(* ===================================================================== *)

Import Parser ParserProps.

(** The number of option slots of a record that are not empty. *)
Definition present_options (q : Question) : nat :=
  length (filter (fun o => Str.truthy o = true)
                 [option_1 q; option_2 q; option_3 q; option_4 q; option_5 q]).

(** The index that the string of ["answer"] denotes. *)
Definition answer_index (s : string) : option nat :=
  if String.eqb s "1" then Some 1
  else if String.eqb s "2" then Some 2
  else if String.eqb s "3" then Some 3
  else if String.eqb s "4" then Some 4
  else if String.eqb s "5" then Some 5
  else None.

(** The answer of a record is unset, or an index between 1 and [bound]. *)
Definition answer_within (bound : nat) (q : Question) : Prop :=
  answer q = "" ∨ ∃ n, answer_index (answer q) = Some n ∧ (1 ≤ n ≤ bound)%nat.

Definition one_option_block : string :=
  text ["1. What is the capital?"; "a) Paris"; "Correct option:-a"].

Definition arithmetic_block : string :=
  text ["1. What is 2+2?"; "a) 3"; "b) 4"; "Correct option:-b"; "ex: Basic arithmetic"].

Definition continued_option_block : string :=
  text ["1. Pick one"; "a) one"; "ek"; "b) two"; "c) three"; "Correct option:-a"].

Definition france_block : string :=
  text ["Q.1 Capital of France?"; "(a) Paris"; "(b) London"; "Answer: (a)"].

Definition two_answers_block : string :=
  text ["1. Pick one"; "a) x"; "b) y"; "Correct option:-a"; "Answer: b"].

Definition fifth_of_two_block : string :=
  text ["1. Pick one"; "a) x"; "b) y"; "Correct option:-e"].

(** Every record of the output has a question text and one of its first
    two options. *)
Lemma emitted_has_question_and_an_option content :
  Forall (fun q => question q ≠ "" ∧ (option_1 q ≠ "" ∨ option_2 q ≠ ""))
         (parse_txt_file content).
Proof.
  apply Forall_forall. intros q Hq.
  apply parse_txt_file_blocks in Hq as (block & Hin & Hb).
  apply parse_block_Some in Hb as (Hbuild & Hlen & Ht & Ho).
  split; [intros E; rewrite E in Ht; discriminate|].
  destruct Ho as [Ho|Ho]; [left | right]; intros E; rewrite E in Ho; discriminate.
Qed.

(** C2, at the block ["1. What is the capital?" / "a) Paris" /
    "Correct option:-a"]: the parser emits a record for it although only one
    option is present; the test before [questions.append] asks for
    [option_1] or [option_2], not for both. *)
Theorem C2_one_option_block_is_emitted :
  parse_txt_file one_option_block
  = [mkQuestion "What is the capital?" "a) Paris" "" "" "" "" "1" "" "3" "1"]
  ∧ Exists (fun q => present_options q = 1%nat) (parse_txt_file one_option_block).
Proof.
  assert (E : parse_txt_file one_option_block
              = [mkQuestion "What is the capital?" "a) Paris" "" "" "" "" "1" "" "3" "1"])
    by (vm_compute; reflexivity).
  split; [exact E|]. rewrite E. left. reflexivity.
Qed.

(** C3, as stated, fails at its own example: the first option is stored as
    ["a) 3"], the text of the line with its marker, where stripping the
    marker would give ["3"]. *)
Lemma C3_counterexample :
  Re.re_sub_empty true option_pattern "a) 3" = "3"
  ∧ ¬ ∃ q, q ∈ parse_txt_file arithmetic_block
           ∧ question q = "What is 2+2?" ∧ option_1 q = "3" ∧ option_2 q = "4"
           ∧ answer q = "2" ∧ solution_text q = "Basic arithmetic".
Proof.
  split; [vm_compute; reflexivity|].
  intros (q & Hq & _ & H1 & _).
  assert (E : parse_txt_file arithmetic_block
              = [mkQuestion "What is 2+2?" "a) 3" "b) 4" "" "" "" "2"
                            "Basic arithmetic" "3" "1"])
    by (vm_compute; reflexivity).
  rewrite E in Hq. apply list_elem_of_singleton in Hq. subst q.
  discriminate H1.
Qed.

(** C3, amended: the option lines of a block are the lines with an option
    marker from the first such line up to the first line that starts with
    Correct, Answer: or ex:. The record holds in its slot 1, 2, ... the
    text of the first, second, ... of them, at most five, and its other
    slots are empty; the text of an option line is the whole line, marker
    included, followed by the line-break marker and the next line exactly
    when that line is a continuation, a line that starts with neither an
    option marker nor one of the keywords. The example block gives the
    question "What is 2+2?", the options "a) 3" and "b) 4", the answer 2
    and the explanation "Basic arithmetic"; in the block with the line
    "ek" after "a) one" the first option is "a) one<br>ek". *)
Theorem C3_options_keep_the_marker :
  (∀ content,
     Forall (fun q => ∃ block,
               block ∈ blocks content ∧ parse_block block = Some q
               ∧ options_of q
                 = take 5 (option_texts (block_lines (Str.strip block))
                           ++ replicate 5 ""))
            (parse_txt_file content))
  ∧ parse_txt_file arithmetic_block
    = [mkQuestion "What is 2+2?" "a) 3" "b) 4" "" "" "" "2" "Basic arithmetic" "3" "1"]
  ∧ parse_txt_file continued_option_block
    = [mkQuestion "Pick one" "a) one<br>ek" "b) two" "c) three" "" "" "1" "" "3" "1"].
Proof.
  split; [|split; vm_compute; reflexivity].
  intros content. apply Forall_forall. intros q Hq.
  apply parse_txt_file_blocks in Hq as (block & Hin & Hb).
  exists block. split; [exact Hin|]. split; [exact Hb|].
  apply parse_block_Some in Hb as (-> & _).
  apply build_question_options.
Qed.

(** C6, as stated, fails when a block has two answer lines: after the
    options of this block come "Correct option:-a" and "Answer: b"; the
    first answer line names a, and the record holds 2. *)
Lemma C6_counterexample :
  after_options (block_lines two_answers_block) = ["Correct option:-a"; "Answer: b"]
  ∧ head (omap answer_of_line (after_options (block_lines two_answers_block)))
    = Some "1"
  ∧ parse_txt_file two_answers_block
    = [mkQuestion "Pick one" "a) x" "b) y" "" "" "" "2" "" "3" "1"]
  ∧ ¬ Forall (fun q => Some (answer q)
                       = head (omap answer_of_line
                                    (after_options (block_lines two_answers_block))))
             (parse_txt_file two_answers_block).
Proof.
  assert (E : parse_txt_file two_answers_block
              = [mkQuestion "Pick one" "a) x" "b) y" "" "" "" "2" "" "3" "1"])
    by (vm_compute; reflexivity).
  assert (H : head (omap answer_of_line (after_options (block_lines two_answers_block)))
              = Some "1") by (vm_compute; reflexivity).
  split; [vm_compute; reflexivity|]. split; [exact H|]. split; [exact E|].
  rewrite E, H. intros F. apply Forall_inv in F. discriminate F.
Qed.

(** C6, amended: the answer of a record is the one of the last line, among
    the lines that follow the options, that is an answer line naming a
    letter (unset when there is none), with a, b, c, d, e giving 1, 2, 3, 4,
    5; the block that ends with "Answer: (a)" gets the answer 1. *)
Theorem C6_last_answer_line_decides :
  (∀ content,
     Forall (fun q => ∃ block,
               block ∈ blocks content ∧ parse_block block = Some q
               ∧ answer q
                 = default "" (last (omap answer_of_line
                                          (after_options (block_lines (Str.strip block))))))
            (parse_txt_file content))
  ∧ map answer_of_line
        ["Correct option:-a"; "Correct option:-b"; "Correct option:-c";
         "Correct option:-d"; "Correct option:-e"]
    = [Some "1"; Some "2"; Some "3"; Some "4"; Some "5"]
  ∧ map answer_of_line
        ["Answer: (a)"; "Answer: (b)"; "Answer: (c)"; "Answer: (d)"; "Answer: (e)"]
    = [Some "1"; Some "2"; Some "3"; Some "4"; Some "5"]
  ∧ map answer_of_line ["Answer: a"; "Answer: b"; "Answer: c"; "Answer: d"; "Answer: e"]
    = [Some "1"; Some "2"; Some "3"; Some "4"; Some "5"]
  ∧ parse_txt_file france_block
    = [mkQuestion "Capital of France?" "(a) Paris" "(b) London" "" "" "" "1" "" "3" "1"].
Proof.
  split; [|repeat split; vm_compute; reflexivity].
  intros content. apply Forall_forall. intros q Hq.
  apply parse_txt_file_blocks in Hq as (block & Hin & Hb).
  exists block. split; [exact Hin|]. split; [exact Hb|].
  apply parse_block_Some in Hb as (-> & _).
  apply build_question_answer.
Qed.

(** C7, as stated, fails: this block has two options and its answer line
    names e, so the record holds the answer 5, which is no option of it. *)
Lemma C7_counterexample :
  parse_txt_file fifth_of_two_block
  = [mkQuestion "Pick one" "a) x" "b) y" "" "" "" "5" "" "3" "1"]
  ∧ ¬ Forall (fun q => answer_within (present_options q) q)
             (parse_txt_file fifth_of_two_block).
Proof.
  assert (E : parse_txt_file fifth_of_two_block
              = [mkQuestion "Pick one" "a) x" "b) y" "" "" "" "5" "" "3" "1"])
    by (vm_compute; reflexivity).
  split; [exact E|]. rewrite E. intros F. apply Forall_inv in F.
  destruct F as [F | (n & Hn & Hr)]; [discriminate F|].
  vm_compute in Hn. injection Hn as <-. vm_compute in Hr. lia.
Qed.

(** C7, amended: the answer of every record of the output is unset or an
    index between 1 and 5, the number of option slots; it need not be the
    index of an option that is present. *)
Theorem C7_answer_is_a_slot_index content :
  Forall (answer_within 5) (parse_txt_file content).
Proof.
  apply Forall_forall. intros q Hq.
  apply parse_txt_file_blocks in Hq as (block & Hin & Hb).
  apply parse_block_Some in Hb as (-> & _).
  unfold answer_within. rewrite build_question_answer.
  destruct (last (omap answer_of_line (after_options _))) as [v|] eqn:E;
    [|left; reflexivity].
  right. apply last_Some_elem_of in E.
  apply list_elem_of_omap in E as (l & _ & Hl).
  apply answer_of_line_range in Hl. cbn [default].
  repeat (apply elem_of_cons in Hl as [-> | Hl];
          [eexists; split; [reflexivity | lia]|]).
  inversion Hl.
Qed.

(* ===================================================================== *)
(** * The quiz page: the timer, submission, loading *)
(* ===================================================================== *)

Module PageProps.
Import Page.

Section Session.

Variable QUESTIONS : list Q.
Variable TOTAL_TIME_SECONDS : Z.
Variable currentUser : User.
Variable review_html : Payload -> gmap string string -> string.

Local Abbreviation deliver := (deliver QUESTIONS TOTAL_TIME_SECONDS currentUser review_html).
Local Abbreviation run_events := (run_events QUESTIONS TOTAL_TIME_SECONDS currentUser review_html).

(** A tick that the page receives takes one second off the remaining time. *)
Lemma tick_takes_one_second p :
  enabled Tick p = true →
  seconds (js (deliver p Tick)) = (seconds (js p) - 1)%Z.
Proof.
  intros He. unfold Page.deliver. rewrite He.
  unfold handler, tick, bind, modify, get, ret, on_submitBtn. cbn.
  destruct (seconds (js p) - 1 <=? 0)%Z; cbn; [|reflexivity].
  destruct (listeners (doc p)); reflexivity.
Qed.

(** While more than one second remains, a tick changes nothing else. *)
Lemma tick_running p :
  timerInterval (js p) = true → (1 < seconds (js p))%Z →
  deliver p Tick = with_js (set_seconds (seconds (js p) - 1)%Z) p.
Proof.
  intros Ht Hs. unfold Page.deliver, enabled. rewrite Ht.
  unfold handler, tick, bind, modify, get, ret. cbn.
  destruct (Z.leb_spec (seconds (js p) - 1) 0); [lia | reflexivity].
Qed.

(** The tick that takes the remaining time to 0 or below stops the interval
    and clicks [submitBtn], whose listener opens the confirmation dialog. *)
Lemma tick_timeout p :
  timerInterval (js p) = true → (seconds (js p) ≤ 1)%Z → listeners (doc p) = true →
  deliver p Tick
  = with_doc (set_submitModal true)
      (with_js (set_timerInterval false)
         (with_js (set_seconds (seconds (js p) - 1)%Z) p)).
Proof.
  intros Ht Hs Hl. unfold Page.deliver, enabled. rewrite Ht.
  unfold handler, tick, bind, modify, get, ret, on_submitBtn. cbn.
  destruct (Z.leb_spec (seconds (js p) - 1) 0); [|lia].
  cbn. rewrite Hl. reflexivity.
Qed.

Lemma ticks_running n :
  ∀ p, timerInterval (js p) = true → (Z.of_nat n < seconds (js p))%Z →
       run_events p (repeat Tick n)
       = with_js (set_seconds (seconds (js p) - Z.of_nat n)%Z) p.
Proof.
  induction n as [|n IH]; intros p Ht Hs.
  - cbn. destruct p as [[] ? ? ? ?]. cbn. rewrite Z.sub_0_r. reflexivity.
  - cbn [repeat]. unfold Page.run_events. cbn [fold_left].
    rewrite tick_running by (try assumption; lia).
    unfold Page.run_events in IH. rewrite IH.
    + destruct p as [[] ? ? ? ?]. unfold with_js, set_seconds. cbn.
      replace (seconds0 - 1 - Z.of_nat n)%Z with (seconds0 - Z.pos (Pos.of_succ_nat n))%Z
        by lia.
      reflexivity.
    + exact Ht.
    + cbn. lia.
Qed.

(** Opening the page with nothing stored starts the session: question 0 is
    rendered, the state is saved, the interval runs, the listeners are set. *)
Lemma open_fresh q qs db :
  QUESTIONS = q :: qs →
  open_page QUESTIONS TOTAL_TIME_SECONDS None None db
  = (inl tt,
     mkPage (mkGlobals 0 ∅ ∅ TOTAL_TIME_SECONDS true false)
            (mkDocument true true true false None QuizControls (Some 0%nat) true)
            (Some (Json (mkSnapshot (Some 0%nat) (Some ∅) (Some TOTAL_TIME_SECONDS)
                                    (Some ∅))))
            None db).
Proof.
  intros HQ. unfold open_page, initQuiz, loaded, bind, get, ret, renderQuestion,
    modify. cbn. rewrite HQ. cbn. reflexivity.
Qed.

(** With a budget of [S n] seconds and no stored state, [S n] ticks and
    nothing else leave the quiz unsubmitted: the remaining time is 0, the
    interval is stopped, the confirmation dialog is open, and neither the
    database nor the stored result has changed. *)
Lemma timeout_state n q qs db :
  QUESTIONS = q :: qs → TOTAL_TIME_SECONDS = Z.of_nat (S n) →
  run_events (snd (open_page QUESTIONS TOTAL_TIME_SECONDS None None db))
             (repeat Tick (S n))
  = mkPage (mkGlobals 0 ∅ ∅ 0 false false)
           (mkDocument true true true true None QuizControls (Some 0%nat) true)
           (Some (Json (mkSnapshot (Some 0%nat) (Some ∅) (Some TOTAL_TIME_SECONDS)
                                   (Some ∅))))
           None db.
Proof.
  intros HQ HT. rewrite (open_fresh q qs db HQ). cbn [snd].
  change (repeat Tick (S n)) with (Tick :: repeat Tick n).
  rewrite repeat_cons. unfold Page.run_events. rewrite fold_left_app.
  pose proof (ticks_running n) as Hrun. unfold Page.run_events in Hrun.
  rewrite Hrun; [|reflexivity|cbn [js seconds]; lia].
  cbn [fold_left].
  rewrite tick_timeout; [|reflexivity|cbn [js seconds with_js set_seconds]; lia|reflexivity].
  unfold with_doc, with_js, set_submitModal, set_timerInterval, set_seconds.
  cbn [js doc seconds current answers markedForReview timerInterval isQuiz
       quizCard floatBar quizHeader submitModal results headerControls rendered
       listeners ls_state ls_result attempt_history].
  replace (TOTAL_TIME_SECONDS - Z.of_nat n - 1)%Z with 0%Z by lia.
  reflexivity.
Qed.

(** [displayResults] reads [accuracy], a constant of [submitQuiz] that is
    neither a local of [displayResults] nor a name of the script's scope. *)
Lemma accuracy_is_not_in_scope :
  resolve ["payload"; "reviewHTML"; "headerHTML"; "header"] "accuracy"
  = throw ReferenceError.
Proof. vm_compute. reflexivity. Qed.

Lemma displayResults_throws payload p :
  displayResults review_html payload p
  = (inr ReferenceError,
     with_doc (set_quizHeader false)
       (with_doc (set_floatBar false) (with_doc (set_quizCard false) p))).
Proof.
  unfold displayResults. unfold bind at 1 2 3. cbn [modify].
  unfold bind at 1. rewrite accuracy_is_not_in_scope. reflexivity.
Qed.

(** [submitQuiz] stops the interval, writes its payload, and ends in the
    exception of [displayResults]: nothing is stored under
    [QUIZ_RESULT_KEY]. *)
Lemma submitQuiz_writes_then_throws now p :
  let r := submitQuiz QUESTIONS TOTAL_TIME_SECONDS currentUser review_html now p in
  fst r = inr ReferenceError
  ∧ (∃ payload,
       attempt_history (snd r) = (attempt_history p ++ [payload])%list
       ∧ timeTaken payload = (TOTAL_TIME_SECONDS - seconds (js p))%Z
       ∧ score payload = t_totalMarks (tally QUESTIONS (answers (js p)))
       ∧ correct payload = t_correct (tally QUESTIONS (answers (js p)))
       ∧ wrong payload = t_wrong (tally QUESTIONS (answers (js p)))
       ∧ unattempted payload = unattempted_of QUESTIONS (answers (js p))
       ∧ submittedAt payload = now)
  ∧ js (snd r) = set_timerInterval false (js p)
  ∧ ls_result (snd r) = ls_result p ∧ ls_state (snd r) = ls_state p
  ∧ results (doc (snd r)) = results (doc p)
  ∧ headerControls (doc (snd r)) = headerControls (doc p).
Proof.
  cbn zeta. unfold submitQuiz. unfold bind at 1 2 3. cbn [modify get].
  unfold bind at 1. cbn [modify]. rewrite displayResults_throws.
  cbn [fst snd]. split; [reflexivity|]. split; [|repeat split].
  eexists. split; [reflexivity|]. repeat split.
Qed.

(** A click on [confirmSubmit] writes one payload; the time taken is the
    budget less the remaining time. *)
Lemma confirm_writes_one_payload now p :
  listeners (doc p) = true →
  ∃ payload,
    attempt_history (deliver p (ClickConfirmSubmit now))
    = (attempt_history p ++ [payload])%list
    ∧ timeTaken payload = (TOTAL_TIME_SECONDS - seconds (js p))%Z
    ∧ ls_result (deliver p (ClickConfirmSubmit now)) = ls_result p.
Proof.
  intros Hl. unfold Page.deliver, enabled. rewrite Hl.
  unfold handler, on_confirmSubmit. unfold bind at 1. cbn [modify].
  destruct (submitQuiz_writes_then_throws now (with_doc (set_submitModal false) p))
    as (_ & (payload & Hh & Ht & _) & _ & Hr & _).
  exists payload. split; [exact Hh|]. split; [exact Ht | exact Hr].
Qed.

(** After the time has run out, a click on [confirmSubmit] writes one
    payload, whose time taken is the whole budget. *)
Lemma timeout_then_confirm n q qs db now :
  QUESTIONS = q :: qs → TOTAL_TIME_SECONDS = Z.of_nat (S n) →
  ∃ payload,
    attempt_history
      (run_events (snd (open_page QUESTIONS TOTAL_TIME_SECONDS None None db))
                  (repeat Tick (S n) ++ [ClickConfirmSubmit now]))
    = (db ++ [payload])%list
    ∧ timeTaken payload = TOTAL_TIME_SECONDS.
Proof.
  intros HQ HT. unfold Page.run_events. rewrite fold_left_app.
  pose proof (timeout_state n q qs db HQ HT) as Hs.
  unfold Page.run_events in Hs. rewrite Hs. cbn [fold_left].
  match goal with
  | |- context [deliver ?p (ClickConfirmSubmit now)] =>
      destruct (confirm_writes_one_payload now p eq_refl) as (payload & Hh & Ht & _)
  end.
  exists payload. split; [exact Hh|]. rewrite Ht. cbn [js seconds]. lia.
Qed.

End Session.

End PageProps.

(* ===================================================================== *)
(** * The quiz page: a quiz of two questions *)
(* ===================================================================== *)

Import Page PageProps.

(** Two questions as [generate_html_quiz] writes them, with 3 marks for a
    correct answer and 1 off for a wrong one. *)
Definition question_1 : Q :=
  mkQ "50001" "What is 2+2?" ["a) 3"; "b) 4"; ""; ""; ""] "2" "" (Q2Qc 3) (Q2Qc 1).

Definition question_2 : Q :=
  mkQ "50002" "Capital of France?" ["(a) Paris"; "(b) London"; ""; ""; ""] "1" ""
      (Q2Qc 3) (Q2Qc 1).

Definition candidate : User := mkUser "uid-1" (Some "candidate@example.org") None.

Definition review (pl : Payload) (answers : gmap string string) : string :=
  "<div class=card><h3>Results Summary</h3></div>".

(** C1, at a budget of 60 seconds and 60 ticks with nothing else: the quiz
    is not submitted. The last tick stops the interval and clicks
    [submitBtn], whose listener only opens the confirmation dialog; no
    result is written until [confirmSubmit] is clicked. With that click one
    payload with [timeTaken] = 60 is written. *)
Theorem C1_sixty_ticks_do_not_submit (q : Q) (qs : list Q) (u : User)
        (rv : Payload -> gmap string string -> string) :
  let p := run_events (q :: qs) 60 u rv (snd (open_page (q :: qs) 60 None None []))
                      (repeat Tick 60) in
  (seconds (js p) = 0%Z ∧ timerInterval (js p) = false
   ∧ submitModal (doc p) = true ∧ results (doc p) = None
   ∧ attempt_history p = [] ∧ ls_result p = None)
  ∧ ∀ now, ∃ payload,
      attempt_history (run_events (q :: qs) 60 u rv
                         (snd (open_page (q :: qs) 60 None None []))
                         (repeat Tick 60 ++ [ClickConfirmSubmit now]))
      = [payload]
      ∧ timeTaken payload = 60%Z.
Proof.
  cbn zeta. split.
  - rewrite (timeout_state (q :: qs) 60 u rv 59 q qs [] eq_refl eq_refl).
    repeat split.
  - intros now.
    exact (timeout_then_confirm (q :: qs) 60 u rv 59 q qs [] now eq_refl eq_refl).
Qed.



(** C5, at a stored state that is not JSON: [JSON.parse] throws in
    [initQuiz], which has no handler for it; no question is rendered, no
    interval is started and no listener is attached. *)
Theorem C5_unparsable_snapshot_stops_loading (QUESTIONS : list Q) (total : Z)
        (raw : string) (db : list Payload) :
  open_page QUESTIONS total (Some (NotJSON raw)) None db
  = (inr SyntaxError, loaded total (Some (NotJSON raw)) None db)
  ∧ timerInterval (js (loaded total (Some (NotJSON raw)) None db)) = false
  ∧ listeners (doc (loaded total (Some (NotJSON raw)) None db)) = false
  ∧ rendered (doc (loaded total (Some (NotJSON raw)) None db)) = None.
Proof. repeat split. Qed.


(** A stored state that parses is taken over key by key. *)
Lemma partial_snapshot_is_used :
  js (snd (open_page [question_1; question_2] 60
                     (Some (Json (mkSnapshot None None (Some 5%Z) None))) None []))
  = mkGlobals 0 ∅ ∅ 5 true false.
Proof. reflexivity. Qed.


(** C8, at a session resumed with 0 seconds left: the tick takes the
    remaining time to -1, and nothing is submitted. Such a state is stored
    when, after the time has run out, the dialog is cancelled and a question
    is marked. *)
Theorem C8_tick_at_zero_goes_below_zero :
  let resumed := snd (open_page [question_1; question_2] 60
                        (Some (Json (mkSnapshot (Some 0%nat) (Some ∅) (Some 0%Z) (Some ∅))))
                        None []) in
  let p := deliver [question_1; question_2] 60 candidate review resumed Tick in
  (enabled Tick resumed = true ∧ seconds (js resumed) = 0%Z)
  ∧ (seconds (js p) = (-1)%Z ∧ attempt_history p = [] ∧ ls_result p = None)
  ∧ let p' := run_events [question_1; question_2] 60 candidate review
                (snd (open_page [question_1; question_2] 60 None None []))
                (repeat Tick 60 ++ [ClickCancelSubmit; ClickMarkReview; Reload; Tick]) in
    seconds (js p') = (-1)%Z ∧ attempt_history p' = [] ∧ ls_result p' = None.
Proof. vm_compute. repeat split. Qed.


(** C10, after a submission (one tick, option 2 of the first question,
    Submit, confirm): the payload is written, then [displayResults] stops at
    the name [accuracy], which it cannot see, so no result is stored and no
    Re-Attempt button is shown; a reload resumes the stored state, with the
    answer given before and 59 of the 60 seconds. And when a result is
    stored, a reload (what Re-Attempt does) shows it and starts no session:
    no interval, no listeners, no question rendered. *)
Theorem C10_reload_is_not_a_fresh_attempt :
  let events := [Tick; ClickOption 2; ClickSubmit; ClickConfirmSubmit 1000] in
  let p := run_events [question_1; question_2] 60 candidate review
             (snd (open_page [question_1; question_2] 60 None None [])) events in
  let p' := deliver [question_1; question_2] 60 candidate review p Reload in
  (fst (on_confirmSubmit [question_1; question_2] 60 candidate review 1000
          (run_events [question_1; question_2] 60 candidate review
             (snd (open_page [question_1; question_2] 60 None None []))
             [Tick; ClickOption 2; ClickSubmit]))
   = inr ReferenceError)
  ∧ (length (attempt_history p) = 1%nat ∧ ls_result p = None
     ∧ headerControls (doc p) = QuizControls)
  ∧ (answers (js p') !! "50001" = Some "2" ∧ answers (js p') ≠ ∅
     ∧ seconds (js p') = 59%Z ∧ timerInterval (js p') = true)
  ∧ ∀ (QUESTIONS : list Q) (total : Z) st c html h db,
      let shown := open_page QUESTIONS total st
                     (Some (Json (mkSavedResult true (String c html) h))) db in
      fst shown = inl tt
      ∧ results (doc (snd shown)) = Some (String c html)
      ∧ js (snd shown) = mkGlobals 0 ∅ ∅ total false false
      ∧ listeners (doc (snd shown)) = false
      ∧ rendered (doc (snd shown)) = None
      ∧ ls_result (snd shown) = Some (Json (mkSavedResult true (String c html) h)).
Proof.
  cbn zeta. split; [vm_compute; reflexivity|].
  split; [vm_compute; repeat split|].
  split.
  - split; [vm_compute; reflexivity|]. split; [|vm_compute; split; reflexivity].
    intros E.
    assert (H : answers (js (deliver [question_1; question_2] 60 candidate review
                  (run_events [question_1; question_2] 60 candidate review
                     (snd (open_page [question_1; question_2] 60 None None []))
                     [Tick; ClickOption 2; ClickSubmit; ClickConfirmSubmit 1000])
                  Reload)) !! "50001" = Some "2") by (vm_compute; reflexivity).
    rewrite E in H. discriminate H.
  - intros QUESTIONS total st c html h db.
    unfold open_page, initQuiz, loaded, bind, get, ret, JSON_parse, showSavedResult,
      modify. cbn.
    destruct h; cbn; repeat split.
Qed.

(* ===================================================================== *)
(** * Scoring *)
(* ===================================================================== *)

(** The Scoring Engine in the words of the specification: a record that is
    answered with its correct index adds its correct-score and counts as
    correct; one that is answered otherwise subtracts its negative-score and
    counts as wrong; one that is not answered counts as unanswered. *)
Record SpecTally : Type := mkSpecTally {
  sp_score : Qc;
  sp_correct : nat;
  sp_wrong : nat;
  sp_unanswered : nat
}.

Definition spec_step (answers : gmap string string) (r : SpecTally) (q : Q) : SpecTally :=
  match answers !! id q with
  | Some chosen =>
      if String.eqb chosen (answer q)
      then mkSpecTally (sp_score r + correct_score q) (S (sp_correct r))
                       (sp_wrong r) (sp_unanswered r)
      else mkSpecTally (sp_score r - negative_score q) (sp_correct r)
                       (S (sp_wrong r)) (sp_unanswered r)
  | None => mkSpecTally (sp_score r) (sp_correct r) (sp_wrong r) (S (sp_unanswered r))
  end.

Definition spec_scoring (records : list Q) (answers : gmap string string) : SpecTally :=
  fold_left (spec_step answers) records (mkSpecTally 0 0 0 0).

(** [s] shows [correct / answered * 100] to one decimal: the nearest number
    of tenths, or "0.0" when nothing is answered. *)
Definition rounded_percentage (correct answered : nat) (s : string) : Prop :=
  match answered with
  | O => s = "0.0"
  | _ => ∃ t : N,
      s = pretty (t / 10)%N ++ "." ++ pretty (t mod 10)%N
      ∧ (2 * N.of_nat answered * t ≤ 2000 * N.of_nat correct + N.of_nat answered)%N
      ∧ (2000 * N.of_nat correct ≤ 2 * N.of_nat answered * t + N.of_nat answered)%N
  end.

(** The answer map follows the data model: its keys are identifiers of
    records, and a chosen index is not the empty string. *)
Definition answers_of (records : list Q) (answers : gmap string string) : Prop :=
  (∀ k, is_Some (answers !! k) → k ∈ map id records)
  ∧ (∀ k v, answers !! k = Some v → v ≠ "").

Definition answered_records (answers : gmap string string) (l : list Q) : nat :=
  length (filter (λ q, is_Some (answers !! id q)) l).

Lemma score_step_spec answers t r q :
  (∀ k v, answers !! k = Some v → v ≠ "") →
  t_totalMarks t = sp_score r ∧ t_correct t = sp_correct r ∧ t_wrong t = sp_wrong r →
  t_totalMarks (score_step answers t q) = sp_score (spec_step answers r q)
  ∧ t_correct (score_step answers t q) = sp_correct (spec_step answers r q)
  ∧ t_wrong (score_step answers t q) = sp_wrong (spec_step answers r q).
Proof.
  intros Hv (Hs & Hc & Hw). unfold score_step, spec_step.
  destruct (answers !! id q) as [a|] eqn:E; [|auto].
  assert (Ha : Str.truthy a = true).
  { apply Hv in E. destruct a; [congruence | reflexivity]. }
  rewrite Ha. cbn [andb].
  destruct (String.eqb a (answer q)); cbn; rewrite ?Hs, ?Hc, ?Hw; auto.
Qed.

Lemma tally_spec answers l :
  (∀ k v, answers !! k = Some v → v ≠ "") →
  ∀ t r,
    t_totalMarks t = sp_score r ∧ t_correct t = sp_correct r ∧ t_wrong t = sp_wrong r →
    t_totalMarks (fold_left (score_step answers) l t)
    = sp_score (fold_left (spec_step answers) l r)
    ∧ t_correct (fold_left (score_step answers) l t)
      = sp_correct (fold_left (spec_step answers) l r)
    ∧ t_wrong (fold_left (score_step answers) l t)
      = sp_wrong (fold_left (spec_step answers) l r).
Proof.
  intros Hv. induction l as [|q l IH]; intros t r H; [exact H|].
  cbn [fold_left]. apply IH. apply score_step_spec; assumption.
Qed.

Lemma spec_counts answers l :
  ∀ r,
    (sp_correct (fold_left (spec_step answers) l r)
     + sp_wrong (fold_left (spec_step answers) l r)
     = sp_correct r + sp_wrong r + answered_records answers l)%nat
    ∧ (sp_unanswered (fold_left (spec_step answers) l r) + answered_records answers l
       = sp_unanswered r + length l)%nat.
Proof.
  induction l as [|q l IH]; intros r.
  - cbn. lia.
  - cbn [fold_left]. destruct (IH (spec_step answers r q)) as [H1 H2].
    unfold answered_records in *. rewrite filter_cons.
    revert H1 H2. generalize (fold_left (spec_step answers) l (spec_step answers r q)).
    intros r' H1 H2. unfold spec_step in H1, H2.
    destruct (answers !! id q) as [a|] eqn:E.
    + rewrite decide_True by eauto.
      destruct (String.eqb a (answer q)); cbn in *; lia.
    + rewrite decide_False by (intros [? ?]; congruence). cbn in *. lia.
Qed.

Lemma size_answers records answers :
  NoDup (map id records) →
  (∀ k, is_Some (answers !! k) → k ∈ map id records) →
  size answers = answered_records answers records.
Proof.
  intros Hnd Hk.
  rewrite <- size_dom.
  assert (E : dom answers
              = list_to_set (filter (λ k, is_Some (answers !! k)) (map id records))).
  { apply set_eq. intros k. rewrite elem_of_dom, elem_of_list_to_set, list_elem_of_filter.
    split; [intros H; split; [exact H | apply Hk, H] | intros [H _]; exact H]. }
  rewrite E, size_list_to_set by (apply NoDup_filter, Hnd).
  unfold answered_records. clear.
  induction records as [|q l IH]; [reflexivity|].
  cbn [map]. rewrite !filter_cons.
  destruct (decide (is_Some (answers !! id q))); cbn; rewrite IH; reflexivity.
Qed.

(** Whether the double [(c/a)*100] is not negative and its number of tenths
    is a nearest one to the exact [c / a * 100]. *)
Definition nearest_tenth (c a : nat) : bool :=
  match percentage c a with
  | S754_zero false => (c =? 0)%nat
  | S754_finite false m e =>
      let t := tenths m e in
      ((2 * N.of_nat a * t <=? 2000 * N.of_nat c + N.of_nat a)
       && (2000 * N.of_nat c <=? 2 * N.of_nat a * t + N.of_nat a))%N
  | _ => false
  end.

Definition nearest_tenths_up_to (bound : nat) : bool :=
  forallb (λ a, forallb (λ c, nearest_tenth c a) (seq 0 (S a))) (seq 1 bound).

Lemma nearest_tenth_rounded c a :
  nearest_tenth c (S a) = true → rounded_percentage c (S a) (accuracy_of c (S a)).
Proof.
  unfold nearest_tenth, rounded_percentage, accuracy_of.
  destruct (percentage c (S a)) as [[|]|[|]| |[|] m e]; try discriminate; intros H.
  - apply Nat.eqb_eq in H. subst c. exists 0%N. split; [vm_compute; reflexivity | lia].
  - apply andb_true_iff in H as [H1 H2]. apply N.leb_le in H1, H2.
    exists (tenths m e). split; [reflexivity | split; assumption].
Qed.

Lemma nearest_tenths_up_to_spec bound :
  nearest_tenths_up_to bound = true →
  ∀ c a, (c ≤ a)%nat → (1 ≤ a ≤ bound)%nat → nearest_tenth c a = true.
Proof.
  unfold nearest_tenths_up_to. intros H c a Hc Ha.
  rewrite forallb_forall in H. specialize (H a).
  rewrite forallb_forall in H. apply H; apply in_seq; lia.
Qed.

Lemma nearest_tenths_up_to_200 : nearest_tenths_up_to 200 = true.
Proof. vm_compute. reflexivity. Qed.

Lemma accuracy_of_rounded c a :
  (c ≤ a)%nat → (a ≤ 200)%nat → rounded_percentage c a (accuracy_of c a).
Proof.
  intros Hc Ha. destruct a as [|a]; [reflexivity|].
  apply nearest_tenth_rounded.
  apply (nearest_tenths_up_to_spec 200 nearest_tenths_up_to_200); lia.
Qed.

(** Two answers: the first question answered with its correct index, the
    second with a wrong one. *)
Definition one_right_one_wrong : gmap string string :=
  {[ "50001" := "2"; "50002" := "2" ]}.

(** A saved answer map with an entry for a question that the page does not
    have. *)
Definition stale_answers : gmap string string :=
  {[ "50001" := "2"; "50002" := "1" ]}.

(** C4, amended: the scoring lines of [submitQuiz] against the rules. On
    an answer map without empty entries the score and the numbers of
    correct and of wrong answers are those of the rules. On records with
    distinct identifiers and an answer map over them, [unattempted] is the
    number of unanswered records, [attempted] the number of answered ones,
    and [accuracy], a local value that the payload does not take, is "0.0"
    when nothing is answered and otherwise, for up to 200 answered records,
    the percentage of correct answers among them at a nearest tenth; the
    quotient and the product are roundings of doubles, and of two tenths
    that are as near the lower one can result: 23 of 80 give "28.7". With 3
    marks, 1 off, one correct and one wrong answer over two questions: score
    2, 1 correct, 1 wrong, 0 unanswered, accuracy "50.0", the first four
    also in the payload that a submission writes. *)
Theorem C4_scoring_follows_the_rules :
  (∀ (records : list Q) (answers : gmap string string),
     (∀ k v, answers !! k = Some v → v ≠ "") →
     let sc := scoring records answers in
     let r := spec_scoring records answers in
     t_totalMarks (sc_tally sc) = sp_score r
     ∧ t_correct (sc_tally sc) = sp_correct r
     ∧ t_wrong (sc_tally sc) = sp_wrong r)
  ∧ (∀ (records : list Q) (answers : gmap string string),
     NoDup (map id records) → answers_of records answers →
     let sc := scoring records answers in
     let r := spec_scoring records answers in
     sc_unattempted sc = Z.of_nat (sp_unanswered r)
     ∧ sc_attempted sc = (sp_correct r + sp_wrong r)%nat
     ∧ ((sp_correct r + sp_wrong r ≤ 200)%nat →
        rounded_percentage (sp_correct r) (sp_correct r + sp_wrong r) (sc_accuracy sc)))
  ∧ accuracy_of 23 80 = "28.7"
  ∧ (let sc := scoring [question_1; question_2] one_right_one_wrong in
     t_totalMarks (sc_tally sc) = Q2Qc 2
     ∧ t_correct (sc_tally sc) = 1%nat ∧ t_wrong (sc_tally sc) = 1%nat
     ∧ sc_unattempted sc = 0%Z
     ∧ sc_accuracy sc = "50.0")
  ∧ map (λ pl, (this (score pl), correct pl, wrong pl, unattempted pl))
        (attempt_history
           (run_events [question_1; question_2] 60 candidate review
              (snd (open_page [question_1; question_2] 60 None None []))
              [ClickOption 2; ClickNext; ClickOption 2; ClickSubmit;
               ClickConfirmSubmit 1000]))
    = [(2%Q, 1%nat, 1%nat, 0%Z)].
Proof.
  split; [|split; [|split; [|split]]].
  - intros records answers Hv. cbn zeta. unfold scoring. cbn [sc_tally].
    apply (tally_spec answers records Hv (mkTally 0 0 0 0) (mkSpecTally 0 0 0 0)).
    repeat split.
  - intros records answers Hnd [Hk Hv]. cbn zeta. unfold scoring.
    cbn [sc_tally sc_attempted sc_unattempted sc_accuracy].
    destruct (tally_spec answers records Hv (mkTally 0 0 0 0) (mkSpecTally 0 0 0 0))
      as (Hs & Hc & Hw); [repeat split|].
    destruct (spec_counts answers records (mkSpecTally 0 0 0 0)) as [Ha Hu].
    pose proof (size_answers records answers Hnd Hk) as Hsize.
    fold (tally records answers) in Hs, Hc, Hw.
    fold (spec_scoring records answers) in Hs, Hc, Hw, Ha, Hu.
    cbn [sp_correct sp_wrong sp_unanswered] in Ha, Hu.
    assert (Hatt : attempted answers
                   = (sp_correct (spec_scoring records answers)
                      + sp_wrong (spec_scoring records answers))%nat).
    { unfold attempted. rewrite Hsize, Ha. lia. }
    split; [unfold unattempted_of; rewrite Hatt, Ha; lia|].
    split; [exact Hatt|]. rewrite Hc, Hatt.
    intros Hb. apply accuracy_of_rounded; [lia | exact Hb].
  - vm_compute. reflexivity.
  - cbn zeta. split; [apply Qc_is_canon; vm_compute; reflexivity|].
    vm_compute. repeat split.
  - vm_compute. reflexivity.
Qed.

(** C4 at the two-question quiz with one right and one wrong answer: no
    entry is empty, the identifiers are distinct, the answers are over them
    and two records are answered. *)
Lemma C4_scoring_witness :
  (∀ k v, one_right_one_wrong !! k = Some v → v ≠ "")
  ∧ NoDup (map id [question_1; question_2])
  ∧ answers_of [question_1; question_2] one_right_one_wrong
  ∧ t_correct (sc_tally (scoring [question_1; question_2] one_right_one_wrong))
    = sp_correct (spec_scoring [question_1; question_2] one_right_one_wrong)
  ∧ sc_unattempted (scoring [question_1; question_2] one_right_one_wrong)
    = Z.of_nat (sp_unanswered (spec_scoring [question_1; question_2] one_right_one_wrong))
  ∧ rounded_percentage 1 2
      (sc_accuracy (scoring [question_1; question_2] one_right_one_wrong)).
Proof.
  assert (Hnd : NoDup (map id [question_1; question_2])).
  { apply (bool_decide_unpack _). vm_compute. exact I. }
  assert (Ha : answers_of [question_1; question_2] one_right_one_wrong).
  { unfold one_right_one_wrong. split.
    - intros k [v Hk]. cbn.
      apply lookup_insert_Some in Hk as [[<- _]|[_ Hk]]; [set_solver|].
      apply lookup_singleton_Some in Hk as [<- _]. set_solver.
    - intros k v Hk.
      apply lookup_insert_Some in Hk as [[_ <-]|[_ Hk]]; [discriminate|].
      apply lookup_singleton_Some in Hk as [_ <-]. discriminate. }
  split; [exact (proj2 Ha)|]. split; [exact Hnd|]. split; [exact Ha|].
  destruct (proj1 C4_scoring_follows_the_rules [question_1; question_2]
              one_right_one_wrong (proj2 Ha)) as (_ & Hc & _).
  destruct (proj1 (proj2 C4_scoring_follows_the_rules) [question_1; question_2]
              one_right_one_wrong Hnd Ha) as (Hu & _ & Hr).
  split; [exact Hc|]. split; [exact Hu|].
  apply Hr. vm_compute. lia.
Defined.

(** C4, as stated, fails on an answer map with an entry that belongs to no
    record: the page has one question and the saved answer map also has an
    entry of another one. The rules count one correct answer, none wrong,
    no record unanswered, and an accuracy of 100.0; the code counts two
    attempted and so has -1 unattempted and an accuracy of "50.0". A page
    that is opened on such a saved state and then submitted writes -1
    unattempted to the database. *)
Lemma C4_counterexample :
  let sc := scoring [question_1] stale_answers in
  let r := spec_scoring [question_1] stale_answers in
  (sp_correct r = 1%nat ∧ sp_wrong r = 0%nat ∧ sp_unanswered r = 0%nat)
  ∧ sc_attempted sc = 2%nat
  ∧ sc_unattempted sc = (-1)%Z
  ∧ sc_unattempted sc ≠ Z.of_nat (sp_unanswered r)
  ∧ sc_accuracy sc = "50.0"
  ∧ ¬ rounded_percentage (sp_correct r) (sp_correct r + sp_wrong r) (sc_accuracy sc)
  ∧ map (λ pl, (this (score pl), correct pl, wrong pl, unattempted pl))
        (attempt_history
           (run_events [question_1] 60 candidate review
              (snd (open_page [question_1] 60
                      (Some (Json (mkSnapshot (Some 0%nat) (Some stale_answers)
                                              (Some 30%Z) (Some ∅))))
                      None []))
              [ClickSubmit; ClickConfirmSubmit 1000]))
    = [(3%Q, 1%nat, 0%nat, (-1)%Z)].
Proof.
  intros sc r.
  assert (Hc : sp_correct r = 1%nat) by (vm_compute; reflexivity).
  assert (Hw : sp_wrong r = 0%nat) by (vm_compute; reflexivity).
  assert (Hu : sp_unanswered r = 0%nat) by (vm_compute; reflexivity).
  assert (Hat : sc_attempted sc = 2%nat) by (vm_compute; reflexivity).
  assert (Hun : sc_unattempted sc = (-1)%Z) by (vm_compute; reflexivity).
  assert (Hacc : sc_accuracy sc = "50.0") by (vm_compute; reflexivity).
  rewrite Hc, Hw, Hu, Hat, Hun, Hacc.
  split; [repeat split|]. split; [reflexivity|]. split; [reflexivity|].
  split; [discriminate|]. split; [reflexivity|].
  split; [|vm_compute; reflexivity].
  cbn [rounded_percentage Nat.add]. intros (t & Hs & H1 & H2).
  assert (t = 1000%N) by lia. subst t. vm_compute in Hs. discriminate Hs.
Qed.

(* ===================================================================== *)
(** * The leaderboard *)
(* ===================================================================== *)

Module BoardProps.
Import Board.

(** [a] may stand before [b]: a higher score, or the same score and no
    more time. *)
Definition ranks_before (a b : Attempt) : Prop :=
  (score b < score a)%Qc ∨ (score a = score b ∧ (timeTaken a ≤ timeTaken b)%Z).

(** [a] must stand after [b]. *)
Definition ranks_after (a b : Attempt) : Prop :=
  (score a < score b)%Qc ∨ (score a = score b ∧ (timeTaken b < timeTaken a)%Z).

Lemma compare_inject_Z z : (Q2Qc (inject_Z z) ?= 0)%Qc = (z ?= 0)%Z.
Proof.
  unfold Qccompare. change (this (Q2Qc (inject_Z z))) with (Qred (inject_Z z)).
  change (this 0%Qc) with (Qred 0). rewrite <- Qred_compare.
  unfold Qcompare, inject_Z. cbn. rewrite Z.mul_1_r. reflexivity.
Qed.

Lemma comparefn_spec a b :
  match (comparefn a b ?= 0)%Qc with
  | Gt => ranks_after a b
  | _ => ranks_before a b
  end.
Proof.
  unfold comparefn, ranks_after, ranks_before.
  destruct (Qc_dec (score a) (score b)) as [[Hlt|Hgt]|Heq].
  - assert (Hd : (0 < score b - score a)%Qc)
      by exact (proj1 (Qclt_minus_iff (score a) (score b)) Hlt).
    destruct (Qc_eq_dec (score b - score a)%Qc 0%Qc) as [E|_].
    { rewrite E in Hd. exfalso. exact (Qclt_not_eq _ _ Hd eq_refl). }
    apply Qcgt_alt in Hd. rewrite Hd. left. exact Hlt.
  - assert (Hn : ¬ (0 <= score b - score a)%Qc).
    { intros H. apply (proj2 (Qcle_minus_iff (score a) (score b))) in H.
      exact (Qclt_not_le _ _ Hgt H). }
    destruct (Qc_eq_dec (score b - score a)%Qc 0%Qc) as [E|_].
    { exfalso. apply Hn. rewrite E. apply Qcle_refl. }
    destruct (score b - score a ?= 0)%Qc eqn:C.
    + left. exact Hgt.
    + left. exact Hgt.
    + exfalso. apply Hn. apply Qclt_le_weak. apply Qcgt_alt. exact C.
  - destruct (Qc_eq_dec (score b - score a)%Qc 0%Qc) as [_|N].
    2:{ exfalso. apply N. rewrite Heq. apply Qcplus_opp_r. }
    rewrite compare_inject_Z.
    destruct (Z.compare_spec (timeTaken a - timeTaken b) 0); right; split;
      try exact Heq; lia.
Qed.

Lemma ranks_after_before a b : ranks_after a b → ranks_before b a.
Proof.
  intros [H|[H1 H2]]; [left; exact H | right; split; [symmetry; exact H1 | lia]].
Qed.

Lemma ranks_before_trans a b c :
  ranks_before a b → ranks_before b c → ranks_before a c.
Proof.
  intros [H1|[E1 T1]] [H2|[E2 T2]].
  - left. exact (Qclt_trans _ _ _ H2 H1).
  - left. rewrite <- E2. exact H1.
  - left. rewrite E1. exact H2.
  - right. split; [congruence | lia].
Qed.

Lemma insert_perm a l : Permutation (insert a l) (a :: l).
Proof.
  induction l as [|b l IH]; [reflexivity|].
  cbn [insert]. destruct (comparefn a b ?= 0)%Qc; try reflexivity.
  rewrite IH. apply perm_swap.
Qed.

Lemma sort_perm l : Permutation (sort l) l.
Proof.
  induction l as [|a l IH]; [reflexivity|].
  cbn [sort]. rewrite insert_perm, IH. reflexivity.
Qed.

Lemma insert_sorted a l :
  StronglySorted ranks_before l → StronglySorted ranks_before (insert a l).
Proof.
  induction l as [|b l IH]; intros Hs.
  - cbn. repeat constructor.
  - apply StronglySorted_inv in Hs as [Hs Hb].
    cbn [insert]. pose proof (comparefn_spec a b) as Hc.
    destruct (comparefn a b ?= 0)%Qc.
    1,2: (constructor; [constructor; assumption|];
          constructor; [exact Hc|];
          eapply Forall_impl; [exact Hb|];
          intros c Hbc; exact (ranks_before_trans _ _ _ Hc Hbc)).
    constructor; [apply IH, Hs|].
    apply (Permutation_Forall (Permutation_sym (insert_perm a l))).
    constructor; [apply ranks_after_before, Hc | exact Hb].
Qed.

Lemma sort_sorted l : StronglySorted ranks_before (sort l).
Proof.
  induction l as [|a l IH]; [constructor|].
  cbn [sort]. apply insert_sorted, IH.
Qed.

Lemma entries_rows l :
  ∀ idx,
    Forall2 (λ a e, name e = name_of a ∧ e_score e = score a ∧ e_time e = timeTaken a)
            l (entries idx l)
    ∧ map rank (entries idx l) = seq (idx + 1) (length l).
Proof.
  induction l as [|a l IH]; intros idx; [split; constructor|].
  destruct (IH (S idx)) as [H1 H2]. cbn [entries map seq length]. split.
  - constructor; [repeat split | exact H1].
  - cbn [rank]. rewrite H2. reflexivity.
Qed.

End BoardProps.

Import Board BoardProps.

Definition attempt (n e : option string) (s t : Z) : Attempt :=
  mkAttempt n e (Q2Qc (inject_Z s)) t.

(** C9: the leaderboard shows, in order and numbered from 1, the first ten
    of the attempts of all users put in one list and ordered by score,
    highest first, then by time taken, shortest first; the name shown is the
    display name, else the email, else "Anonymous". Of two attempts with
    score 10 the one of 90 seconds stands before the one of 120 seconds; an
    attempt with score 12 and 300 seconds stands before one with score 10
    and 1 second. *)
Theorem C9_leaderboard_order :
  (∀ users : list (list Attempt),
     ∃ top rest rows,
       showLeaderboard (Some users) = Rows rows
       ∧ Permutation (top ++ rest) (concat users)
       ∧ StronglySorted ranks_before (top ++ rest)
       ∧ length top = Nat.min 10 (length (concat users))
       ∧ Forall2 (λ a e, name e = name_of a ∧ e_score e = score a
                         ∧ e_time e = timeTaken a) top rows
       ∧ map rank rows = seq 1 (length top))
  ∧ (∀ a, name_of a
          = match displayName a with
            | Some (String c s) => String c s
            | _ => match email a with
                   | Some (String c s) => String c s
                   | _ => "Anonymous"
                   end
            end)
  ∧ (∀ na ea nb eb,
       showLeaderboard (Some [[attempt na ea 10 120]; [attempt nb eb 10 90]])
       = Rows (entries 0 [attempt nb eb 10 90; attempt na ea 10 120])
       ∧ showLeaderboard (Some [[attempt nb eb 10 90]; [attempt na ea 10 120]])
         = Rows (entries 0 [attempt nb eb 10 90; attempt na ea 10 120])
       ∧ showLeaderboard (Some [[attempt na ea 10 1]; [attempt nb eb 12 300]])
         = Rows (entries 0 [attempt nb eb 12 300; attempt na ea 10 1])
       ∧ showLeaderboard (Some [[attempt nb eb 12 300; attempt na ea 10 1]])
         = Rows (entries 0 [attempt nb eb 12 300; attempt na ea 10 1])).
Proof.
  split; [|split].
  - intros users.
    exists (firstn 10 (sort (concat users))), (skipn 10 (sort (concat users))),
           (entries 0 (firstn 10 (sort (concat users)))).
    rewrite firstn_skipn.
    destruct (entries_rows (firstn 10 (sort (concat users))) 0) as [Hr Hk].
    repeat split.
    + apply sort_perm.
    + apply sort_sorted.
    + rewrite length_firstn, (Permutation_length (sort_perm (concat users))).
      reflexivity.
    + exact Hr.
    + exact Hk.
  - intros a. unfold name_of, Page.js_or_else, Page.js_or.
    destruct (displayName a) as [[|c s]|]; cbn;
      destruct (email a) as [[|c' s']|]; reflexivity.
  - intros na ea nb eb. repeat split; reflexivity.
Qed.

(* ===================================================================== *)
(** * The quiz page: what every event keeps *)
(* ===================================================================== *)

Module SessionProps.
Import Page PageProps.

Section Events.

Variable QUESTIONS : list Q.
Variable TOTAL_TIME_SECONDS : Z.
Variable currentUser : User.
Variable review_html : Payload -> gmap string string -> string.

Local Abbreviation deliver := (deliver QUESTIONS TOTAL_TIME_SECONDS currentUser review_html).
Local Abbreviation run_events := (run_events QUESTIONS TOTAL_TIME_SECONDS currentUser review_html).
Local Abbreviation handler := (handler QUESTIONS TOTAL_TIME_SECONDS currentUser review_html).
Local Abbreviation initQuiz := (initQuiz QUESTIONS).

Ltac step_handler :=
  unfold Page.handler, tick, on_nextBtn, on_prevBtn, on_clearBtn, on_markReviewBtn,
    on_saveNextBtn, on_submitBtn, on_cancelSubmit, on_modeToggle, selectOption,
    renderQuestion, saveQuizState, bind, modify, get, ret, throw;
  cbn;
  repeat match goal with
         | |- context [match ?x with _ => _ end] => destruct x eqn:?; cbn
         end.

Ltac step_init :=
  unfold Page.initQuiz, JSON_parse, showSavedResult, startTimer, attachListeners,
    renderQuestion, saveQuizState, bind, modify, get, ret, throw;
  cbn;
  repeat match goal with
         | |- context [match ?x with _ => _ end] => destruct x eqn:?; cbn
         end.

(** The answers are given to questions of the quiz, and none is empty. *)
Definition keys_ok (a : gmap string string) : Prop :=
  ∀ k v, a !! k = Some v → k ∈ map id QUESTIONS ∧ v ≠ "".

(** What [initQuiz] would take from the stored state is within bounds. *)
Definition snapshot_ok (it : option (Item Snapshot)) : Prop :=
  match it with
  | Some (Json s) =>
      (default 0%nat (s_current s) < length QUESTIONS)%nat
      ∧ keys_ok (default ∅ (s_answers s))
      ∧ (default TOTAL_TIME_SECONDS (s_seconds s) ≤ TOTAL_TIME_SECONDS)%Z
  | _ => True
  end.

Definition payload_ok (pl : Payload) : Prop :=
  (0 ≤ timeTaken pl)%Z ∧ (0 ≤ unattempted pl)%Z
  ∧ (Z.of_nat (correct pl) + Z.of_nat (wrong pl) + unattempted pl
     = Z.of_nat (length QUESTIONS))%Z.

Record session_ok (p : page) : Prop := mkSessionOk {
  ok_current : (current (js p) < length QUESTIONS)%nat;
  ok_answers : keys_ok (answers (js p));
  ok_seconds : (seconds (js p) ≤ TOTAL_TIME_SECONDS)%Z;
  ok_snapshot : snapshot_ok (ls_state p);
  ok_history : Forall payload_ok (attempt_history p)
}.

(** The palette has one button per question. *)
Definition event_ok (e : Event) : Prop :=
  match e with
  | ClickPalette i => (i < length QUESTIONS)%nat
  | _ => True
  end.

Lemma pretty_N_go_not_empty (x : N) :
  ∀ s, s ≠ "" → pretty_N_go x s ≠ "".
Proof.
  induction x as [x IH] using (well_founded_induction N.lt_wf_0). intros s Hs.
  destruct (decide (x = 0%N)) as [->|Hx]; [rewrite pretty_N_go_0; exact Hs|].
  rewrite pretty_N_go_step by lia.
  apply IH; [apply N.div_lt; lia | discriminate].
Qed.

Lemma pretty_nat_not_empty (n : nat) : pretty n ≠ "".
Proof.
  unfold pretty, pretty_nat, pretty, pretty_N.
  destruct (decide (N.of_nat n = 0%N)); [discriminate|].
  rewrite pretty_N_go_step by lia. apply pretty_N_go_not_empty. discriminate.
Qed.

Lemma keys_ok_empty : keys_ok ∅.
Proof. intros k v Hk. rewrite lookup_empty in Hk. discriminate. Qed.

Lemma keys_ok_insert a q (val : nat) :
  q ∈ QUESTIONS → keys_ok a → keys_ok (<[id q := pretty val]> a).
Proof.
  intros Hq Ha k v Hk. apply lookup_insert_Some in Hk as [[<- <-]|[_ Hk]].
  - split; [apply list_elem_of_fmap; eauto | apply pretty_nat_not_empty].
  - apply Ha, Hk.
Qed.

Lemma keys_ok_delete a k : keys_ok a → keys_ok (delete k a).
Proof.
  intros Ha k' v Hk. apply lookup_delete_Some in Hk as [_ Hk]. apply Ha, Hk.
Qed.

(** The counts of a payload add up to the number of questions. *)
Lemma scoring_adds_up a :
  NoDup (map id QUESTIONS) → keys_ok a →
  (0 ≤ unattempted_of QUESTIONS a)%Z
  ∧ (Z.of_nat (t_correct (tally QUESTIONS a)) + Z.of_nat (t_wrong (tally QUESTIONS a))
     + unattempted_of QUESTIONS a = Z.of_nat (length QUESTIONS))%Z.
Proof.
  intros Hnd Ha.
  assert (Hk : ∀ k, is_Some (a !! k) → k ∈ map id QUESTIONS).
  { intros k [v Hv]. apply (Ha k v Hv). }
  assert (Hv : ∀ k v, a !! k = Some v → v ≠ "").
  { intros k v Hkv. apply (Ha k v Hkv). }
  destruct (tally_spec a QUESTIONS Hv (mkTally 0 0 0 0) (mkSpecTally 0 0 0 0))
    as (_ & Hc & Hw); [repeat split|].
  destruct (spec_counts a QUESTIONS (mkSpecTally 0 0 0 0)) as [Hcw Hu].
  pose proof (size_answers QUESTIONS a Hnd Hk) as Hsize.
  fold (tally QUESTIONS a) in Hc, Hw. cbn [sp_correct sp_wrong sp_unanswered] in Hcw, Hu.
  unfold unattempted_of, attempted. rewrite Hc, Hw, Hsize. lia.
Qed.

Section Invariant.

Hypothesis distinct_ids : NoDup (map id QUESTIONS).

Lemma saveQuizState_ok p :
  session_ok p → session_ok (snd (saveQuizState p)).
Proof.
  intros [Hc Ha Hs Hsn Hh]. unfold saveQuizState, modify. cbn.
  constructor; cbn; auto.
Qed.

Lemma renderQuestion_ok i p :
  (i < length QUESTIONS)%nat → session_ok p →
  session_ok (snd (renderQuestion QUESTIONS i p)).
Proof.
  intros Hi [Hc Ha Hs Hsn Hh]. unfold renderQuestion, saveQuizState, bind, modify, throw.
  cbn. destruct (QUESTIONS !! i); cbn; constructor; cbn; auto.
Qed.

Lemma handler_ok e p :
  event_ok e → session_ok p → session_ok (snd (handler e p)).
Proof.
  intros He Hp. pose proof Hp as [Hc Ha Hs Hsn Hh].
  destruct e; cbn [Page.handler event_ok] in *.
  - (* Tick *)
    unfold tick, on_submitBtn, bind, modify, get, ret. cbn.
    destruct (seconds (js p) - 1 <=? 0)%Z; cbn;
      [destruct (listeners (doc p)); cbn|]; constructor; cbn; auto; lia.
  - (* next *)
    unfold on_nextBtn, bind, get, ret. cbn -[renderQuestion saveQuizState].
    destruct (Z.ltb_spec (Z.of_nat (current (js p))) (Z.of_nat (length QUESTIONS) - 1));
      [apply renderQuestion_ok; [lia | exact Hp] | exact Hp].
  - (* prev *)
    unfold on_prevBtn, bind, get, ret. cbn -[renderQuestion saveQuizState].
    destruct (current (js p)) as [|c] eqn:Ec;
      [exact Hp | apply renderQuestion_ok; [lia | exact Hp]].
  - (* clear *)
    unfold on_clearBtn, bind, get, modify, throw. cbn -[renderQuestion saveQuizState].
    destruct (QUESTIONS !! current (js p)) as [q|]; [|exact Hp].
    apply renderQuestion_ok; [exact Hc|].
    constructor; cbn; auto using keys_ok_delete.
  - (* mark for review *)
    unfold on_markReviewBtn, bind, modify. cbn -[renderQuestion saveQuizState].
    apply saveQuizState_ok. constructor; cbn; auto.
  - (* save and next *)
    unfold on_saveNextBtn, bind, get, ret. cbn -[renderQuestion saveQuizState].
    pose proof (saveQuizState_ok p Hp) as Hp'.
    destruct (saveQuizState p) as [[[]|err] p'] eqn:E; cbn in *;
      [|unfold saveQuizState, modify in E; discriminate].
    assert (Hcur : current (js p') = current (js p)).
    { unfold saveQuizState, modify in E. injection E as <-. reflexivity. }
    rewrite Hcur.
    destruct (Z.ltb_spec (Z.of_nat (current (js p))) (Z.of_nat (length QUESTIONS) - 1));
      [apply renderQuestion_ok; [lia | exact Hp'] | exact Hp'].
  - (* submit *)
    unfold on_submitBtn, modify. cbn. constructor; cbn; auto.
  - (* cancel *)
    unfold on_cancelSubmit, modify. cbn. constructor; cbn; auto.
  - (* confirm *)
    unfold on_confirmSubmit. unfold bind at 1. cbn [modify].
    destruct (submitQuiz_writes_then_throws QUESTIONS TOTAL_TIME_SECONDS currentUser
                review_html now (with_doc (set_submitModal false) p))
      as (_ & (payload & Hh' & Ht & _ & Hco & Hwr & Hun & _) & Hjs & _ & Hst & _).
    cbn zeta in *.
    set (r := submitQuiz _ _ _ _ _ _) in *. clearbody r.
    constructor; rewrite ?Hjs, ?Hst, ?Hh'; cbn; auto.
    apply Forall_app. split; [exact Hh|]. constructor; [|constructor].
    destruct (scoring_adds_up (answers (js p)) distinct_ids Ha) as [H0 Hsum].
    unfold payload_ok. rewrite Ht, Hco, Hwr, Hun. cbn. repeat split; [lia | exact H0 | exact Hsum].
  - (* mode toggle *)
    unfold on_modeToggle, bind, modify, get. cbn -[renderQuestion saveQuizState].
    apply renderQuestion_ok; [exact Hc|]. constructor; cbn; auto.
  - (* option *)
    unfold bind, get, ret. cbn -[renderQuestion saveQuizState selectOption].
    destruct (rendered (doc p)) as [i|]; [|exact Hp].
    destruct (QUESTIONS !! i) as [q|] eqn:Hq; [|exact Hp].
    destruct (Str.truthy (nth (val - 1) (options q) "")); [|exact Hp].
    unfold selectOption, bind, modify. cbn -[saveQuizState]. apply saveQuizState_ok.
    constructor; cbn; auto.
    apply keys_ok_insert; [|exact Ha]. apply list_elem_of_lookup. eauto.
  - (* palette *)
    apply renderQuestion_ok; assumption.
  - exact Hp.
Qed.

Lemma initQuiz_ok st res db :
  (0 < length QUESTIONS)%nat → snapshot_ok st → Forall payload_ok db →
  session_ok (snd (initQuiz (loaded TOTAL_TIME_SECONDS st res db))).
Proof.
  intros Hn Hst Hdb.
  unfold Page.initQuiz, JSON_parse, showSavedResult, startTimer, attachListeners,
    renderQuestion, saveQuizState, bind, modify, get, ret, throw, loaded.
  cbn.
  assert (He : keys_ok ∅) by apply keys_ok_empty.
  destruct res as [[raw|data]|]; cbn;
    [constructor; cbn; auto; try lia | |];
    try (destruct (submitted data && Str.truthy (resultHTML data)); cbn;
         [destruct (headerHTML data); cbn; constructor; cbn; auto; try lia|]);
    (destruct st as [[raw'|[c a sec m]]|]; cbn in *;
     [constructor; cbn; auto; try lia
     |destruct Hst as (Hc & Ha & Hs); destruct m; cbn;
      destruct (QUESTIONS !! default 0%nat c); cbn; constructor; cbn; auto; try lia
     |destruct (QUESTIONS !! 0%nat); cbn; constructor; cbn; auto; try lia;
      try (split; [exact Hn | split; [exact He | lia]])]).
Qed.

Lemma deliver_ok e p :
  (0 < length QUESTIONS)%nat → event_ok e → session_ok p → session_ok (deliver p e).
Proof.
  intros Hn He Hp. unfold Page.deliver.
  destruct e;
    try (destruct (enabled _ p); [apply handler_ok; assumption | exact Hp]).
  apply initQuiz_ok; [exact Hn | apply Hp | apply Hp].
Qed.

Lemma run_events_ok es :
  (0 < length QUESTIONS)%nat → Forall event_ok es →
  ∀ p, session_ok p → session_ok (run_events p es).
Proof.
  intros Hn Hes. induction Hes as [|e es He _ IH]; intros p Hp; [exact Hp|].
  unfold Page.run_events. cbn [fold_left]. apply IH. apply deliver_ok; assumption.
Qed.

(** X1: in a session opened on stored state within bounds, whatever events
    follow (palette clicks on existing buttons), the current index is that
    of a question, the answers are non-empty and given to questions of the
    quiz, so that no more questions are attempted than there are, and the
    remaining time is at most the budget. *)
Theorem session_stays_in_bounds st res db es :
  (0 < length QUESTIONS)%nat → snapshot_ok st → Forall payload_ok db →
  Forall event_ok es →
  let p := run_events (snd (open_page QUESTIONS TOTAL_TIME_SECONDS st res db)) es in
  (current (js p) < length QUESTIONS)%nat
  ∧ (∀ k v, answers (js p) !! k = Some v → k ∈ map id QUESTIONS ∧ v ≠ "")
  ∧ (attempted (answers (js p)) ≤ length QUESTIONS)%nat
  ∧ (seconds (js p) ≤ TOTAL_TIME_SECONDS)%Z.
Proof.
  intros Hn Hst Hdb Hes. cbn zeta.
  pose proof (run_events_ok es Hn Hes _ (initQuiz_ok st res db Hn Hst Hdb))
    as [Hc Ha Hs _ _].
  unfold open_page. repeat split; try assumption; try apply (Ha k v H).
  unfold attempted. rewrite (size_answers QUESTIONS _ distinct_ids).
  - unfold answered_records. apply length_filter.
  - intros k [v Hk]. apply (Ha k v Hk).
Qed.

(** X2: every payload that such a session writes has a time taken of at
    least 0 and counts that add up: correct + wrong + unattempted is the
    number of questions, with unattempted at least 0. *)
Theorem written_payloads_add_up st res es :
  (0 < length QUESTIONS)%nat → snapshot_ok st → Forall event_ok es →
  Forall (λ pl, (0 ≤ timeTaken pl)%Z ∧ (0 ≤ unattempted pl)%Z
                ∧ (Z.of_nat (correct pl) + Z.of_nat (wrong pl) + unattempted pl
                   = Z.of_nat (length QUESTIONS))%Z)
         (attempt_history
            (run_events (snd (open_page QUESTIONS TOTAL_TIME_SECONDS st res [])) es)).
Proof.
  intros Hn Hst Hes.
  pose proof (run_events_ok es Hn Hes _ (initQuiz_ok st res [] Hn Hst ltac:(constructor)))
    as [_ _ _ _ Hh].
  exact Hh.
Qed.

End Invariant.

(** *** What is never written, and what is only added to *)

Lemma initQuiz_keeps_storage st res db :
  ls_result (snd (initQuiz (loaded TOTAL_TIME_SECONDS st res db))) = res
  ∧ attempt_history (snd (initQuiz (loaded TOTAL_TIME_SECONDS st res db))) = db.
Proof.
  unfold Page.initQuiz, JSON_parse, showSavedResult, startTimer, attachListeners,
    renderQuestion, saveQuizState, bind, modify, get, ret, throw, loaded.
  cbn.
  destruct res as [[raw|data]|]; cbn; [split; reflexivity | |];
    try (destruct (submitted data && Str.truthy (resultHTML data)); cbn;
         [destruct (headerHTML data); cbn; split; reflexivity|]);
    (destruct st as [[raw'|[c a sec m]]|]; cbn;
     [split; reflexivity
     |destruct m; cbn; destruct (QUESTIONS !! default 0%nat c); cbn; split; reflexivity
     |destruct (QUESTIONS !! 0%nat); cbn; split; reflexivity]).
Qed.

Lemma handler_keeps_result e p :
  ls_result (snd (handler e p)) = ls_result p.
Proof. destruct e; step_handler; reflexivity. Qed.

Lemma deliver_keeps_result e p : ls_result (deliver p e) = ls_result p.
Proof.
  unfold Page.deliver.
  destruct e; try (destruct (enabled _ p); [apply handler_keeps_result | reflexivity]).
  apply initQuiz_keeps_storage.
Qed.

Definition is_confirm (e : Event) : bool :=
  match e with ClickConfirmSubmit _ => true | _ => false end.

Lemma deliver_history e p :
  ∃ added, attempt_history (deliver p e) = (attempt_history p ++ added)%list
           ∧ (length added ≤ if is_confirm e then 1 else 0)%nat.
Proof.
  unfold Page.deliver.
  destruct e;
    try (exists []; rewrite app_nil_r; split; [|cbn; lia];
         destruct (enabled _ p); [step_handler; reflexivity | reflexivity]).
  - destruct (enabled _ p) eqn:He; [|exists []; rewrite app_nil_r; split; [reflexivity|cbn; lia]].
    destruct (confirm_writes_one_payload QUESTIONS TOTAL_TIME_SECONDS currentUser
                review_html now p He) as (payload & Hh & _).
    exists [payload]. unfold Page.deliver in Hh. rewrite He in Hh.
    split; [exact Hh | cbn; lia].
  - exists []. rewrite app_nil_r. split; [apply initQuiz_keeps_storage | cbn; lia].
Qed.

(** *** The interval and the remaining time *)

Lemma confirm_js now p :
  js (snd (handler (ClickConfirmSubmit now) p)) = set_timerInterval false (js p).
Proof.
  unfold Page.handler, on_confirmSubmit. unfold bind at 1. cbn [modify].
  destruct (submitQuiz_writes_then_throws QUESTIONS TOTAL_TIME_SECONDS currentUser
              review_html now (with_doc (set_submitModal false) p))
    as (_ & _ & Hjs & _).
  exact Hjs.
Qed.

Lemma deliver_timer e p :
  e ≠ Reload →
  (timerInterval (js (deliver p e)) = true → timerInterval (js p) = true)
  ∧ (seconds (js p) - 1 ≤ seconds (js (deliver p e)) ≤ seconds (js p))%Z
  ∧ (timerInterval (js p) = false → seconds (js (deliver p e)) = seconds (js p)).
Proof.
  intros He. unfold Page.deliver.
  destruct e; try congruence;
    try (destruct (enabled _ p) eqn:En; [|repeat split; auto; lia]).
  all: try (step_handler; repeat split; auto; try lia; fail).
  - (* Tick *)
    cbn [enabled] in En. step_handler; repeat split; auto; try lia; congruence.
  - (* confirm *)
    rewrite confirm_js. cbn. repeat split; auto; try lia.
Qed.

Lemma deliver_answers e p :
  answers (js (deliver p e)) = answers (js p)
  ∨ (∃ val, e = ClickOption val) ∨ e = ClickClear ∨ e = Reload.
Proof.
  destruct e; auto; try (right; left; eauto; fail); left; unfold Page.deliver;
    destruct (enabled _ p); try reflexivity; try (step_handler; reflexivity).
Qed.

(** *** Statements over runs of events *)

(** X3: no run of events stores anything under [QUIZ_RESULT_KEY]: the only
    write is in [displayResults], after the read of [accuracy]. *)
Theorem result_is_never_stored p es :
  ls_result (run_events p es) = ls_result p.
Proof.
  revert p. induction es as [|e es IH]; intros p; [reflexivity|].
  unfold Page.run_events in *. cbn [fold_left]. rewrite IH.
  apply deliver_keeps_result.
Qed.

Fixpoint confirm_clicks (es : list Event) : nat :=
  match es with
  | [] => 0
  | e :: es' => (if is_confirm e then 1 else 0) + confirm_clicks es'
  end.

(** X4: the database is only added to: a run of events appends payloads to
    what was there, at most one for each click on [confirmSubmit]. *)
Theorem history_is_append_only p es :
  ∃ added, attempt_history (run_events p es) = (attempt_history p ++ added)%list
           ∧ (length added ≤ confirm_clicks es)%nat.
Proof.
  revert p. induction es as [|e es IH]; intros p.
  - exists []. rewrite app_nil_r. split; [reflexivity | cbn; lia].
  - unfold Page.run_events in *. cbn [fold_left].
    destruct (IH (deliver p e)) as (added2 & H2 & L2).
    destruct (deliver_history e p) as (added1 & H1 & L1).
    exists (added1 ++ added2)%list. rewrite H2, H1, <- app_assoc.
    split; [reflexivity|]. rewrite length_app. cbn [confirm_clicks]. lia.
Qed.

(** X5: without a reload the interval is never started again and the
    remaining time never rises: it falls by at most one per event, and not
    at all once the interval is stopped. *)
Theorem timer_is_never_restarted p es :
  Forall (λ e, e ≠ Reload) es →
  (timerInterval (js p) = false →
   timerInterval (js (run_events p es)) = false
   ∧ seconds (js (run_events p es)) = seconds (js p))
  ∧ (seconds (js p) - Z.of_nat (length es) ≤ seconds (js (run_events p es))
     ≤ seconds (js p))%Z.
Proof.
  intros Hes. revert p. induction Hes as [|e es He _ IH]; intros p.
  - cbn. split; [auto | lia].
  - unfold Page.run_events in *. cbn [fold_left].
    destruct (IH (deliver p e)) as [IH1 IH2].
    destruct (deliver_timer e p He) as (T1 & T2 & T3).
    split.
    + intros Hoff.
      assert (Hoff' : timerInterval (js (deliver p e)) = false).
      { destruct (timerInterval (js (deliver p e))) eqn:E; [|reflexivity].
        rewrite (T1 eq_refl) in Hoff. discriminate. }
      destruct (IH1 Hoff') as [-> ->]. split; [reflexivity | apply T3, Hoff].
    + cbn [length]. lia.
Qed.

(** The events that can change the answers. *)
Definition touches_answers (e : Event) : bool :=
  match e with
  | ClickOption _ | ClickClear | Reload => true
  | _ => false
  end.

(** X6: navigation, marking, the timer and the submission leave the answers
    alone: they change only by a click on an option, by Clear and by a
    reload. *)
Theorem answers_change_only_by_choice p es :
  Forall (λ e, touches_answers e = false) es →
  answers (js (run_events p es)) = answers (js p).
Proof.
  intros Hes. revert p. induction Hes as [|e es He _ IH]; intros p; [reflexivity|].
  unfold Page.run_events in *. cbn [fold_left]. rewrite IH.
  destruct (deliver_answers e p) as [H|[[val ->]|[->| ->]]];
    [exact H | discriminate He ..].
Qed.

(** X7: what [saveQuizState] stores is what a reload resumes: the index, the
    answers, the marks and the remaining time; the mode is not stored and
    starts as Test, and the interval runs again. *)
Theorem saved_state_is_resumed p :
  (current (js p) < length QUESTIONS)%nat → ls_result p = None →
  js (deliver (snd (saveQuizState p)) Reload)
  = mkGlobals (current (js p)) (answers (js p)) (markedForReview (js p))
              (seconds (js p)) true false.
Proof.
  intros Hc Hr. apply lookup_lt_is_Some in Hc as [q Hq].
  unfold Page.deliver, saveQuizState, modify. cbn [snd ls_state ls_result set_ls_state].
  rewrite Hr.
  unfold Page.initQuiz, JSON_parse, startTimer, attachListeners, renderQuestion,
    saveQuizState, bind, modify, get, ret, throw, loaded.
  cbn. rewrite Hq. reflexivity.
Qed.

(** X8: the interval does not save the state: after [n] ticks of a fresh
    session that still has time left, a reload gives the whole budget
    back. *)
Theorem reload_gives_back_the_ticks n q qs db :
  QUESTIONS = q :: qs → (Z.of_nat n < TOTAL_TIME_SECONDS)%Z →
  seconds (js (run_events (snd (open_page QUESTIONS TOTAL_TIME_SECONDS None None db))
                          (repeat Tick n ++ [Reload])))
  = TOTAL_TIME_SECONDS.
Proof.
  intros HQ Hn. rewrite (open_fresh QUESTIONS TOTAL_TIME_SECONDS q qs db HQ). cbn [snd].
  unfold Page.run_events. rewrite fold_left_app.
  pose proof (ticks_running QUESTIONS TOTAL_TIME_SECONDS currentUser review_html n) as Hrun.
  unfold Page.run_events in Hrun. rewrite Hrun; [|reflexivity|exact Hn].
  cbn [fold_left]. unfold Page.deliver.
  unfold Page.initQuiz, JSON_parse, startTimer, attachListeners, renderQuestion,
    saveQuizState, bind, modify, get, ret, throw, loaded.
  cbn. rewrite HQ. reflexivity.
Qed.

(** X9: two clicks on Mark for Review leave the marks as they were; one click
    changes whether the current question is marked. *)
Theorem mark_twice_restores p :
  listeners (doc p) = true →
  markedForReview (js (run_events p [ClickMarkReview; ClickMarkReview]))
  = markedForReview (js p)
  ∧ (current (js p) ∈ markedForReview (js (deliver p ClickMarkReview))
     ↔ current (js p) ∉ markedForReview (js p)).
Proof.
  intros Hl. unfold Page.run_events, Page.deliver, enabled. cbn [fold_left].
  rewrite Hl. unfold Page.handler, on_markReviewBtn, saveQuizState, bind, modify.
  cbn. rewrite Hl. cbn.
  set (c := current (js p)). set (M := markedForReview (js p)).
  assert (Hd : c ∉ M ∖ {[c]}).
  { rewrite elem_of_difference, elem_of_singleton. tauto. }
  assert (Hu : c ∈ M ∪ {[c]}).
  { rewrite elem_of_union, elem_of_singleton. tauto. }
  destruct (decide (c ∈ M)) as [Hin|Hout].
  - rewrite (bool_decide_eq_true_2 _ Hin), (bool_decide_eq_false_2 _ Hd).
    split; [|tauto].
    apply set_eq. intros x.
    rewrite elem_of_union, elem_of_difference, elem_of_singleton.
    destruct (decide (x = c)) as [->|]; tauto.
  - rewrite (bool_decide_eq_false_2 _ Hout), (bool_decide_eq_true_2 _ Hu).
    split; [|tauto].
    apply set_eq. intros x.
    rewrite elem_of_difference, elem_of_union, elem_of_singleton.
    destruct (decide (x = c)) as [->|]; tauto.
Qed.

(** X10: Next moves to the following question and Prev comes back. *)
Theorem next_then_prev p :
  listeners (doc p) = true → (S (current (js p)) < length QUESTIONS)%nat →
  current (js (deliver p ClickNext)) = S (current (js p))
  ∧ current (js (run_events p [ClickNext; ClickPrev])) = current (js p)
  ∧ answers (js (run_events p [ClickNext; ClickPrev])) = answers (js p).
Proof.
  intros Hl Hc.
  destruct (lookup_lt_is_Some_2 QUESTIONS (S (current (js p))) Hc) as [q1 H1].
  destruct (lookup_lt_is_Some_2 QUESTIONS (current (js p)) ltac:(lia)) as [q0 H0].
  assert (E : deliver p ClickNext
              = snd (renderQuestion QUESTIONS (S (current (js p))) p)).
  { unfold Page.deliver, enabled. rewrite Hl. unfold Page.handler, on_nextBtn, bind, get.
    cbn -[renderQuestion].
    destruct (Z.ltb_spec (Z.of_nat (current (js p))) (Z.of_nat (length QUESTIONS) - 1));
      [|lia].
    rewrite Nat.add_1_r. reflexivity. }
  unfold Page.run_events. cbn [fold_left]. rewrite E.
  unfold renderQuestion, saveQuizState, bind, modify, throw. cbn. rewrite H1. cbn.
  split; [reflexivity|].
  unfold Page.deliver, enabled. cbn. rewrite Hl.
  unfold on_prevBtn, renderQuestion, saveQuizState, bind, modify, get, throw. cbn.
  rewrite Nat.sub_0_r, H0. cbn. split; reflexivity.
Qed.

(** X11: a click on a shown option records it for the rendered question and for
    no other; Clear on that question removes it again. *)
Theorem choose_then_clear p q val :
  listeners (doc p) = true → rendered (doc p) = Some (current (js p)) →
  QUESTIONS !! current (js p) = Some q →
  Str.truthy (nth (val - 1) (options q) "") = true →
  answers (js (deliver p (ClickOption val))) !! id q = Some (pretty val)
  ∧ (∀ k, k ≠ id q →
          answers (js (deliver p (ClickOption val))) !! k = answers (js p) !! k)
  ∧ answers (js (run_events p [ClickOption val; ClickClear]))
    = delete (id q) (answers (js p)).
Proof.
  intros Hl Hr Hq Ho.
  assert (E : deliver p (ClickOption val) = snd (selectOption q val p)).
  { unfold Page.deliver, enabled. rewrite Hr. cbn.
    unfold bind, get. cbn. rewrite Hr, Hq, Ho. reflexivity. }
  unfold Page.run_events. cbn [fold_left]. rewrite E.
  unfold selectOption, saveQuizState, bind, modify. cbn.
  split; [apply lookup_insert_eq|]. split; [intros k Hk; apply lookup_insert_ne; auto|].
  unfold Page.deliver, enabled. cbn. rewrite Hl.
  unfold on_clearBtn, renderQuestion, saveQuizState, bind, modify, get, throw. cbn.
  rewrite Hq. cbn. rewrite ?Hq. cbn. apply delete_insert_eq.
Qed.

End Events.
End SessionProps.

Import SessionProps.

Definition two_questions : list Q := [question_1; question_2].

(** A session of the two questions, just opened. *)
Definition fresh_session : page := snd (open_page two_questions 60 None None []).

Definition an_afternoon : list Event :=
  [ClickOption 2; ClickNext; ClickPalette 0; Tick; ClickMarkReview;
   ClickSubmit; ClickConfirmSubmit 7; Reload; ClickOption 1].

Lemma two_questions_distinct : NoDup (map id two_questions).
Proof. apply (bool_decide_unpack _). vm_compute. exact I. Defined.

Lemma an_afternoon_ok : Forall (event_ok two_questions) an_afternoon.
Proof. repeat constructor. Defined.

Lemma timer_is_never_restarted_witness :
  Forall (λ e, e ≠ Reload) [ClickMarkReview; Tick; ClickNext]
  ∧ (seconds (js (run_events two_questions 60 candidate review fresh_session
                             [ClickMarkReview; Tick; ClickNext])) ≤ 60)%Z.
Proof.
  assert (H : Forall (λ e, e ≠ Reload) [ClickMarkReview; Tick; ClickNext])
    by (repeat constructor; discriminate).
  split; [exact H|].
  exact (proj2 (proj2 (timer_is_never_restarted two_questions 60 candidate review
                         fresh_session _ H))).
Defined.

Lemma session_stays_in_bounds_witness :
  (0 < length two_questions)%nat
  ∧ snapshot_ok two_questions 60 None
  ∧ Forall (payload_ok two_questions) []
  ∧ Forall (event_ok two_questions) an_afternoon
  ∧ (current (js (run_events two_questions 60 candidate review fresh_session an_afternoon))
     < length two_questions)%nat.
Proof.
  assert (H1 : (0 < length two_questions)%nat) by (cbn; lia).
  assert (H2 : snapshot_ok two_questions 60 None) by exact I.
  assert (H3 : Forall (payload_ok two_questions) []) by constructor.
  repeat (split; [assumption || exact an_afternoon_ok|]).
  exact (proj1 (session_stays_in_bounds two_questions 60 candidate review
                  two_questions_distinct None None [] an_afternoon
                  H1 H2 H3 an_afternoon_ok)).
Defined.

Lemma written_payloads_add_up_witness :
  (0 < length two_questions)%nat
  ∧ snapshot_ok two_questions 60 None
  ∧ Forall (event_ok two_questions) an_afternoon
  ∧ Forall (λ pl, (0 ≤ Page.timeTaken pl)%Z)
           (attempt_history
              (run_events two_questions 60 candidate review fresh_session an_afternoon))
  ∧ length (attempt_history
              (run_events two_questions 60 candidate review fresh_session an_afternoon))
    = 1%nat.
Proof.
  assert (H1 : (0 < length two_questions)%nat) by (cbn; lia).
  assert (H2 : snapshot_ok two_questions 60 None) by exact I.
  split; [exact H1|]. split; [exact H2|]. split; [exact an_afternoon_ok|].
  split; [|vm_compute; reflexivity].
  eapply Forall_impl;
    [exact (written_payloads_add_up two_questions 60 candidate review
              two_questions_distinct None None an_afternoon H1 H2 an_afternoon_ok)|].
  intros pl H. exact (proj1 H).
Defined.

Lemma answers_change_only_by_choice_witness :
  Forall (λ e, touches_answers e = false)
         [ClickNext; Tick; ClickMarkReview; ClickSubmit; ClickConfirmSubmit 7]
  ∧ answers (js (run_events two_questions 60 candidate review
                   (deliver two_questions 60 candidate review fresh_session (ClickOption 2))
                   [ClickNext; Tick; ClickMarkReview; ClickSubmit; ClickConfirmSubmit 7]))
    = answers (js (deliver two_questions 60 candidate review fresh_session (ClickOption 2))).
Proof.
  assert (H : Forall (λ e, touches_answers e = false)
                     [ClickNext; Tick; ClickMarkReview; ClickSubmit; ClickConfirmSubmit 7])
    by (repeat constructor).
  split; [exact H|].
  exact (answers_change_only_by_choice two_questions 60 candidate review _ _ H).
Defined.

Lemma saved_state_is_resumed_witness :
  (current (js (deliver two_questions 60 candidate review fresh_session (ClickOption 2)))
   < length two_questions)%nat
  ∧ ls_result (deliver two_questions 60 candidate review fresh_session (ClickOption 2))
    = None
  ∧ seconds (js (deliver two_questions 60 candidate review
                   (snd (saveQuizState
                           (deliver two_questions 60 candidate review fresh_session
                                    (ClickOption 2))))
                   Reload))
    = 60%Z.
Proof.
  assert (H1 : (current (js (deliver two_questions 60 candidate review fresh_session
                               (ClickOption 2))) < length two_questions)%nat)
    by (vm_compute; lia).
  assert (H2 : ls_result (deliver two_questions 60 candidate review fresh_session
                            (ClickOption 2)) = None) by reflexivity.
  split; [exact H1|]. split; [exact H2|].
  rewrite (saved_state_is_resumed two_questions 60 candidate review _ H1 H2).
  reflexivity.
Defined.

Lemma reload_gives_back_the_ticks_witness :
  two_questions = question_1 :: [question_2]
  ∧ (Z.of_nat 59 < 60)%Z
  ∧ seconds (js (run_events two_questions 60 candidate review
                   (snd (open_page two_questions 60 None None []))
                   (repeat Tick 59 ++ [Reload])))
    = 60%Z.
Proof.
  assert (H2 : (Z.of_nat 59 < 60)%Z) by (cbn; lia).
  split; [reflexivity|]. split; [exact H2|].
  exact (reload_gives_back_the_ticks two_questions 60 candidate review 59
           question_1 [question_2] [] eq_refl H2).
Defined.

Lemma mark_twice_restores_witness :
  listeners (doc fresh_session) = true
  ∧ markedForReview (js (run_events two_questions 60 candidate review fresh_session
                           [ClickMarkReview; ClickMarkReview]))
    = markedForReview (js fresh_session).
Proof.
  split; [reflexivity|].
  exact (proj1 (mark_twice_restores two_questions 60 candidate review fresh_session
                  eq_refl)).
Defined.

Lemma next_then_prev_witness :
  listeners (doc fresh_session) = true
  ∧ (S (current (js fresh_session)) < length two_questions)%nat
  ∧ current (js (run_events two_questions 60 candidate review fresh_session
                   [ClickNext; ClickPrev]))
    = current (js fresh_session).
Proof.
  assert (H : (S (current (js fresh_session)) < length two_questions)%nat)
    by (cbn; lia).
  split; [reflexivity|]. split; [exact H|].
  exact (proj1 (proj2 (next_then_prev two_questions 60 candidate review fresh_session
                         eq_refl H))).
Defined.

Lemma choose_then_clear_witness :
  listeners (doc fresh_session) = true
  ∧ rendered (doc fresh_session) = Some (current (js fresh_session))
  ∧ two_questions !! current (js fresh_session) = Some question_1
  ∧ Str.truthy (nth (2 - 1) (options question_1) "") = true
  ∧ answers (js (deliver two_questions 60 candidate review fresh_session (ClickOption 2)))
      !! id question_1 = Some (pretty 2%nat).
Proof.
  repeat (split; [reflexivity|]).
  exact (proj1 (choose_then_clear two_questions 60 candidate review fresh_session
                  question_1 2 eq_refl eq_refl eq_refl eq_refl)).
Defined.

(* ===================================================================== *)
(** * The parser: blank texts, the order of the options *)
(* ===================================================================== *)

Module ParserMore.
Import Re Parser ParserProps.

Fixpoint all_space (s : string) : bool :=
  match s with
  | EmptyString => true
  | String c s' => Str.isspace c && all_space s'
  end.

Lemma lstrip_all_space s : all_space s = true → Str.lstrip s = "".
Proof.
  induction s as [|c s IH]; [reflexivity|].
  cbn. intros H. apply andb_true_iff in H as [-> H]. apply IH, H.
Qed.

(** X12: a text of nothing but whitespace, the empty text among them, has no
    question; [handle_document] then asks for another file. *)
Theorem blank_text_has_no_questions content :
  all_space content = true → parse_txt_file content = [].
Proof.
  intros H. unfold parse_txt_file, Str.strip. rewrite (lstrip_all_space _ H).
  vm_compute. reflexivity.
Qed.

(** The first [n] option slots are taken and the others are empty. *)
Definition filled (n : nat) (q : Question) : Prop :=
  (∀ k, (1 ≤ k ≤ n)%nat → get_option k q ≠ "")
  ∧ (∀ k, (n < k)%nat → get_option k q = "").

Lemma option_line_not_empty l : matches true option_pattern l = true → l ≠ "".
Proof. intros H ->. vm_compute in H. discriminate. Qed.

Lemma filled_set n v q :
  (n < 5)%nat → v ≠ "" → filled n q → filled (S n) (set_option (S n) v q).
Proof.
  intros Hn Hv [Hne He]. split; intros k Hk; rewrite get_set_option;
    case_bool_decide as Hd.
  - exact Hv.
  - apply Hne. lia.
  - lia.
  - apply He. lia.
Qed.

Lemma options_loop_filled :
  ∀ k rest count q,
    (length rest ≤ k)%nat → (count ≤ 5)%nat → filled count q →
    ∃ n, (count ≤ n ≤ 5)%nat ∧ filled n (fst (options_loop rest count q)).
Proof.
  induction k as [|k IH]; intros rest count q Hk Hc Hq.
  - destruct rest; [|simpl in Hk; lia]. exists count. split; [lia | exact Hq].
  - destruct rest as [|l rest']; [exists count; split; [lia | exact Hq]|].
    simpl in Hk. cbn [options_loop].
    destruct (Nat.ltb_spec count 5) as [Hlt|Hge]; cbn [andb];
      [|exists count; split; [lia | exact Hq]].
    destruct (matches true option_pattern l) eqn:Hopt; cbn [orb].
    + pose proof (option_line_not_empty l Hopt) as Hl.
      assert (Hl' : ∀ l', l ++ "<br>" ++ l' ≠ "").
      { intros l'. destruct l; [congruence | discriminate]. }
      destruct rest' as [|l' rest''].
      * cbn [options_loop fst]. exists (S count). split; [lia|].
        apply filled_set; assumption.
      * destruct (negb (matches true not_continuation l')).
        -- destruct (IH rest'' (S count) (set_option (S count) (l ++ "<br>" ++ l') q))
             as (n & Hn & Hf); [simpl in Hk; lia | lia | apply filled_set; auto|].
           exists n. split; [lia | exact Hf].
        -- destruct (IH (l' :: rest'') (S count) (set_option (S count) l q))
             as (n & Hn & Hf); [lia | lia | apply filled_set; auto|].
           exists n. split; [lia | exact Hf].
    + destruct (negb (matches true keyword_line l));
        [|exists count; split; [lia | exact Hq]].
      destruct (IH rest' count q) as (n & Hn & Hf); [lia | lia | exact Hq|].
      exists n. split; [lia | exact Hf].
Qed.

Lemma filled_present n q : (n ≤ 5)%nat → filled n q → present_options q = n.
Proof.
  intros Hn [Hne He].
  assert (Ht : ∀ k, (1 ≤ k)%nat → Str.truthy (get_option k q) = (k <=? n)%nat).
  { intros k Hk. destruct (Nat.leb_spec k n) as [Hle|Hgt].
    - specialize (Hne k ltac:(lia)). destruct (get_option k q); [congruence | reflexivity].
    - rewrite (He k Hgt). reflexivity. }
  pose proof (Ht 1%nat ltac:(lia)) as H1. pose proof (Ht 2%nat ltac:(lia)) as H2.
  pose proof (Ht 3%nat ltac:(lia)) as H3. pose proof (Ht 4%nat ltac:(lia)) as H4.
  pose proof (Ht 5%nat ltac:(lia)) as H5.
  cbn [get_option] in H1, H2, H3, H4, H5. unfold present_options.
  rewrite !filter_cons, filter_nil.
  rewrite H1, H2, H3, H4, H5.
  do 6 (try destruct n as [|n]); try lia; reflexivity.
Qed.

(** X13: the options of a record are in the first slots, without a gap: a
    record of the output has its first [n] options, with [n] from 1 to 5,
    and no other. *)
Theorem options_fill_the_first_slots content :
  Forall (λ q, ∃ n, (1 ≤ n ≤ 5)%nat ∧ filled n q ∧ present_options q = n)
         (parse_txt_file content).
Proof.
  apply Forall_forall. intros q Hq.
  apply parse_txt_file_blocks in Hq as (block & Hin & Hb).
  apply parse_block_Some in Hb as (Hbuild & _ & _ & Ho).
  assert (Hf : ∃ n, (n ≤ 5)%nat ∧ filled n q).
  { rewrite Hbuild, build_question_eq.
    set (lines := block_lines (Str.strip block)).
    destruct (options_loop_filled (length (snd (question_stage lines)))
                (snd (question_stage lines)) 0
                (set_question (fst (question_stage lines)) empty_question))
      as (n & Hn & Hf); [lia | lia | |].
    { split; intros k Hk; [lia|]. rewrite get_option_set_question.
      do 6 (try destruct k as [|k]); reflexivity. }
    exists n. split; [lia|].
    destruct Hf as [Hne He]. split; intros k Hk;
      rewrite get_option_set_scores, get_option_set_solution_text,
        get_option_answer_loop; auto. }
  destruct Hf as (n & Hn & Hf). exists n.
  split; [|split; [exact Hf | apply filled_present; assumption]].
  split; [|exact Hn].
  destruct n as [|n]; [|lia]. exfalso.
  destruct Hf as [_ He].
  pose proof (He 1%nat ltac:(lia)) as E1. pose proof (He 2%nat ltac:(lia)) as E2.
  cbn [get_option] in E1, E2. rewrite E1, E2 in Ho. destruct Ho; discriminate.
Qed.

End ParserMore.

(* ===================================================================== *)
(** * The parser on the documented formats *)
(* ===================================================================== *)

Module Formats.
Import Re Parser ParserProps.

Fixpoint no_newline (s : string) : bool :=
  match s with
  | EmptyString => true
  | String c s' => negb (Ascii.eqb c "010") && no_newline s'
  end.

Fixpoint all_digits (s : string) : bool :=
  match s with
  | EmptyString => true
  | String c s' => Str.isdigit c && all_digits s'
  end.

(** A text on one line, not empty, with no whitespace before or after. *)
Definition one_line (s : string) : Prop :=
  s ≠ "" ∧ no_newline s = true ∧ Str.lstrip s = s ∧ Str.rstrip s = s.

(** *** Strings *)

Lemma str_length_app a b :
  String.length (a ++ b) = (String.length a + String.length b)%nat.
Proof.
  induction a as [|c a IH]; [reflexivity|].
  change (String c a ++ b) with (String c (a ++ b)). cbn [String.length].
  rewrite IH. reflexivity.
Qed.

Lemma str_app_assoc a b c : (a ++ b) ++ c = a ++ b ++ c.
Proof.
  induction a as [|x a IH]; [reflexivity|].
  change (String x a ++ b) with (String x (a ++ b)).
  change (String x (a ++ b) ++ c) with (String x ((a ++ b) ++ c)).
  rewrite IH. reflexivity.
Qed.

Lemma no_newline_app a b : no_newline (a ++ b) = no_newline a && no_newline b.
Proof.
  induction a as [|c a IH]; [reflexivity|]. simpl. rewrite IH, andb_assoc. reflexivity.
Qed.

Lemma digit_not_space c : Str.isdigit c = true → Str.isspace c = false.
Proof.
  unfold Str.isdigit, Str.isspace. destruct (N_of_ascii c) as [|n]; [discriminate|].
  intros H. apply andb_true_iff in H as [H1 H2].
  apply N.leb_le in H1, H2.
  repeat match goal with
         | |- context [(?a <=? ?b)%N] => destruct (N.leb_spec a b)
         | |- context [(?a =? ?b)%N] => destruct (N.eqb_spec a b)
         end; try reflexivity; lia.
Qed.

Lemma digit_not_newline c : Str.isdigit c = true → Ascii.eqb c "010" = false.
Proof.
  intros H. destruct (Ascii.eqb_spec c "010") as [->|]; [discriminate H | reflexivity].
Qed.

Lemma all_digits_no_newline s : all_digits s = true → no_newline s = true.
Proof.
  induction s as [|c s IH]; [reflexivity|]. cbn. intros H.
  apply andb_true_iff in H as [Hc Hs]. rewrite (digit_not_newline c Hc), IH; auto.
Qed.

Lemma split_nl_one s : no_newline s = true → Str.split_nl s = [s].
Proof.
  induction s as [|c s IH]; [reflexivity|]. cbn. intros H.
  apply andb_true_iff in H as [Hc Hs]. apply negb_true_iff in Hc.
  rewrite Hc, (IH Hs). reflexivity.
Qed.

Lemma split_nl_app a b :
  no_newline a = true →
  Str.split_nl (a ++ String "010" b) = a :: Str.split_nl b.
Proof.
  induction a as [|c a IH]; [reflexivity|]. simpl. intros H.
  apply andb_true_iff in H as [Hc Hs]. apply negb_true_iff in Hc.
  rewrite Hc, (IH Hs). reflexivity.
Qed.

Lemma rstrip_app a b :
  Str.rstrip b ≠ "" → Str.rstrip (a ++ b) = a ++ Str.rstrip b.
Proof.
  intros Hb. induction a as [|c a IH]; [reflexivity|].
  change (String c a ++ b) with (String c (a ++ b)).
  change (String c a ++ Str.rstrip b) with (String c (a ++ Str.rstrip b)).
  cbn [Str.rstrip]. rewrite IH. destruct (a ++ Str.rstrip b) eqn:E; [|reflexivity].
  destruct a; [change (Str.rstrip b = "") in E; congruence | discriminate].
Qed.

(** *** The matcher on a text that starts as the pattern asks *)

Fixpoint all_in (p : ascii -> bool) (s : string) : bool :=
  match s with
  | EmptyString => true
  | String c s' => p c && all_in p s'
  end.

Lemma star_run {A : Set} (p : ascii -> bool) ds :
  all_in p ds = true →
  ∀ i r (k : nat -> string -> option A) a,
    star p (i + String.length ds) r k = Some a →
    star p i (ds ++ r) k = Some a.
Proof.
  induction ds as [|c ds IH]; intros Hds i r k a Hk.
  - cbn in Hk. rewrite Nat.add_0_r in Hk. exact Hk.
  - cbn in Hds. apply andb_true_iff in Hds as [Hc Hds].
    change (String c ds ++ r) with (String c (ds ++ r)). cbn [star]. rewrite Hc.
    rewrite (IH Hds (S i) r k a); [reflexivity|].
    cbn [String.length] in Hk. rewrite Nat.add_succ_r in Hk. exact Hk.
Qed.


Lemma star_cons {A : Set} (p : ascii -> bool) i c s (k : nat -> string -> option A) :
  star p i (String c s) k
  = if p c then match star p (S i) s k with
               | Some a => Some a
               | None => k i (String c s)
               end
    else k i (String c s).
Proof. reflexivity. Qed.

Lemma star_accept {A : Set} (p : ascii -> bool) s :
  ∀ i (k : nat -> string -> option A),
    (∀ j s', is_Some (k j s')) → is_Some (star p i s k).
Proof.
  induction s as [|c s IH]; intros i k Hk; cbn [star]; [apply Hk|].
  destruct (p c); [|apply Hk].
  destruct (IH (S i) k Hk) as [a ->]. eauto.
Qed.

Lemma member_cs c cs : member false cs c = mem cs c.
Proof. unfold member. cbn. apply orb_false_r. Qed.

Lemma all_digits_in ds : all_digits ds = true → all_in (member false Digit) ds = true.
Proof.
  induction ds as [|c ds IH]; [reflexivity|]. cbn [all_digits all_in].
  intros H. apply andb_true_iff in H as [Hc Hs].
  rewrite member_cs. cbn [mem]. rewrite Hc, (IH Hs). reflexivity.
Qed.

Lemma one_line_head s :
  one_line s → ∃ c s', s = String c s' ∧ Str.isspace c = false.
Proof.
  intros (Hne & _ & Hl & _). destruct s as [|c s']; [congruence|].
  exists c, s'. split; [reflexivity|].
  cbn in Hl. destruct (Str.isspace c); [|reflexivity].
  exfalso. assert (L : (String.length (Str.lstrip s') ≤ String.length s')%nat).
  { clear. induction s' as [|d a IH]; [cbn; lia|]. cbn.
    destruct (Str.isspace d); cbn; lia. }
  rewrite Hl in L. cbn in L. lia.
Qed.

Lemma matches_true ic r s : is_Some (re_match ic r s) → matches ic r s = true.
Proof. intros H. unfold matches. apply bool_decide_eq_true. exact H. Qed.

(** The number, the dot and the blank before the question text. *)
Lemma number_prefix_end {A : Set} d ds qt (F : groups -> nat -> string -> A) :
  Str.isdigit d = true → all_digits ds = true → one_line qt →
  run false number_prefix [] 0 (String d ds ++ ". " ++ qt) (λ g j s, Some (F g j s))
  = Some (F [] (String.length ds + 3)%nat qt).
Proof.
  intros Hd Hds Hqt. destruct (one_line_head qt Hqt) as (c & qt' & -> & Hc).
  unfold number_prefix.
  change (String d ds ++ ". " ++ String c qt') with (String d (ds ++ ". " ++ String c qt')).
  cbn [run lit Nat.eqb]. rewrite member_cs. cbn [mem]. rewrite Hd.
  erewrite (star_run (member false Digit) ds (all_digits_in ds Hds) 1); [reflexivity|].
  change (". " ++ String c qt') with (String "." (String " " (String c qt'))).
  rewrite star_cons. change (member false Digit ".") with false. cbv iota beta.
  change (member false (One ".") ".") with true. cbv iota.
  rewrite star_cons. change (member false Space " ") with true. cbv iota.
  rewrite star_cons, member_cs. cbn [mem]. rewrite Hc.
  do 2 f_equal. lia.
Qed.

Lemma number_prefix_matches d ds qt :
  Str.isdigit d = true → all_digits ds = true → one_line qt →
  matches false number_prefix (String d ds ++ ". " ++ qt) = true.
Proof.
  intros Hd Hds Hqt. apply matches_true. unfold re_match.
  rewrite (number_prefix_end d ds qt (λ g j _, (j, g)) Hd Hds Hqt). eauto.
Qed.

(** Past its start, a pattern that begins with [^] matches nowhere. *)
Lemma split_go_anchored ic r s :
  ∀ i, split_go ic (Cat Bol r) (S i) s 0 = [s].
Proof.
  induction s as [|c s IH]; intros i; [reflexivity|].
  cbn [split_go attempt run Nat.eqb]. rewrite IH. reflexivity.
Qed.

Lemma split_go_skip ic r pre s :
  ∀ i, split_go ic r i (pre ++ s) (String.length pre)
       = split_go ic r (i + String.length pre) s 0.
Proof.
  induction pre as [|c pre IH]; intros i.
  - cbn [String.length]. rewrite Nat.add_0_r. reflexivity.
  - change (String c pre ++ s) with (String c (pre ++ s)).
    cbn [split_go String.length]. rewrite IH, Nat.add_succ_r. reflexivity.
Qed.

Lemma number_prefix_attempt d ds qt :
  Str.isdigit d = true → all_digits ds = true → one_line qt →
  attempt false number_prefix false 0 (String d ds ++ ". " ++ qt)
  = Some (String.length ds + 3)%nat.
Proof.
  intros Hd Hds Hqt. unfold attempt. cbn [andb].
  exact (number_prefix_end d ds qt (λ _ j _, j) Hd Hds Hqt).
Qed.

Lemma number_prefix_removed d ds qt :
  Str.isdigit d = true → all_digits ds = true → one_line qt →
  re_sub_empty false number_prefix (String d ds ++ ". " ++ qt) = qt.
Proof.
  intros Hd Hds Hqt. unfold re_sub_empty, re_split.
  pose proof (number_prefix_attempt d ds qt Hd Hds Hqt) as Ha.
  change (String d ds ++ ". " ++ qt) with (String d (ds ++ ". " ++ qt)) in *.
  cbn [split_go]. rewrite Ha.
  replace (String.length ds + 3 =? 0)%nat with false
    by (symmetry; apply Nat.eqb_neq; lia).
  replace (String.length ds + 3 - 0 - 1)%nat with (String.length (ds ++ ". "))
    by (rewrite str_length_app; cbn; lia).
  rewrite <- (str_app_assoc ds ". " qt), split_go_skip.
  unfold number_prefix. rewrite Nat.add_comm.
  rewrite str_length_app, Nat.add_comm. cbn [String.length Nat.add].
  rewrite split_go_anchored. reflexivity.
Qed.

(** *** The lines of a block *)

Lemma one_line_app a b :
  a ≠ "" → Str.lstrip a = a → no_newline a = true → one_line b →
  one_line (a ++ b).
Proof.
  intros Ha Hl Hn (Hb & Hbn & Hbl & Hbr). repeat split.
  - destruct a; [congruence | discriminate].
  - rewrite no_newline_app, Hn, Hbn. reflexivity.
  - destruct a as [|c a]; [congruence|]. simpl in *.
    destruct (Str.isspace c); [|reflexivity].
    exfalso. assert (L : (String.length (Str.lstrip a) ≤ String.length a)%nat).
    { clear. induction a as [|d a IH]; [cbn; lia|]. cbn.
      destruct (Str.isspace d); cbn; lia. }
    rewrite Hl in L. cbn in L. lia.
  - rewrite rstrip_app by congruence. rewrite Hbr. reflexivity.
Qed.

Lemma rstrip_text ls :
  ls ≠ [] → Forall one_line ls → Str.rstrip (text ls) = text ls ∧ text ls ≠ "".
Proof.
  induction ls as [|l ls IH]; [congruence|]. intros _ H.
  apply Forall_cons in H as [(Hne & Hn & Hl & Hr) Hls].
  destruct ls as [|l' ls]; [cbn; auto|].
  destruct (IH ltac:(discriminate) Hls) as [IH1 IH2].
  change (text (l :: l' :: ls)) with (l ++ String "010" (text (l' :: ls))).
  split; [|destruct l; [congruence | discriminate]].
  assert (E : Str.rstrip (String "010" (text (l' :: ls))) = String "010" (text (l' :: ls))).
  { cbn [Str.rstrip]. rewrite IH1. destruct (text (l' :: ls)); [congruence | reflexivity]. }
  rewrite rstrip_app; rewrite E; [reflexivity | discriminate].
Qed.

Lemma strip_text ls :
  ls ≠ [] → Forall one_line ls → Str.strip (text ls) = text ls.
Proof.
  intros Hne H. unfold Str.strip.
  assert (Hl : Str.lstrip (text ls) = text ls).
  { destruct ls as [|l ls]; [congruence|].
    apply Forall_cons in H as [Hl _].
    destruct (one_line_head l Hl) as (c & l' & -> & Hc).
    destruct ls as [|l2 ls].
    - change (text [String c l']) with (String c l').
      cbn [Str.lstrip]. rewrite Hc. reflexivity.
    - change (text (String c l' :: l2 :: ls))
        with (String c (l' ++ String "010" (text (l2 :: ls)))).
      cbn [Str.lstrip]. rewrite Hc. reflexivity. }
  rewrite Hl. apply rstrip_text; assumption.
Qed.

Lemma split_nl_text ls :
  ls ≠ [] → Forall one_line ls → Str.split_nl (text ls) = ls.
Proof.
  induction ls as [|l ls IH]; [congruence|]. intros _ H.
  apply Forall_cons in H as [(Hne & Hn & Hl & Hr) Hls].
  destruct ls as [|l' ls]; [apply split_nl_one; exact Hn|].
  change (text (l :: l' :: ls)) with (l ++ String "010" (text (l' :: ls))).
  rewrite split_nl_app by exact Hn. rewrite IH; [reflexivity | discriminate | exact Hls].
Qed.

Lemma strip_one_line l : one_line l → Str.strip l = l.
Proof. intros (_ & _ & Hl & Hr). unfold Str.strip. rewrite Hl. exact Hr. Qed.

Lemma block_lines_text ls :
  ls ≠ [] → Forall one_line ls → block_lines (text ls) = ls.
Proof.
  intros Hne H. unfold block_lines. rewrite split_nl_text by assumption.
  clear Hne. induction H as [|l ls Hl H IH]; [reflexivity|].
  rewrite filter_cons, decide_True.
  - cbn [map]. rewrite IH, (strip_one_line l Hl). reflexivity.
  - rewrite (strip_one_line l Hl). destruct Hl as (Hl & _).
    destruct l; [congruence | reflexivity].
Qed.

(** *** A block in the first format *)

Definition explanation_lines (ex : option string) : list string :=
  match ex with Some e => ["ex: " ++ e] | None => [] end.

(** A letter a-e, in either case. *)
Definition letter (m : ascii) : Prop := member true a_e m = true.

Lemma letter_cases m :
  letter m → m ∈ ["a"; "b"; "c"; "d"; "e"; "A"; "B"; "C"; "D"; "E"]%char.
Proof.
  unfold letter. destruct m as [[] [] [] [] [] [] [] []];
    intros H; try discriminate H; set_solver.
Qed.

Lemma letter_not_space m : letter m → Str.isspace m = false.
Proof.
  intros H. apply letter_cases in H.
  repeat (apply elem_of_cons in H as [-> | H]; [reflexivity|]). inversion H.
Qed.

Lemma letter_not_newline m : letter m → Ascii.eqb m "010" = false.
Proof.
  intros H. apply letter_cases in H.
  repeat (apply elem_of_cons in H as [-> | H]; [reflexivity|]). inversion H.
Qed.

Lemma question_line_one_line num qt :
  num ≠ "" → all_digits num = true → one_line qt → one_line (num ++ ". " ++ qt).
Proof.
  intros Hne Hd Hqt. rewrite <- str_app_assoc.
  apply one_line_app; [destruct num; [congruence | discriminate] | | | exact Hqt].
  - destruct num as [|d ds]; [congruence|].
    change (String d ds ++ ". ") with (String d (ds ++ ". ")).
    cbn [all_digits] in Hd. apply andb_true_iff in Hd as [Hd _].
    cbn [Str.lstrip]. rewrite (digit_not_space d Hd). reflexivity.
  - rewrite no_newline_app, (all_digits_no_newline num Hd). reflexivity.
Qed.

Lemma explanation_line_one_line e : one_line e → one_line ("ex: " ++ e).
Proof. intros He. apply one_line_app; [discriminate | reflexivity | reflexivity | exact He]. Qed.

(** *** What the patterns say of these lines *)

Lemma question_line_no_explanation d ds qt :
  Str.isdigit d = true → matches true ex_line (String d ds ++ ". " ++ qt) = false.
Proof.
  intros Hd. change (String d ds ++ ". " ++ qt) with (String d (ds ++ ". " ++ qt)).
  unfold matches, re_match, ex_line. cbn [run lit Nat.eqb].
  replace (member true (One "e") d) with false; [reflexivity|].
  symmetry. unfold member, Str.isdigit in *. 
  destruct d as [[] [] [] [] [] [] [] []]; try discriminate Hd; reflexivity.
Qed.

Lemma explanation_line_facts e :
  one_line e →
  matches true ex_line ("ex: " ++ e) = true
  ∧ answer_of_line ("ex: " ++ e) = None.
Proof. intros He. split; reflexivity. Qed.

Lemma ex_prefix_removed e :
  one_line e → re_sub_empty true ex_prefix ("ex: " ++ e) = e.
Proof.
  intros He. destruct (one_line_head e He) as (c & e' & -> & Hc).
  unfold re_sub_empty, re_split, ex_prefix.
  change ("ex: " ++ String c e')
    with (String "e" (String "x" (String ":" (String " " (String c e'))))).
  cbn [split_go attempt run lit Nat.eqb andb].
  change (member true (One "e") "e") with true.
  change (member true (One "x") "x") with true.
  change (member true (One ":") ":") with true. cbv iota.
  rewrite star_cons. change (member true Space " ") with true. cbv iota.
  rewrite star_cons.
  replace (member true Space c) with false.
  2:{ symmetry. unfold member. cbn [mem andb]. rewrite Hc. cbn [orb].
      unfold Str.swapcase, Str.to_lower, Str.to_upper, Str.is_upper, Str.is_lower.
      unfold Str.isspace in *.
      destruct c as [[] [] [] [] [] [] [] []]; try discriminate Hc; reflexivity. }
  cbv iota. cbn [Nat.eqb Nat.sub split_go].
  rewrite split_go_anchored. reflexivity.
Qed.

(** *** The stages of the parser on such a block *)

Fixpoint fill (count : nat) (ls : list string) (q : Question) : Question :=
  match ls with
  | [] => q
  | l :: ls' => fill (S count) ls' (set_option (S count) l q)
  end.

Lemma solution_lines_app l1 l2 :
  solution_lines (l1 ++ l2) = (solution_lines l1 ++ solution_lines l2)%list.
Proof.
  induction l1 as [|l l1 IH]; [reflexivity|]. cbn [app solution_lines].
  destruct (matches true ex_line l); [cbn [app]; rewrite IH|]; auto.
Qed.

(** *** Where the text of a file is cut into blocks *)

Fixpoint skip (p : ascii -> bool) (s : string) : string :=
  match s with
  | String c s' => if p c then skip p s' else s
  | EmptyString => s
  end.

Fixpoint run_len (p : ascii -> bool) (s : string) : nat :=
  match s with
  | String c s' => if p c then S (run_len p s') else 0
  | EmptyString => 0
  end.

(** When the continuation refuses every text that starts inside the run,
    the greedy repetition takes the whole run. *)
Lemma star_skip {A : Set} (p : ascii -> bool) (k : nat -> string -> option A) :
  (∀ j x t, p x = true → k j (String x t) = None) →
  ∀ s i, star p i s k = k (i + run_len p s)%nat (skip p s).
Proof.
  intros Hk. induction s as [|c s IH]; intros i.
  - cbn. rewrite Nat.add_0_r. reflexivity.
  - cbn [star skip run_len]. destruct (p c) eqn:Hc.
    + rewrite IH, Nat.add_succ_r. cbn [Nat.add].
      destruct (k (S (i + run_len p s)) (skip p s)); [reflexivity|].
      apply Hk. exact Hc.
    + rewrite Nat.add_0_r. reflexivity.
Qed.

Lemma star_const {A : Set} (p : ascii -> bool) (a : A) s :
  ∀ i, star p i s (λ _ _, Some a) = Some a.
Proof.
  induction s as [|c s IH]; intros i; [reflexivity|].
  cbn [star]. rewrite IH. destruct (p c); reflexivity.
Qed.

(** "Q.", then a digit. *)
Definition Q_here (s : string) : bool :=
  match s with
  | String c (String x (String d _)) =>
      member false (One "Q") c && member false (One ".") x && member false Digit d
  | _ => false
  end.

(** Digits, a dot, any blanks, then a capital letter. *)
Definition numbered_here (s : string) : bool :=
  match s with
  | String c s' =>
      member false Digit c
      && match skip (member false Digit) s' with
         | String x r =>
             member false (One ".") x
             && match skip (member false Space) r with
                | String u _ => member false (Range "A" "Z") u
                | EmptyString => false
                end
         | EmptyString => false
         end
  | EmptyString => false
  end.

Definition ahead_here (s : string) : bool := Q_here s || numbered_here s.

Definition look : regex :=
  (lit "Q." >> Plus Digit
   |: Plus Digit >> Chr (One ".") >> Star Space >> Chr (Range "A" "Z"))%re.

Lemma Q_run i s :
  run false (lit "Q." >> Plus Digit)%re [] i s (λ g _ _, Some g)
  = if Q_here s then Some [] else None.
Proof.
  unfold Q_here. destruct s as [|c s]; [reflexivity|]. cbn [run lit].
  destruct (member false (One "Q") c); [|destruct s as [|? [|? ?]]; reflexivity].
  destruct s as [|x s]; [reflexivity|].
  destruct (member false (One ".") x); [|destruct s; reflexivity].
  destruct s as [|d s]; [reflexivity|].
  destruct (member false Digit d); [|reflexivity].
  cbn [andb]. apply star_const.
Qed.

Lemma numbered_run i s :
  run false (Plus Digit >> Chr (One ".") >> Star Space >> Chr (Range "A" "Z"))%re
      [] i s (λ g _ _, Some g)
  = if numbered_here s then Some [] else None.
Proof.
  unfold numbered_here. destruct s as [|c s]; [reflexivity|]. cbn [run].
  destruct (member false Digit c); [|reflexivity]. cbn [andb].
  rewrite star_skip.
  2:{ intros j x t Hx. replace (member false (One ".") x) with false; [reflexivity|].
      symmetry. rewrite member_cs in *. cbn [mem] in *.
      destruct (Ascii.eqb_spec x "."); [subst x; discriminate Hx | reflexivity]. }
  destruct (skip (member false Digit) s) as [|x r]; [reflexivity|].
  destruct (member false (One ".") x); [|reflexivity]. cbn [andb].
  rewrite star_skip.
  2:{ intros j y t Hy. replace (member false (Range "A" "Z") y) with false; [reflexivity|].
      symmetry. rewrite member_cs in *. cbn [mem] in *. unfold Str.isspace in Hy.
      destruct y as [[] [] [] [] [] [] [] []]; try discriminate Hy; reflexivity. }
  destruct (skip (member false Space) r) as [|u r']; [reflexivity|].
  destruct (member false (Range "A" "Z") u); reflexivity.
Qed.

Lemma run_alt {A : Set} ic r1 r2 g i s (k : groups -> nat -> string -> option A) :
  run ic (r1 |: r2)%re g i s k
  = match run ic r1 g i s k with
    | Some a => Some a
    | None => run ic r2 g i s k
    end.
Proof. reflexivity. Qed.

Lemma look_run i s :
  run false look [] i s (λ g _ _, Some g) = if ahead_here s then Some [] else None.
Proof.
  unfold look, ahead_here. rewrite run_alt, Q_run, numbered_run.
  destruct (Q_here s); reflexivity.
Qed.

Definition blank : regex :=
  (Chr (One "010") >> Star Space >> Chr (One "010"))%re.

Lemma attempt_sep ma i s :
  attempt false block_sep ma i s
  = match run false blank [] i s
            (λ _ j _, if ma && Nat.eqb j i then None else Some j) with
    | Some j => Some j
    | None => if ahead_here s then (if ma then None else Some i) else None
    end.
Proof.
  unfold attempt, block_sep. rewrite run_alt. fold blank.
  destruct (run false blank [] i s _); [reflexivity|].
  change (run false (Ahead ?r) [] i s ?k)
    with (match run false look [] i s (λ g _ _, Some g) with
          | Some g' => k g' i s
          | None => None
          end).
  rewrite look_run. destruct (ahead_here s); [|reflexivity].
  rewrite Nat.eqb_refl, andb_true_r. reflexivity.
Qed.

Lemma blank_not_newline {A : Set} c s i (k : groups -> nat -> string -> option A) :
  Ascii.eqb c "010" = false → run false blank [] i (String c s) k = None.
Proof.
  intros Hc. unfold blank. cbn [run]. rewrite member_cs. cbn [mem]. rewrite Hc.
  reflexivity.
Qed.

Lemma not_space_not_newline c : Str.isspace c = false → Ascii.eqb c "010" = false.
Proof.
  intros H. destruct (Ascii.eqb_spec c "010") as [->|]; [discriminate H | reflexivity].
Qed.

Lemma blank_newline_text {A : Set} c s i (k : groups -> nat -> string -> option A) :
  Str.isspace c = false →
  run false blank [] i (String "010" (String c s)) k = None.
Proof.
  intros Hc. unfold blank. cbn [run]. change (member false (One "010") "010") with true.
  cbv iota. rewrite star_cons, !member_cs. cbn [mem]. rewrite Hc.
  rewrite (not_space_not_newline c Hc). reflexivity.
Qed.

Lemma blank_line c s i :
  Str.isspace c = false →
  attempt false block_sep false i (String "010" (String "010" (String c s)))
  = Some (S (S i)).
Proof.
  intros Hc. rewrite attempt_sep. unfold blank. cbn [run andb].
  change (member false (One "010") "010") with true. cbv iota.
  rewrite star_cons. change (member false Space "010") with true. cbv iota.
  rewrite star_cons, !member_cs. cbn [mem]. rewrite Hc.
  rewrite (not_space_not_newline c Hc).
  change (Ascii.eqb "010" "010") with true. cbv iota. reflexivity.
Qed.

(** No block starts or ends at the start of [s]. *)
Definition silent (s : string) : Prop :=
  ∀ ma i, attempt false block_sep ma i s = None.

Lemma silent_empty : silent "".
Proof. intros ma i. reflexivity. Qed.

Lemma silent_plain c s :
  Ascii.eqb c "010" = false → ahead_here (String c s) = false → silent (String c s).
Proof.
  intros Hc Ha ma i. rewrite attempt_sep, (blank_not_newline c s i _ Hc), Ha.
  reflexivity.
Qed.

Lemma ahead_here_first c s :
  member false (One "Q") c = false → member false Digit c = false →
  ahead_here (String c s) = false.
Proof.
  intros HQ Hd. unfold ahead_here, Q_here, numbered_here. rewrite HQ, Hd.
  destruct s as [|x [|d s]]; reflexivity.
Qed.

Lemma silent_newline c s :
  Str.isspace c = false → silent (String "010" (String c s)).
Proof.
  intros Hc ma i. rewrite attempt_sep, (blank_newline_text c s i _ Hc).
  rewrite ahead_here_first; reflexivity.
Qed.

(** *** A stretch of text in which no block starts or ends *)

Fixpoint all_silent (R T : string) : Prop :=
  match R with
  | EmptyString => True
  | String c R' => silent (String c R' ++ T) ∧ all_silent R' T
  end.

Fixpoint push_all (R : string) (pieces : list string) : list string :=
  match R with
  | EmptyString => pieces
  | String c R' => push c (push_all R' pieces)
  end.

Lemma push_all_cons R p ps : push_all R (p :: ps) = (R ++ p) :: ps.
Proof.
  induction R as [|c R IH]; [reflexivity|]. cbn [push_all]. rewrite IH. reflexivity.
Qed.

Lemma split_go_silent R T :
  all_silent R T →
  ∀ i, split_go false block_sep i (R ++ T) 0
       = push_all R (split_go false block_sep (i + String.length R) T 0).
Proof.
  induction R as [|c R IH]; intros H i.
  - cbn [String.length push_all]. rewrite Nat.add_0_r. reflexivity.
  - destruct H as [Hs H].
    change (String c R ++ T) with (String c (R ++ T)) in *.
    cbn [split_go push_all String.length]. rewrite (Hs false i).
    rewrite (IH H), Nat.add_succ_r. reflexivity.
Qed.

(** No dot before the end of the line. *)
Fixpoint no_dot_line (s : string) : bool :=
  match s with
  | EmptyString => true
  | String c s' =>
      if Ascii.eqb c "010" then true else negb (Ascii.eqb c ".") && no_dot_line s'
  end.

Fixpoint no_dot (s : string) : bool :=
  match s with
  | EmptyString => true
  | String c s' => negb (Ascii.eqb c ".") && no_dot s'
  end.

(** No dot, and a character that is no blank after each line break. *)
Fixpoint ok_text (s : string) : bool :=
  match s with
  | EmptyString => true
  | String c s' =>
      negb (Ascii.eqb c ".")
      && (if Ascii.eqb c "010"
          then match s' with
               | String c' _ => negb (Str.isspace c')
               | EmptyString => false
               end
          else true)
      && ok_text s'
  end.

Lemma skip_no_dot s :
  no_dot_line s = true →
  match skip (member false Digit) s with
  | String x _ => member false (One ".") x = false
  | EmptyString => True
  end.
Proof.
  induction s as [|c s IH]; [constructor|]. cbn [no_dot_line skip]. intros H.
  destruct (member false Digit c) eqn:Hd.
  - apply IH. rewrite member_cs in Hd. cbn [mem] in Hd.
    rewrite (digit_not_newline c Hd) in H.
    apply andb_true_iff in H as [_ H]. exact H.
  - rewrite member_cs. cbn [mem].
    destruct (Ascii.eqb_spec c "010") as [->|]; [reflexivity|].
    apply andb_true_iff in H as [H _]. apply negb_true_iff in H. exact H.
Qed.

Lemma no_dot_line_quiet s : no_dot_line s = true → ahead_here s = false.
Proof.
  intros H. unfold ahead_here. apply orb_false_iff. split.
  - unfold Q_here. destruct s as [|c [|x [|d s]]]; try reflexivity.
    cbn [no_dot_line] in H. rewrite !member_cs. cbn [mem].
    destruct (Ascii.eqb_spec c "Q") as [->|]; [|reflexivity].
    cbn in H. destruct (Ascii.eqb_spec x "010") as [->|]; [reflexivity|].
    apply andb_true_iff in H as [H _]. apply negb_true_iff in H. rewrite H.
    reflexivity.
  - unfold numbered_here. destruct s as [|c s]; [reflexivity|].
    destruct (member false Digit c) eqn:Hd; [|reflexivity]. cbn [andb].
    rewrite member_cs in Hd. cbn [mem] in Hd. cbn [no_dot_line] in H.
    rewrite (digit_not_newline c Hd) in H. apply andb_true_iff in H as [_ H].
    apply skip_no_dot in H.
    destruct (skip (member false Digit) s) as [|x r]; [reflexivity|].
    rewrite H. reflexivity.
Qed.

Lemma ok_text_no_dot_line R T :
  ok_text R = true → no_dot_line T = true → no_dot_line (R ++ T) = true.
Proof.
  induction R as [|c R IH]; intros HR HT; [exact HT|].
  change (String c R ++ T) with (String c (R ++ T)). cbn [ok_text no_dot_line] in *.
  apply andb_true_iff in HR as [HR H3]. apply andb_true_iff in HR as [H1 H2].
  destruct (Ascii.eqb c "010"); [reflexivity|].
  rewrite H1, IH; auto.
Qed.

Lemma ok_text_silent R T :
  ok_text R = true → no_dot_line T = true → all_silent R T.
Proof.
  induction R as [|c R IH]; intros HR HT; [constructor|].
  pose proof (ok_text_no_dot_line _ _ HR HT) as Hn.
  cbn [ok_text] in HR.
  apply andb_true_iff in HR as [HR H3]. apply andb_true_iff in HR as [H1 H2].
  split; [|apply IH; assumption].
  destruct (Ascii.eqb_spec c "010") as [->|Hc].
  - destruct R as [|c' R]; [discriminate H2|]. apply negb_true_iff in H2.
    apply silent_newline. exact H2.
  - apply silent_plain; [destruct (Ascii.eqb_spec c "010"); congruence|].
    apply no_dot_line_quiet. exact Hn.
Qed.

(** *** The text of the lines *)

Lemma no_dot_app a b : no_dot (a ++ b) = no_dot a && no_dot b.
Proof.
  induction a as [|c a IH]; [reflexivity|]. simpl. rewrite IH, andb_assoc. reflexivity.
Qed.

Lemma ok_text_one l : no_newline l = true → no_dot l = true → ok_text l = true.
Proof.
  induction l as [|c l IH]; [reflexivity|]. cbn [no_newline no_dot ok_text].
  intros Hn Hd. apply andb_true_iff in Hn as [Hc Hn]. apply andb_true_iff in Hd as [Hd Hl].
  apply negb_true_iff in Hc. rewrite Hd, Hc, IH; auto.
Qed.

Lemma ok_text_line l c r :
  no_newline l = true → no_dot l = true → Str.isspace c = false →
  ok_text (String c r) = true →
  ok_text (l ++ String "010" (String c r)) = true.
Proof.
  intros Hn Hd Hc Hr. induction l as [|x l IH].
  - change ("" ++ String "010" (String c r)) with (String "010" (String c r)).
    cbn [ok_text] in *. rewrite Hc. exact Hr.
  - change (String x l ++ String "010" (String c r))
      with (String x (l ++ String "010" (String c r))).
    cbn [no_newline no_dot] in *.
    apply andb_true_iff in Hn as [Hx Hn]. apply andb_true_iff in Hd as [Hd Hl].
    apply negb_true_iff in Hx. cbn [ok_text]. rewrite Hd, Hx, IH; auto.
Qed.

Lemma text_cons l l' ls : text (l :: l' :: ls) = l ++ String "010" (text (l' :: ls)).
Proof. reflexivity. Qed.

Lemma text_starts ls :
  ls ≠ [] → Forall one_line ls → ∃ c r, text ls = String c r ∧ Str.isspace c = false.
Proof.
  intros Hne H. destruct ls as [|l ls]; [congruence|].
  apply Forall_cons in H as [Hl _].
  destruct (one_line_head l Hl) as (c & l' & -> & Hc).
  destruct ls as [|l2 ls]; [exists c, l'; auto|].
  rewrite text_cons. eexists c, _. split; [reflexivity | exact Hc].
Qed.

Lemma ok_text_lines ls :
  ls ≠ [] → Forall one_line ls → Forall (λ l, no_dot l = true) ls →
  ok_text (text ls) = true.
Proof.
  induction ls as [|l ls IH]; [congruence|]. intros _ H Hd.
  apply Forall_cons in H as [(Hne & Hn & Hl & Hr) Hls].
  apply Forall_cons in Hd as [Hd Hds].
  destruct ls as [|l' ls]; [apply ok_text_one; assumption|].
  rewrite text_cons.
  destruct (text_starts (l' :: ls) ltac:(discriminate) Hls) as (c & r & E & Hc).
  specialize (IH ltac:(discriminate) Hls Hds). rewrite E in *.
  apply ok_text_line; assumption.
Qed.

Lemma text_head a b rest : text ((a ++ b) :: rest) = a ++ text (b :: rest).
Proof.
  destruct rest as [|l ls]; [reflexivity|]. rewrite !text_cons, str_app_assoc.
  reflexivity.
Qed.

Lemma str_app_nil a : a ++ "" = a.
Proof.
  induction a as [|c a IH]; [reflexivity|].
  change (String c a ++ "") with (String c (a ++ "")). rewrite IH. reflexivity.
Qed.

(** *** The number before the question *)

Lemma skip_app (p : ascii -> bool) a c r :
  all_in p a = true → p c = false → skip p (a ++ String c r) = String c r.
Proof.
  intros Ha Hc. induction a as [|x a IH].
  - change ("" ++ String c r) with (String c r). cbn [skip]. rewrite Hc. reflexivity.
  - change (String x a ++ String c r) with (String x (a ++ String c r)).
    cbn [all_in skip] in *. apply andb_true_iff in Ha as [Hx Ha].
    rewrite Hx. apply IH. exact Ha.
Qed.

Lemma ahead_digits d ds u r :
  Str.isdigit d = true → all_digits ds = true → Str.isspace u = false →
  ahead_here (String d ds ++ ". " ++ String u r) = member false (Range "A" "Z") u.
Proof.
  intros Hd Hds Hu.
  change (String d ds ++ ". " ++ String u r) with (String d (ds ++ ". " ++ String u r)).
  unfold ahead_here.
  assert (HQ : Q_here (String d (ds ++ ". " ++ String u r)) = false).
  { unfold Q_here. replace (member false (One "Q") d) with false.
    - destruct (ds ++ ". " ++ String u r) as [|? [|? ?]]; reflexivity.
    - symmetry. rewrite member_cs. cbn [mem].
      destruct (Ascii.eqb_spec d "Q") as [->|]; [discriminate Hd | reflexivity]. }
  rewrite HQ. cbn [orb]. unfold numbered_here.
  rewrite member_cs. cbn [mem]. rewrite Hd. cbn [andb].
  change (". " ++ String u r) with (String "." (String " " (String u r))).
  rewrite (skip_app _ ds "." _ (all_digits_in ds Hds) eq_refl).
  change (member false (One ".") ".") with true. cbn [andb skip].
  change (member false Space " ") with true. cbv iota.
  rewrite member_cs. cbn [mem]. rewrite Hu. reflexivity.
Qed.

Lemma digit_block_dropped d : Str.isdigit d = true → parse_block (String d "") = None.
Proof.
  intros Hd. unfold parse_block, Str.strip. cbn [Str.lstrip].
  rewrite (digit_not_space d Hd). cbn [Str.rstrip]. rewrite (digit_not_space d Hd).
  cbn [Str.truthy negb]. unfold block_lines. cbn [Str.split_nl].
  rewrite (digit_not_newline d Hd), filter_cons, filter_nil.
  destruct (decide _); reflexivity.
Qed.

Section Number.
Variables (u : ascii) (R' T : string).
Hypothesis u_not_space : Str.isspace u = false.
Hypothesis rest_silent : all_silent (String u R') T.

(** The text from the dot on, and what follows the block. *)
Let Y : string := String "." (String " " (String u R')).
Let Z : string := String "." (String " " (String u (R' ++ T))).

Lemma after_number_silent : all_silent Y T.
Proof.
  split; [|split; [|exact rest_silent]];
    (apply silent_plain; [reflexivity | apply ahead_here_first; reflexivity]).
Qed.

Lemma split_after_number i :
  split_go false block_sep i Z 0
  = push_all Y (split_go false block_sep (i + String.length Y) T 0).
Proof. exact (split_go_silent Y T after_number_silent i). Qed.

Lemma number_silent ds :
  all_digits ds = true → member false (Range "A" "Z") u = false →
  all_silent (ds ++ Y) T.
Proof.
  intros Hds Hu. induction ds as [|d ds IH]; [exact after_number_silent|].
  cbn [all_digits] in Hds. apply andb_true_iff in Hds as [Hd Hds].
  split; [|apply IH; exact Hds].
  change (String d (ds ++ Y) ++ T) with (String d ((ds ++ Y) ++ T)).
  rewrite str_app_assoc.
  change (String d (ds ++ Y ++ T)) with (String d ds ++ ". " ++ String u (R' ++ T)).
  apply silent_plain.
  - apply digit_not_newline. exact Hd.
  - change (ahead_here (String d ds ++ ". " ++ String u (R' ++ T)) = false).
    rewrite (ahead_digits d ds u _ Hd Hds u_not_space). exact Hu.
Qed.

Lemma split_number_plain ds i :
  all_digits ds = true → member false (Range "A" "Z") u = false →
  split_go false block_sep i (ds ++ Z) 0
  = push_all (ds ++ Y) (split_go false block_sep (i + String.length (ds ++ Y)) T 0).
Proof.
  intros Hds Hu. rewrite <- (split_go_silent _ T (number_silent ds Hds Hu) i).
  rewrite str_app_assoc. reflexivity.
Qed.

Lemma split_number_capital ds :
  all_digits ds = true → member false (Range "A" "Z") u = true →
  ∀ d i, Str.isdigit d = true →
    ∃ junk last i',
      Forall (λ b, parse_block b = None) junk ∧ Str.isdigit last = true
      ∧ split_go false block_sep i (String d ds ++ Z) 0
        = "" :: (junk ++ push_all (String last Y) (split_go false block_sep i' T 0))%list.
Proof.
  intros Hds Hu. induction ds as [|d' ds IH]; intros d i Hd.
  - exists [], d, (S i + String.length Y)%nat. split; [constructor|]. split; [exact Hd|].
    change (String d "" ++ Z) with (String d Z).
    assert (Ha : ∀ ma, attempt false block_sep ma i (String d Z)
                       = if ma then None else Some i).
    { intros ma. rewrite attempt_sep, (blank_not_newline d Z i _ (digit_not_newline d Hd)).
      change (String d Z) with (String d "" ++ ". " ++ String u (R' ++ T)).
      rewrite (ahead_digits d "" u _ Hd eq_refl u_not_space), Hu. reflexivity. }
    cbn [split_go]. rewrite !Ha, Nat.eqb_refl, split_after_number. reflexivity.
  - cbn [all_digits] in Hds. apply andb_true_iff in Hds as [Hd' Hds].
    destruct (IH Hds d' (S i) Hd') as (junk & last & i' & Hj & Hl & E).
    exists (String d "" :: junk), last, i'.
    split; [constructor; [apply digit_block_dropped; exact Hd | exact Hj]|].
    split; [exact Hl|].
    change (String d (String d' ds) ++ Z) with (String d (String d' ds ++ Z)).
    assert (Ha : ∀ ma, attempt false block_sep ma i (String d (String d' ds ++ Z))
                       = if ma then None else Some i).
    { intros ma. rewrite attempt_sep,
        (blank_not_newline d _ i _ (digit_not_newline d Hd)).
      change (String d (String d' ds ++ Z))
        with (String d (String d' ds) ++ ". " ++ String u (R' ++ T)).
      rewrite (ahead_digits d (String d' ds) u _ Hd), Hu; [reflexivity | | exact u_not_space].
      cbn [all_digits]. rewrite Hd', Hds. reflexivity. }
    cbn [split_go]. rewrite !Ha, Nat.eqb_refl, E. reflexivity.
Qed.

End Number.

Definition empty_line : string := String "010" (String "010" "").


Lemma omap_dropped junk :
  Forall (λ b, parse_block b = None) junk → omap parse_block junk = [].
Proof.
  induction 1 as [|b junk Hb _ IH]; [reflexivity|].
  cbn [omap list_omap]. rewrite Hb. exact IH.
Qed.

(** *** The number before the question: "12. " or "Q.12 " *)

Inductive Numbering : Type := Dotted | Qdot.

Definition number_text (k : Numbering) (ds : string) : string :=
  match k with
  | Dotted => ds ++ ". "
  | Qdot => "Q." ++ ds ++ " "
  end.

(** A match of a pattern that begins with [^] over the whole of [pre]
    takes [pre] away. *)
Lemma prefix_removed ic r c pre rest :
  attempt ic (Cat Bol r) false 0 (String c pre ++ rest)
  = Some (S (String.length pre)) →
  re_sub_empty ic (Cat Bol r) (String c pre ++ rest) = rest.
Proof.
  intros Ha. unfold re_sub_empty, re_split.
  change (String c pre ++ rest) with (String c (pre ++ rest)) in *.
  cbn [split_go]. rewrite Ha. cbn [Nat.eqb Nat.sub].
  rewrite Nat.sub_0_r, split_go_skip. cbn [Nat.add].
  rewrite split_go_anchored. reflexivity.
Qed.

Lemma Q_prefix_end {A : Set} d ds qt (F : groups -> nat -> string -> A) :
  Str.isdigit d = true → all_digits ds = true → one_line qt →
  run false number_prefix [] 0 ("Q." ++ String d ds ++ " " ++ qt)
      (λ g j s, Some (F g j s))
  = Some (F [] (String.length ds + 4)%nat qt).
Proof.
  intros Hd Hds Hqt. destruct (one_line_head qt Hqt) as (c & qt' & -> & Hc).
  unfold number_prefix.
  change ("Q." ++ String d ds ++ " " ++ String c qt')
    with (String "Q" (String "." (String d (ds ++ " " ++ String c qt')))).
  cbn [run lit Nat.eqb].
  change (member false Digit "Q") with false. cbv iota.
  change (member false (One "Q") "Q") with true.
  change (member false (One ".") ".") with true. cbv iota.
  rewrite member_cs. cbn [mem]. rewrite Hd.
  erewrite (star_run (member false Digit) ds (all_digits_in ds Hds) 3); [reflexivity|].
  change (" " ++ String c qt') with (String " " (String c qt')).
  rewrite star_cons. change (member false Digit " ") with false. cbv iota.
  change (member false Space " ") with true. cbv iota.
  rewrite star_cons, member_cs. cbn [mem]. rewrite Hc.
  do 2 f_equal. lia.
Qed.

Lemma number_line_stage k num qt :
  num ≠ "" → all_digits num = true → one_line qt →
  matches false number_prefix (number_text k num ++ qt) = true
  ∧ re_sub_empty false number_prefix (number_text k num ++ qt) = qt.
Proof.
  intros Hne Hnum Hqt. destruct num as [|d ds]; [congruence|].
  cbn [all_digits] in Hnum. apply andb_true_iff in Hnum as [Hd Hds].
  destruct k; cbn [number_text].
  - rewrite str_app_assoc. split.
    + apply number_prefix_matches; assumption.
    + apply number_prefix_removed; assumption.
  - rewrite !str_app_assoc.
    split.
    + apply matches_true. unfold re_match.
      rewrite (Q_prefix_end d ds qt (λ g j _, (j, g)) Hd Hds Hqt). eauto.
    + pose proof (Q_prefix_end d ds qt (λ _ j _, j) Hd Hds Hqt) as Ha.
      change ("Q." ++ String d ds ++ " " ++ qt)
        with (String "Q" (String "." (String d (ds ++ " " ++ qt)))) in *.
      rewrite <- (str_app_assoc ds " " qt) in *.
      change (String "Q" (String "." (String d ((ds ++ " ") ++ qt))))
        with (String "Q" (String "." (String d (ds ++ " "))) ++ qt) in *.
      apply prefix_removed. unfold attempt. cbn [andb].
      unfold number_prefix in *. rewrite Ha. f_equal.
      cbn [String.length]. rewrite str_length_app. cbn [String.length]. lia.
Qed.

(** *** The option lines: "a) ", "(a) " or "a. ", with a second line or
    without *)

Inductive Marker : Type := CloseParen | Parens | Dot.

Definition marker_text (k : Marker) (m : ascii) : string :=
  match k with
  | CloseParen => String m ") "
  | Parens => String "(" (String m ") ")
  | Dot => String m ". "
  end.

Record Choice : Type := mkChoice {
  c_marker : Marker;
  c_letter : ascii;
  c_text : string;
  c_second : option string
}.

Definition first_line (o : Choice) : string :=
  marker_text (c_marker o) (c_letter o) ++ c_text o.

Definition lines_of (second : option string) : list string :=
  match second with Some l => [l] | None => [] end.

Definition choice_lines (o : Choice) : list string :=
  first_line o :: lines_of (c_second o).

(** What the record is to hold for the option. *)
Definition choice_stored (o : Choice) : string :=
  match c_second o with
  | Some l => first_line o ++ "<br>" ++ l
  | None => first_line o
  end.

(** A second line: one line that starts like none of an option, an answer
    and an explanation. *)
Definition second_line (l : string) : Prop :=
  one_line l ∧ matches true not_continuation l = false.

Definition well_formed_choice (o : Choice) : Prop :=
  letter (c_letter o) ∧ one_line (c_text o) ∧ from_option second_line True (c_second o).

Lemma is_some_or {A} (x y : option A) :
  is_Some x → is_Some (match x with Some a => Some a | None => y end).
Proof. intros [a ->]. eauto. Qed.

Lemma is_some_else {A} (x y : option A) :
  is_Some y → is_Some (match x with Some a => Some a | None => y end).
Proof. intros Hy. destruct x; [eauto | exact Hy]. Qed.

Lemma first_line_facts o :
  letter (c_letter o) →
  matches true option_pattern (first_line o) = true
  ∧ matches true option_start (first_line o) = true
  ∧ matches true not_continuation (first_line o) = true
  ∧ matches true ex_line (first_line o) = false.
Proof.
  destruct o as [k m x s]. unfold first_line, letter. cbn [c_marker c_letter c_text].
  intros Hm. split; [|split; [|split]].
  - apply matches_true. unfold re_match, option_pattern. rewrite run_alt.
    destruct k; cbn [marker_text].
    + apply is_some_or.
      change (String m ") " ++ x) with (String m (String ")" (String " " x))).
      cbn [run Nat.eqb]. rewrite Hm.
      change (member true (Either (One ")") (One ".")) ")") with true. cbv iota.
      apply star_accept. eauto.
    + apply is_some_else.
      change (String "(" (String m ") ") ++ x)
        with (String "(" (String m (String ")" (String " " x)))).
      cbn [run Nat.eqb]. change (member true (One "(") "(") with true. cbv iota.
      rewrite Hm. change (member true (One ")") ")") with true. cbv iota.
      apply star_accept. eauto.
    + apply is_some_or.
      change (String m ". " ++ x) with (String m (String "." (String " " x))).
      cbn [run Nat.eqb]. rewrite Hm.
      change (member true (Either (One ")") (One ".")) ".") with true. cbv iota.
      apply star_accept. eauto.
  - apply matches_true. unfold re_match, option_start. rewrite !run_alt.
    destruct k; cbn [marker_text].
    + apply is_some_or.
      change (String m ") " ++ x) with (String m (String ")" (String " " x))).
      cbn [run Nat.eqb]. rewrite Hm.
      change (member true (One ")") ")") with true. cbv iota.
      apply star_accept. eauto.
    + apply is_some_else, is_some_or.
      change (String "(" (String m ") ") ++ x)
        with (String "(" (String m (String ")" (String " " x)))).
      cbn [run Nat.eqb]. change (member true (One "(") "(") with true. cbv iota.
      rewrite Hm. change (member true (One ")") ")") with true. cbv iota.
      apply star_accept. eauto.
    + apply is_some_else, is_some_else.
      change (String m ". " ++ x) with (String m (String "." (String " " x))).
      cbn [run Nat.eqb]. rewrite Hm.
      change (member true (One ".") ".") with true. cbv iota.
      apply star_accept. eauto.
  - apply matches_true. unfold re_match, not_continuation. rewrite !run_alt.
    destruct k; cbn [marker_text].
    + apply is_some_or.
      change (String m ") " ++ x) with (String m (String ")" (String " " x))).
      cbn [run Nat.eqb]. rewrite Hm.
      change (member true (One ")") ")") with true. cbv iota. eauto.
    + apply is_some_else, is_some_or.
      change (String "(" (String m ") ") ++ x)
        with (String "(" (String m (String ")" (String " " x)))).
      cbn [run Nat.eqb]. change (member true (One "(") "(") with true. cbv iota.
      rewrite Hm. change (member true (One ")") ")") with true. cbv iota. eauto.
    + apply is_some_else, is_some_else, is_some_or.
      change (String m ". " ++ x) with (String m (String "." (String " " x))).
      cbn [run Nat.eqb]. rewrite Hm.
      change (member true (One ".") ".") with true. cbv iota. eauto.
  - apply letter_cases in Hm.
    destruct k; cbn [marker_text];
      repeat (apply elem_of_cons in Hm as [-> | Hm]; [reflexivity|]); inversion Hm.
Qed.

Lemma first_line_one_line o :
  letter (c_letter o) → one_line (c_text o) → one_line (first_line o).
Proof.
  destruct o as [k m x s]. unfold first_line. cbn [c_marker c_letter c_text].
  intros Hm Hx. pose proof (letter_not_space m Hm) as Hs.
  pose proof (letter_not_newline m Hm) as Hn.
  apply one_line_app; [destruct k; discriminate | | | exact Hx];
    destruct k; cbn [marker_text Str.lstrip no_newline]; rewrite ?Hs, ?Hn; reflexivity.
Qed.

(** *** The answer line: "Correct option:-a", "Answer: (a)" or "Answer: a" *)

Inductive AnswerForm : Type := CorrectOption | AnswerParens | AnswerPlain.

Definition answer_text (k : AnswerForm) (m : ascii) : string :=
  match k with
  | CorrectOption => "Correct option:-" ++ String m ""
  | AnswerParens => "Answer: (" ++ String m ")"
  | AnswerPlain => "Answer: " ++ String m ""
  end.

Lemma answer_text_facts k m :
  letter m →
  one_line (answer_text k m)
  ∧ matches true option_pattern (answer_text k m) = false
  ∧ matches true keyword_line (answer_text k m) = true
  ∧ matches true not_continuation (answer_text k m) = true
  ∧ matches true ex_line (answer_text k m) = false
  ∧ answer_of_line (answer_text k m) = Some (answer_map_get (Str.lower (String m ""))).
Proof.
  intros H. apply letter_cases in H.
  destruct k;
    repeat (apply elem_of_cons in H as [-> | H];
            [split; [repeat split; try reflexivity; discriminate
                    | repeat split; vm_compute; reflexivity]|]);
    inversion H.
Qed.

(** *** Second lines *)

Lemma not_matches ic r l : matches ic r l = false ↔ re_match ic r l = None.
Proof.
  unfold matches. rewrite bool_decide_eq_false. split.
  - intros H. destruct (re_match ic r l); [exfalso; eauto | reflexivity].
  - intros -> [? ?]. discriminate.
Qed.

Lemma second_line_not_option l :
  matches true not_continuation l = false → matches true option_start l = false.
Proof.
  rewrite !not_matches. unfold re_match, not_continuation, option_start.
  rewrite !run_alt.
  destruct l as [|c1 [|c2 [|c3 l]]]; cbn [run Nat.eqb lit];
    repeat match goal with
           | |- context [member ?a ?b ?c] => destruct (member a b c) eqn:?
           end; try discriminate; try reflexivity.
Qed.

Lemma second_line_no_explanation l :
  matches true not_continuation l = false → matches true ex_line l = false.
Proof.
  rewrite !not_matches. unfold re_match, not_continuation, ex_line.
  rewrite !run_alt. intros H.
  repeat match type of H with
         | match ?x with _ => _ end = None => destruct x eqn:?; [discriminate|]
         end.
  exact H.
Qed.

(** *** A block *)

Record Block : Type := mkBlock {
  b_numbering : Numbering;
  b_number : string;
  b_text : string;
  b_second : option string;
  b_choices : list Choice;
  b_answer : AnswerForm;
  b_letter : ascii;
  b_explanation : option string
}.

Definition well_formed (b : Block) : Prop :=
  b_number b ≠ "" ∧ all_digits (b_number b) = true ∧ one_line (b_text b)
  ∧ from_option second_line True (b_second b)
  ∧ (1 ≤ length (b_choices b) ≤ 5)%nat
  ∧ Forall well_formed_choice (b_choices b)
  ∧ letter (b_letter b)
  ∧ from_option one_line True (b_explanation b).

Definition choices_lines (os : list Choice) : list string :=
  concat (map choice_lines os).

(** The lines after the options: the answer and the explanation. *)
Definition closing_lines (b : Block) : list string :=
  answer_text (b_answer b) (b_letter b) :: explanation_lines (b_explanation b).

Definition lines_of_block (b : Block) : list string :=
  (number_text (b_numbering b) (b_number b) ++ b_text b)
    :: lines_of (b_second b) ++ choices_lines (b_choices b) ++ closing_lines b.

Definition written (b : Block) : string := text (lines_of_block b).

Definition kept (os : list Choice) (n : nat) : string :=
  nth n (map choice_stored os) "".

(** The record that the parser is to give for the block. *)
Definition record (b : Block) : Question :=
  mkQuestion (Str.join "<br>" (b_text b :: lines_of (b_second b)))
             (kept (b_choices b) 0) (kept (b_choices b) 1) (kept (b_choices b) 2)
             (kept (b_choices b) 3) (kept (b_choices b) 4)
             (answer_map_get (Str.lower (String (b_letter b) "")))
             (default "" (b_explanation b)) "3" "1".

Lemma number_text_line k num qt :
  num ≠ "" → all_digits num = true → one_line qt →
  one_line (number_text k num ++ qt).
Proof.
  intros Hne Hd Hqt. destruct k; cbn [number_text].
  - rewrite str_app_assoc. apply question_line_one_line; assumption.
  - apply one_line_app; [discriminate | reflexivity | | exact Hqt].
    change ("Q." ++ num ++ " ") with (String "Q" (String "." (num ++ " "))).
    cbn [no_newline]. rewrite no_newline_app, (all_digits_no_newline num Hd).
    reflexivity.
Qed.

Lemma choices_lines_one_line os :
  Forall well_formed_choice os → Forall one_line (choices_lines os).
Proof.
  induction 1 as [|o os (Hm & Hx & Hs) _ IH]; [constructor|].
  unfold choices_lines. cbn [map concat]. apply Forall_app. split; [|exact IH].
  unfold choice_lines. constructor; [apply first_line_one_line; assumption|].
  destruct (c_second o) as [l|]; [|constructor].
  constructor; [exact (proj1 Hs) | constructor].
Qed.

Lemma lines_of_block_one_line b : well_formed b → Forall one_line (lines_of_block b).
Proof.
  intros (Hne & Hd & Hqt & Hs & _ & Ho & Hm & He). unfold lines_of_block.
  constructor; [apply number_text_line; assumption|].
  apply Forall_app. split.
  { destruct (b_second b) as [l|]; [|constructor].
    constructor; [exact (proj1 Hs) | constructor]. }
  apply Forall_app. split; [apply choices_lines_one_line; exact Ho|].
  unfold closing_lines. constructor; [apply answer_text_facts; exact Hm|].
  destruct (b_explanation b) as [e|]; [|constructor].
  constructor; [apply explanation_line_one_line; exact He | constructor].
Qed.

(** *** The stages of the parser on a block *)

Lemma choices_head os stop rest :
  Forall well_formed_choice os →
  matches true not_continuation stop = true →
  ∃ (l : string) (ls : list string),
    (choices_lines os ++ stop :: rest)%list = l :: ls
    ∧ matches true not_continuation l = true.
Proof.
  intros Ho Hs. destruct Ho as [|o os (Hm & _) _].
  - exists stop, rest. split; [reflexivity | exact Hs].
  - eexists _, _. split; [reflexivity|]. apply first_line_facts. exact Hm.
Qed.

Lemma options_loop_choices os stop rest :
  matches true option_pattern stop = false →
  matches true keyword_line stop = true →
  matches true not_continuation stop = true →
  Forall well_formed_choice os →
  ∀ count q, (count + length os ≤ 5)%nat →
    options_loop (choices_lines os ++ stop :: rest) count q
    = (fill count (map choice_stored os) q, stop :: rest).
Proof.
  intros H1 H2 H3 Ho. induction Ho as [|o os (Hm & Hx & Hs) Ho IH]; intros count q Hc.
  - cbn [choices_lines map concat app options_loop fill].
    rewrite H1, H2, andb_false_r. reflexivity.
  - cbn [length] in Hc.
    destruct (first_line_facts o Hm) as (F1 & _ & _ & _).
    unfold choices_lines. cbn [map concat fill]. fold (choices_lines os).
    unfold choice_lines, choice_stored. rewrite <- app_assoc.
    destruct (c_second o) as [l2|]; cbn [lines_of app from_option] in *.
    + cbn [options_loop].
      replace (count <? 5)%nat with true by (symmetry; apply Nat.ltb_lt; lia).
      rewrite F1. cbn [andb orb]. destruct Hs as [_ Hs]. rewrite Hs. cbn [negb].
      apply IH. lia.
    + destruct (choices_head os stop rest Ho H3) as (l & ls & E & Hl).
      cbn [options_loop].
      replace (count <? 5)%nat with true by (symmetry; apply Nat.ltb_lt; lia).
      rewrite F1. cbn [andb orb]. rewrite E, Hl. cbn [negb]. rewrite <- E.
      apply IH. lia.
Qed.

Lemma question_loop_second second o rest :
  from_option second_line True second → letter (c_letter o) →
  question_loop (lines_of second ++ first_line o :: rest)
  = (lines_of second, first_line o :: rest).
Proof.
  intros Hs Hm. destruct (first_line_facts o Hm) as (_ & F2 & _ & _).
  destruct second as [l|]; cbn [lines_of app question_loop from_option] in *.
  - destruct Hs as [_ Hs]. rewrite (second_line_not_option l Hs). cbn [negb].
    rewrite F2. reflexivity.
  - rewrite F2. reflexivity.
Qed.

Lemma number_line_no_explanation k num qt :
  num ≠ "" → all_digits num = true →
  matches true ex_line (number_text k num ++ qt) = false.
Proof.
  intros Hne Hd. destruct num as [|d ds]; [congruence|].
  cbn [all_digits] in Hd. apply andb_true_iff in Hd as [Hd _].
  destruct k; cbn [number_text].
  - rewrite str_app_assoc. apply question_line_no_explanation. exact Hd.
  - reflexivity.
Qed.

Lemma solution_lines_choices os :
  Forall well_formed_choice os → solution_lines (choices_lines os) = [].
Proof.
  induction 1 as [|o os (Hm & _ & Hs) _ IH]; [reflexivity|].
  unfold choices_lines. cbn [map concat]. fold (choices_lines os).
  rewrite solution_lines_app, IH, app_nil_r. unfold choice_lines.
  cbn [solution_lines]. destruct (first_line_facts o Hm) as (_ & _ & _ & ->).
  destruct (c_second o) as [l|]; [|reflexivity].
  cbn [lines_of solution_lines from_option] in *.
  rewrite (second_line_no_explanation l (proj2 Hs)). reflexivity.
Qed.

Lemma solution_lines_block b :
  well_formed b →
  Str.join "<br>" (solution_lines (lines_of_block b)) = default "" (b_explanation b).
Proof.
  intros (Hne & Hd & Hqt & Hs & _ & Ho & Hm & He). unfold lines_of_block.
  cbn [solution_lines].
  rewrite (number_line_no_explanation _ _ _ Hne Hd), !solution_lines_app,
    (solution_lines_choices _ Ho).
  assert (E : solution_lines (lines_of (b_second b)) = []).
  { destruct (b_second b) as [l|]; [|reflexivity].
    cbn [lines_of solution_lines from_option] in *.
    rewrite (second_line_no_explanation l (proj2 Hs)). reflexivity. }
  rewrite E. cbn [app]. unfold closing_lines. cbn [solution_lines].
  destruct (answer_text_facts (b_answer b) (b_letter b) Hm) as (_ & _ & _ & _ & -> & _).
  destruct (b_explanation b) as [e|]; [|reflexivity].
  cbn [explanation_lines solution_lines from_option] in *.
  destruct (explanation_line_facts e He) as [-> _].
  rewrite (ex_prefix_removed e He). reflexivity.
Qed.

Lemma fill_kept os t :
  (length os ≤ 5)%nat →
  fill 0 (map choice_stored os) (set_question t empty_question)
  = mkQuestion t (kept os 0) (kept os 1) (kept os 2) (kept os 3) (kept os 4)
               "" "" "" "".
Proof.
  intros H. do 6 (try destruct os as [|? os]); try reflexivity.
  cbn [length] in H. lia.
Qed.

Lemma build_block b :
  well_formed b → build_question (lines_of_block b) = record b.
Proof.
  intros Hb. pose proof Hb as (Hne & Hd & Hqt & Hs & Hlen & Ho & Hm & He).
  unfold build_question. rewrite (solution_lines_block b Hb).
  destruct (answer_text_facts (b_answer b) (b_letter b) Hm)
    as (_ & F1 & F2 & F3 & _ & F5).
  unfold lines_of_block, question_stage.
  destruct (number_line_stage (b_numbering b) _ _ Hne Hd Hqt) as [-> ->].
  destruct (b_choices b) as [|o os] eqn:Eo; [cbn [length] in Hlen; lia|].
  pose proof Ho as Ho'. apply Forall_cons in Ho' as [(Hmo & _) _].
  unfold choices_lines at 1. cbn [map concat]. fold (choices_lines os).
  unfold choice_lines at 1. cbn [app].
  rewrite (question_loop_second (b_second b) o _ Hs Hmo).
  change (first_line o :: (lines_of (c_second o) ++ choices_lines os)%list
                            ++ closing_lines b)%list
    with (choices_lines (o :: os) ++ closing_lines b)%list.
  unfold closing_lines.
  rewrite (options_loop_choices (o :: os) _ _ F1 F2 F3 Ho) by (cbn [Nat.add]; lia).
  rewrite fill_kept by lia.
  cbn [answer_loop]. rewrite F5. unfold record. rewrite Eo.
  destruct (b_explanation b) as [e|]; cbn [explanation_lines answer_loop from_option] in *.
  - destruct (explanation_line_facts e He) as [_ ->]. reflexivity.
  - reflexivity.
Qed.

(** A block of three lines or more, each of them one line: what the body
    of the loop over the blocks makes of it. *)
Lemma parse_text ls :
  ls ≠ [] → Forall one_line ls → (3 ≤ length ls)%nat →
  parse_block (text ls)
  = if Str.truthy (question (build_question ls))
       && (Str.truthy (option_1 (build_question ls))
           || Str.truthy (option_2 (build_question ls)))
    then Some (build_question ls) else None.
Proof.
  intros Hnil Hl Hlen. unfold parse_block.
  rewrite (strip_text _ Hnil Hl), (block_lines_text _ Hnil Hl).
  destruct (rstrip_text _ Hnil Hl) as [_ Ht].
  destruct (text ls) eqn:Et; [congruence|].
  cbn [Str.truthy negb].
  replace (length ls <? 3)%nat with false by (symmetry; apply Nat.ltb_ge; lia).
  reflexivity.
Qed.

Lemma lines_of_block_count b : well_formed b → (3 ≤ length (lines_of_block b))%nat.
Proof.
  intros (_ & _ & _ & _ & Hlen & _). unfold lines_of_block, closing_lines.
  cbn [length]. rewrite !length_app. cbn [length].
  destruct (b_choices b) as [|o os]; [cbn [length] in Hlen; lia|].
  unfold choices_lines, choice_lines. cbn [map concat length app]. lia.
Qed.

Lemma record_emitted b :
  well_formed b →
  Str.truthy (question (record b))
  && (Str.truthy (option_1 (record b)) || Str.truthy (option_2 (record b))) = true.
Proof.
  intros (_ & _ & Hqt & _ & Hlen & _). unfold record. cbn [question option_1].
  destruct (one_line_head _ Hqt) as (c & qt' & -> & _).
  destruct (b_choices b) as [|o os]; [cbn [length] in Hlen; lia|].
  assert (E1 : Str.truthy (kept (o :: os) 0) = true).
  { unfold kept, choice_stored. cbn [map nth].
    destruct o as [k m x sec]; destruct sec, k; reflexivity. }
  rewrite E1. destruct (lines_of (b_second b)); reflexivity.
Qed.

(** *** A file of blocks *)

(** The blocks, with an empty line between two of them. *)
Definition file (bs : list Block) : string :=
  Str.join empty_line (map written bs).

(** No dot in the texts of the block, and no option marker with a dot. *)
Definition dotless_choice (o : Choice) : Prop :=
  c_marker o ≠ Dot ∧ no_dot (c_text o) = true
  ∧ from_option (λ l, no_dot l = true) True (c_second o).

Definition dotless_block (b : Block) : Prop :=
  no_dot (b_text b) = true
  ∧ from_option (λ l, no_dot l = true) True (b_second b)
  ∧ Forall dotless_choice (b_choices b)
  ∧ from_option (λ e, no_dot e = true) True (b_explanation b).

(** The lines of a block, the first one without its number. *)
Definition body (b : Block) : list string :=
  b_text b :: lines_of (b_second b) ++ choices_lines (b_choices b) ++ closing_lines b.

Lemma written_body b :
  written b = number_text (b_numbering b) (b_number b) ++ text (body b).
Proof. unfold written, lines_of_block, body. apply text_head. Qed.

Lemma body_one_line b : well_formed b → Forall one_line (body b).
Proof.
  intros Hb. pose proof (lines_of_block_one_line b Hb) as H.
  destruct Hb as (_ & _ & Hqt & _).
  apply Forall_cons in H as [_ H]. apply Forall_cons. split; assumption.
Qed.

Lemma choices_no_dot os :
  Forall well_formed_choice os → Forall dotless_choice os →
  Forall (λ l, no_dot l = true) (choices_lines os).
Proof.
  induction 1 as [|o os (Hm & _) _ IH]; intros Hd; [constructor|].
  apply Forall_cons in Hd as [(Hk & Hx & Hs) Hd].
  unfold choices_lines. cbn [map concat]. apply Forall_app. split; [|exact (IH Hd)].
  unfold choice_lines. constructor.
  - unfold first_line. rewrite no_dot_app, Hx, andb_true_r.
    apply letter_cases in Hm.
    destruct (c_marker o); [|  |congruence];
      repeat (apply elem_of_cons in Hm as [-> | Hm]; [reflexivity|]); inversion Hm.
  - destruct (c_second o) as [l|]; [|constructor]. constructor; [exact Hs | constructor].
Qed.

Lemma body_no_dot b :
  well_formed b → dotless_block b → Forall (λ l, no_dot l = true) (body b).
Proof.
  intros (_ & _ & _ & _ & _ & Ho & Hm & _) (Hqt & Hs & Hos & He). unfold body.
  constructor; [exact Hqt|]. apply Forall_app. split.
  { destruct (b_second b) as [l|]; [|constructor]. constructor; [exact Hs | constructor]. }
  apply Forall_app. split; [apply choices_no_dot; assumption|].
  unfold closing_lines. constructor.
  - apply letter_cases in Hm.
    destruct (b_answer b);
      repeat (apply elem_of_cons in Hm as [-> | Hm]; [reflexivity|]); inversion Hm.
  - destruct (b_explanation b) as [e|]; [|constructor].
    constructor; [exact He | constructor].
Qed.

(** The block under another number. *)
Definition renumbered (num : string) (b : Block) : Block :=
  mkBlock (b_numbering b) num (b_text b) (b_second b) (b_choices b) (b_answer b)
          (b_letter b) (b_explanation b).

Lemma parse_renumbered num b :
  well_formed b → num ≠ "" → all_digits num = true →
  parse_block (written (renumbered num b)) = Some (record b).
Proof.
  intros (_ & _ & H) Hne Hd.
  assert (Hb : well_formed (renumbered num b)) by exact (conj Hne (conj Hd H)).
  unfold written.
  rewrite parse_text, (build_block _ Hb), (record_emitted _ Hb);
    [reflexivity | discriminate | apply lines_of_block_one_line, Hb
    | apply lines_of_block_count, Hb].
Qed.

Lemma digits_then_blank_quiet d ds rest :
  Str.isdigit d = true → all_digits ds = true →
  ahead_here (String d (ds ++ String " " rest)) = false.
Proof.
  intros Hd Hds. unfold ahead_here.
  assert (HQ : Q_here (String d (ds ++ String " " rest)) = false).
  { unfold Q_here. replace (member false (One "Q") d) with false.
    - destruct (ds ++ String " " rest) as [|? [|? ?]]; reflexivity.
    - symmetry. rewrite member_cs. cbn [mem].
      destruct (Ascii.eqb_spec d "Q") as [->|]; [discriminate Hd | reflexivity]. }
  rewrite HQ. cbn [orb]. unfold numbered_here.
  rewrite member_cs. cbn [mem]. rewrite Hd. cbn [andb].
  rewrite (skip_app _ ds " " _ (all_digits_in ds Hds) eq_refl). reflexivity.
Qed.

Lemma digits_then_blank_silent ds rest T :
  all_digits ds = true → all_silent (String " " rest) T →
  all_silent (ds ++ String " " rest) T.
Proof.
  intros Hds Hr. induction ds as [|d ds IH]; [exact Hr|].
  cbn [all_digits] in Hds. apply andb_true_iff in Hds as [Hd Hds].
  split; [|apply IH; exact Hds].
  change (String d (ds ++ String " " rest) ++ T)
    with (String d ((ds ++ String " " rest) ++ T)).
  rewrite str_app_assoc.
  change (String " " rest ++ T) with (String " " (rest ++ T)).
  apply silent_plain; [apply digit_not_newline; exact Hd|].
  apply digits_then_blank_quiet; assumption.
Qed.

(** The pieces of a block that is followed by [T]: pieces that give no
    record, then the block, under its number or the last digit of it. *)
Lemma block_pieces b T :
  well_formed b → dotless_block b → no_dot_line T = true →
  ∀ i, ∃ junk num i',
    Forall (λ x, parse_block x = None) junk
    ∧ num ≠ "" ∧ all_digits num = true
    ∧ split_go false block_sep i (written b ++ T) 0
      = (junk ++ push_all (written (renumbered num b))
                          (split_go false block_sep i' T 0))%list.
Proof.
  intros Hb Hd HT i.
  pose proof (body_one_line b Hb) as Hl.
  pose proof (body_no_dot b Hb Hd) as Hn.
  assert (Hne : body b ≠ []) by discriminate.
  destruct (text_starts _ Hne Hl) as (u & R' & ER & Hu).
  pose proof (ok_text_lines _ Hne Hl Hn) as Hok. rewrite ER in Hok.
  pose proof (ok_text_silent _ T Hok HT) as Hs.
  assert (Eb : ∀ num, written (renumbered num b)
                      = number_text (b_numbering b) num ++ String u R').
  { intros num. rewrite <- ER. exact (written_body (renumbered num b)). }
  assert (E0 : written b = written (renumbered (b_number b) b))
    by (destruct b; reflexivity).
  destruct Hb as (Hnum & Hds & _).
  rewrite E0, Eb. destruct (b_numbering b) eqn:Ek; cbn [number_text].
  - rewrite !str_app_assoc.
    change (". " ++ String u R' ++ T)
      with (String "." (String " " (String u (R' ++ T)))).
    destruct (member false (Range "A" "Z") u) eqn:Hcap.
    + destruct (b_number b) as [|d ds]; [congruence|].
      cbn [all_digits] in Hds. apply andb_true_iff in Hds as [Hd0 Hds].
      destruct (split_number_capital u R' T Hu Hs ds Hds Hcap d i Hd0)
        as (junk & last & i' & Hj & Hlast & E).
      exists ("" :: junk), (String last ""), i'.
      split; [constructor; [reflexivity | exact Hj]|].
      split; [discriminate|]. split; [cbn [all_digits]; rewrite Hlast; reflexivity|].
      rewrite E, Eb. cbn [number_text]. reflexivity.
    + exists [], (b_number b), (i + String.length (b_number b ++ String "." (String " " (String u R'))))%nat.
      split; [constructor|]. split; [exact Hnum|]. split; [exact Hds|].
      rewrite (split_number_plain u R' T Hu Hs (b_number b) i Hds Hcap), Eb.
      cbn [number_text]. rewrite str_app_assoc. reflexivity.
  - destruct (b_number b) as [|d ds] eqn:En; [congruence|].
    pose proof Hds as Hds'. cbn [all_digits] in Hds'.
    apply andb_true_iff in Hds' as [Hd0 Hds0].
    set (P := String "." (String d ds ++ " " ++ String u R')).
    assert (EP : ("Q." ++ String d ds ++ " ") ++ String u R' = String "Q" P).
    { rewrite !str_app_assoc. reflexivity. }
    assert (Hsil : all_silent P T).
    { split.
      - apply silent_plain; [reflexivity | apply ahead_here_first; reflexivity].
      - apply (digits_then_blank_silent (String d ds) (String u R') T Hds).
        split; [|exact Hs].
        apply silent_plain; [reflexivity | apply ahead_here_first; reflexivity]. }
    exists [""], (String d ds), (S i + String.length P)%nat.
    split; [repeat constructor|]. split; [discriminate|]. split; [exact Hds|].
    rewrite Eb; rewrite ?Ek. cbn [number_text]. rewrite EP.
    change (String "Q" P ++ T) with (String "Q" (P ++ T)).
    assert (Ha : ∀ ma, attempt false block_sep ma i (String "Q" (P ++ T))
                       = if ma then None else Some i).
    { intros ma. rewrite attempt_sep, (blank_not_newline "Q" _ i _ eq_refl).
      replace (ahead_here (String "Q" (P ++ T))) with true; [reflexivity|].
      symmetry. unfold ahead_here, Q_here, P.
      change (String "." (String d ds ++ " " ++ String u R') ++ T)
        with (String "." (String d ((ds ++ " " ++ String u R') ++ T))).
      rewrite !member_cs. cbn [mem]. rewrite Hd0. reflexivity. }
    cbn [split_go]. rewrite !Ha, Nat.eqb_refl.
    rewrite (split_go_silent P T Hsil (S i)). reflexivity.
Qed.

Lemma file_cons b b' bs :
  file (b :: b' :: bs) = written b ++ empty_line ++ file (b' :: bs).
Proof. reflexivity. Qed.

Lemma written_starts b :
  well_formed b → ∃ c r, written b = String c r ∧ Str.isspace c = false.
Proof.
  intros Hb. apply text_starts; [discriminate | apply lines_of_block_one_line, Hb].
Qed.

Lemma file_starts bs :
  bs ≠ [] → Forall well_formed bs →
  ∃ c r, file bs = String c r ∧ Str.isspace c = false.
Proof.
  intros Hne H. destruct bs as [|b bs]; [congruence|].
  apply Forall_cons in H as [Hb _].
  destruct (written_starts b Hb) as (c & r & E & Hc).
  destruct bs as [|b' bs].
  - exists c, r. split; [exact E | exact Hc].
  - rewrite file_cons, E. eexists c, _. split; [reflexivity | exact Hc].
Qed.

Lemma file_rstrip bs :
  bs ≠ [] → Forall well_formed bs →
  Str.rstrip (file bs) = file bs ∧ file bs ≠ "".
Proof.
  induction bs as [|b bs IH]; [congruence|]. intros _ H.
  apply Forall_cons in H as [Hb Hbs].
  assert (Hw : Str.rstrip (written b) = written b ∧ written b ≠ "").
  { apply rstrip_text; [discriminate | apply lines_of_block_one_line, Hb]. }
  destruct bs as [|b' bs]; [exact Hw|].
  destruct (IH ltac:(discriminate) Hbs) as [IH1 IH2].
  rewrite file_cons. split; [|destruct Hw as [_ Hw]; destruct (written b);
                                 [congruence | discriminate]].
  assert (E : Str.rstrip (empty_line ++ file (b' :: bs))
              = empty_line ++ file (b' :: bs)).
  { rewrite rstrip_app; rewrite IH1; [reflexivity | exact IH2]. }
  rewrite rstrip_app; rewrite E; [reflexivity | discriminate].
Qed.

Lemma file_strip bs : Forall well_formed bs → Str.strip (file bs) = file bs.
Proof.
  intros H. destruct bs as [|b bs]; [reflexivity|].
  unfold Str.strip.
  destruct (file_starts (b :: bs) ltac:(discriminate) H) as (c & r & E & Hc).
  assert (Hl : Str.lstrip (file (b :: bs)) = file (b :: bs)).
  { rewrite E. cbn [Str.lstrip]. rewrite Hc. reflexivity. }
  rewrite Hl. apply file_rstrip; [discriminate | exact H].
Qed.

Lemma file_pieces bs :
  Forall well_formed bs → Forall dotless_block bs → bs ≠ [] →
  ∀ i, omap parse_block (split_go false block_sep i (file bs) 0) = map record bs.
Proof.
  induction bs as [|b bs IH]; [congruence|]. intros Hw Hd _ i.
  apply Forall_cons in Hw as [Hw Hws]. apply Forall_cons in Hd as [Hd Hds].
  destruct bs as [|b' bs].
  - change (file [b]) with (written b). rewrite <- (str_app_nil (written b)).
    destruct (block_pieces b "" Hw Hd eq_refl i)
      as (junk & num & i' & Hj & Hne & Hnum & ->).
    cbn [split_go]. rewrite (silent_empty false i'), push_all_cons, str_app_nil.
    rewrite omap_app, (omap_dropped junk Hj). cbn [omap list_omap app map].
    rewrite (parse_renumbered num b Hw Hne Hnum). reflexivity.
  - rewrite file_cons.
    destruct (block_pieces b (empty_line ++ file (b' :: bs)) Hw Hd eq_refl i)
      as (junk & num & i' & Hj & Hne & Hnum & ->).
    destruct (file_starts (b' :: bs) ltac:(discriminate) Hws) as (c & r & E & Hc).
    assert (Hcut : split_go false block_sep i' (empty_line ++ file (b' :: bs)) 0
                   = "" :: split_go false block_sep (S (S i')) (file (b' :: bs)) 0).
    { rewrite E.
      change (empty_line ++ String c r) with (String "010" (String "010" (String c r))).
      cbn [split_go]. rewrite (blank_line c r i' Hc).
      replace (S (S i') =? i')%nat with false by (symmetry; apply Nat.eqb_neq; lia).
      replace (S (S i') - i' - 1)%nat with 1%nat by lia. reflexivity. }
    rewrite Hcut, push_all_cons, str_app_nil.
    rewrite omap_app, (omap_dropped junk Hj). cbn [omap list_omap app].
    rewrite (parse_renumbered num b Hw Hne Hnum).
    rewrite (IH Hws Hds ltac:(discriminate)). reflexivity.
Qed.

End Formats.

Import ParserMore Formats.

(** The two formats of the help message: a numbered question with second
    lines, the answer as "Correct option:-a" and an explanation; a question
    under "Q.1" with options in parentheses and the answer as "Answer: (a)". *)
Definition first_format : Block :=
  mkBlock Dotted "1" "Question in English" (Some "Question in Hindi")
          [mkChoice CloseParen "a" "Option 1 English" (Some "Option 1 Hindi");
           mkChoice CloseParen "b" "Option 2 English" (Some "Option 2 Hindi")]
          CorrectOption "a" (Some "Explanation text").

Definition second_format : Block :=
  mkBlock Qdot "12" "Question in English" (Some "Question in Hindi")
          [mkChoice Parens "a" "Option 1 English" (Some "Option 1 Hindi");
           mkChoice Parens "b" "Option 2 English" (Some "Option 2 Hindi")]
          AnswerParens "b" None.

Lemma first_format_well_formed : well_formed first_format.
Proof.
  repeat split; try reflexivity; try discriminate; cbn; try lia.
  repeat constructor; discriminate.
Qed.

Lemma second_format_well_formed : well_formed second_format.
Proof.
  repeat split; try reflexivity; try discriminate; cbn; try lia.
  repeat constructor; discriminate.
Qed.

Lemma blank_text_has_no_questions_witness :
  all_space (String " " (String "010" " ")) = true
  ∧ parse_txt_file (String " " (String "010" " ")) = [].
Proof.
  split; [reflexivity|].
  apply (blank_text_has_no_questions (String " " (String "010" " "))). reflexivity.
Defined.

(** X14: a block in one of the documented formats gives the record of what is
    written in it. The block: the question line "12. text" or "Q.12 text",
    possibly a second line of the question, one to five options, each a line
    "a) text", "(a) text" or "a. text" (letters a-e in either case) and
    possibly a second line, the answer line "Correct option:-b",
    "Answer: (b)" or "Answer: b", and possibly the line "ex: text". Every
    text is one line, not empty, with no blank at its ends; a second line
    starts like none of an option, an answer and an explanation. The record:
    the question without its number, with "<br>" and the second line; each
    option line whole, marker included, with "<br>" and its second line, in
    the slots 1, 2, ... in the order of the lines; the index of the answer
    letter; the explanation without its prefix; the scores "3" and "1". *)
Theorem written_block_is_recovered b :
  well_formed b → parse_block (written b) = Some (record b).
Proof.
  intros Hb. unfold written.
  rewrite parse_text, (build_block b Hb), (record_emitted b Hb).
  - reflexivity.
  - discriminate.
  - apply lines_of_block_one_line, Hb.
  - apply lines_of_block_count, Hb.
Qed.

Lemma written_block_is_recovered_witness :
  written first_format
  = text ["1. Question in English"; "Question in Hindi";
          "a) Option 1 English"; "Option 1 Hindi";
          "b) Option 2 English"; "Option 2 Hindi";
          "Correct option:-a"; "ex: Explanation text"]
  ∧ parse_block (written first_format)
    = Some (mkQuestion "Question in English<br>Question in Hindi"
                       "a) Option 1 English<br>Option 1 Hindi"
                       "b) Option 2 English<br>Option 2 Hindi" "" "" ""
                       "1" "Explanation text" "3" "1").
Proof.
  split; [reflexivity|].
  exact (written_block_is_recovered first_format first_format_well_formed).
Defined.

(** X15: a file of such blocks, with one empty line between two of them, no dot
    in the texts and no option marker with a dot, gives the records of the
    blocks, one for each, in the order of the file. *)
Theorem written_file_is_recovered bs :
  Forall well_formed bs → Forall dotless_block bs →
  parse_txt_file (file bs) = map record bs.
Proof.
  intros Hw Hd. unfold parse_txt_file. rewrite (file_strip bs Hw).
  destruct bs as [|b bs]; [reflexivity|].
  apply file_pieces; [exact Hw | exact Hd | discriminate].
Qed.

Lemma written_file_is_recovered_witness :
  file [first_format; second_format]
  = text ["1. Question in English"; "Question in Hindi";
          "a) Option 1 English"; "Option 1 Hindi";
          "b) Option 2 English"; "Option 2 Hindi";
          "Correct option:-a"; "ex: Explanation text"; "";
          "Q.12 Question in English"; "Question in Hindi";
          "(a) Option 1 English"; "Option 1 Hindi";
          "(b) Option 2 English"; "Option 2 Hindi";
          "Answer: (b)"]
  ∧ parse_txt_file (file [first_format; second_format])
    = [mkQuestion "Question in English<br>Question in Hindi"
                  "a) Option 1 English<br>Option 1 Hindi"
                  "b) Option 2 English<br>Option 2 Hindi" "" "" ""
                  "1" "Explanation text" "3" "1";
       mkQuestion "Question in English<br>Question in Hindi"
                  "(a) Option 1 English<br>Option 1 Hindi"
                  "(b) Option 2 English<br>Option 2 Hindi" "" "" ""
                  "2" "" "3" "1"].
Proof.
  split; [reflexivity|].
  apply (written_file_is_recovered [first_format; second_format]).
  - constructor; [exact first_format_well_formed|].
    constructor; [exact second_format_well_formed | constructor].
  - repeat constructor; discriminate.
Defined.

(* ===================================================================== *)
(** * The clock: [fmt] *)
(* ===================================================================== *)

Module Clock.

(** [s.padStart(n, "0")] *)
Fixpoint zeros (k : nat) : string :=
  match k with
  | O => ""
  | S k' => String "0" (zeros k')
  end.

Definition padStart (n : nat) (s : string) : string :=
  zeros (n - String.length s) ++ s.

(** [fmt(s)] on an integer: [Math.floor(s/60)] rounds down, [s%60] has the
    sign of [s], [String(...)] is the decimal numeral. *)
Definition fmt (s : Z) : string :=
  let m := (s / 60)%Z in
  let sec := Z.rem s 60 in
  padStart 2 (pretty m) ++ ":" ++ padStart 2 (pretty sec).

(** The digit of a value below ten. *)
Definition digit (z : Z) : ascii := ascii_of_N (48 + Z.to_N z).

(** "MM:SS" *)
Definition clock (s : Z) : string :=
  String (digit (s / 600)) (String (digit (s / 60 mod 10))
    (String ":" (String (digit (s mod 60 / 10)) (String (digit (s mod 10)) "")))).

Definition fmt_is_clock (s : Z) : bool := String.eqb (fmt s) (clock s).

Lemma fmt_is_clock_below_6000 :
  forallb fmt_is_clock (seqZ 0 6000) = true.
Proof. vm_compute. reflexivity. Qed.

End Clock.

Import Clock.

(** X16: up to 99 minutes and 59 seconds the clock reads "MM:SS", the minutes
    and the seconds of the value, each with two digits. *)
Theorem fmt_minutes_and_seconds s :
  (0 ≤ s < 6000)%Z → fmt s = clock s.
Proof.
  intros Hs. pose proof fmt_is_clock_below_6000 as H.
  rewrite forallb_forall in H.
  specialize (H s). apply String.eqb_eq. apply H.
  apply list_elem_of_In, elem_of_seqZ. lia.
Qed.

Lemma fmt_minutes_and_seconds_witness :
  fmt 754 = "12:34".
Proof. exact (fmt_minutes_and_seconds 754 ltac:(lia)). Defined.

Lemma pretty_positive_not_empty (p : positive) : pretty p ≠ "".
Proof.
  unfold pretty, pretty_positive, pretty, pretty_N.
  destruct (decide (N.pos p = 0%N)); [discriminate|].
  rewrite pretty_N_go_step by lia.
  apply SessionProps.pretty_N_go_not_empty. discriminate.
Qed.

(** X17: below zero the clock starts with a minus sign; no zero is put before
    it. *)
Theorem fmt_below_zero s :
  (s < 0)%Z → ∃ rest, fmt s = String "-" rest.
Proof.
  intros Hs. unfold fmt.
  assert (Hm : (s / 60 < 0)%Z) by (apply Z.div_lt_upper_bound; lia).
  destruct (s / 60)%Z as [|p|p] eqn:E; try lia.
  change (pretty (Z.neg p)) with (String "-" (pretty p)).
  pose proof (pretty_positive_not_empty p) as Hp.
  destruct (pretty p) as [|c x]; [congruence|].
  eexists. reflexivity.
Qed.

Lemma fmt_below_zero_witness :
  fmt (-1) = "-1:-1" ∧ ∃ rest, fmt (-1) = String "-" rest.
Proof. split; [reflexivity|]. apply (fmt_below_zero (-1)). lia. Defined.

(* ===================================================================== *)
(** * The leaderboard: attempts that tie *)
(* ===================================================================== *)

Module BoardMore.
Import Board BoardProps.

(** The same score in the same time. *)
Definition tied (a b : Attempt) : Prop :=
  score a = score b ∧ timeTaken a = timeTaken b.

#[export] Instance tied_dec a b : Decision (tied a b).
Proof. unfold tied. apply _. Defined.

Lemma tied_not_after k a b : tied k a → tied k b → (comparefn a b ?= 0)%Qc ≠ Gt.
Proof.
  intros [S1 T1] [S2 T2] H. pose proof (comparefn_spec a b) as Hc.
  rewrite H in Hc. destruct Hc as [Hlt|[_ Ht]].
  - rewrite <- S1, <- S2 in Hlt. exact (Qclt_not_eq _ _ Hlt eq_refl).
  - lia.
Qed.

Lemma filter_insert k a l :
  filter (tied k) (insert a l) = filter (tied k) (a :: l).
Proof.
  induction l as [|b l IH]; [reflexivity|].
  cbn [insert]. destruct (comparefn a b ?= 0)%Qc eqn:C; try reflexivity.
  rewrite filter_cons, IH, !filter_cons.
  destruct (decide (tied k b)) as [Hb|Hb], (decide (tied k a)) as [Ha|Ha];
    try reflexivity.
  exfalso. exact (tied_not_after k a b Ha Hb C).
Qed.

End BoardMore.

Import BoardMore.

(** X18: the sort of the leaderboard is stable: the attempts with one score and
    one time stand in the order in which the database gave them. *)
Theorem ties_keep_their_order (k : Attempt) (l : list Attempt) :
  filter (tied k) (sort l) = filter (tied k) l.
Proof.
  induction l as [|a l IH]; [reflexivity|].
  cbn [sort]. rewrite filter_insert, !filter_cons, IH. reflexivity.
Qed.

(* ===================================================================== *)
(** * The name of the file that [get_creator] writes *)
(* ===================================================================== *)

Module FileName.
Import Re.

(** [\w] on one character, code points 0..255: the digits, the letters,
    the underscore, and the letters and numerals above 127. *)
Definition isword (c : ascii) : bool :=
  let n := N_of_ascii c in
  (((48 <=? n) && (n <=? 57)) || ((65 <=? n) && (n <=? 90)) || (n =? 95)
   || ((97 <=? n) && (n <=? 122)) || (n =? 170) || ((178 <=? n) && (n <=? 179))
   || (n =? 181) || ((185 <=? n) && (n <=? 186)) || ((188 <=? n) && (n <=? 190))
   || ((192 <=? n) && (n <=? 214)) || ((216 <=? n) && (n <=? 246))
   || ((248 <=? n) && (n <=? 255)))%N.

(** [re.sub(cls, '', s)] for a class [cls] of single characters: the
    characters of [s] that are not in the class, here given by the
    characters [p] that stay. *)
Fixpoint keep (p : ascii -> bool) (s : string) : string :=
  match s with
  | EmptyString => EmptyString
  | String c s' => if p c then String c (keep p s') else keep p s'
  end.

(** [\w\s-], the complement of the class [^\w\s-]. *)
Definition stays (c : ascii) : bool :=
  isword c || Str.isspace c || Ascii.eqb c "-".

(** [r'[-\s]+'] *)
Definition hyphens_and_blanks : regex := Plus (Either (One "-") Space).

(** [re.sub(r, repl, s)] for a pattern without capturing groups: the pieces
    between the matches, with [repl] for each match. *)
Definition re_sub (ic : bool) (r : regex) (repl s : string) : string :=
  String.concat repl (re_split ic r s).

(** The two [re.sub] lines of [get_creator], and the name of the file. *)
Definition safe_name (name : string) : string :=
  let safe_name := keep stays name in
  re_sub false hyphens_and_blanks "_" safe_name.

Definition html_file (name : string) : string := safe_name name ++ ".html".

Fixpoint all_chars (p : ascii -> bool) (s : string) : bool :=
  match s with
  | EmptyString => true
  | String c s' => p c && all_chars p s'
  end.

Lemma all_chars_app p a b : all_chars p (a ++ b) = all_chars p a && all_chars p b.
Proof.
  induction a as [|c a IH]; [reflexivity|].
  change (String c a ++ b) with (String c (a ++ b)). cbn [all_chars].
  rewrite IH, andb_assoc. reflexivity.
Qed.

Lemma all_chars_impl (p q : ascii -> bool) s :
  (∀ c, p c = true → q c = true) → all_chars p s = true → all_chars q s = true.
Proof.
  intros H. induction s as [|c s IH]; [reflexivity|]. cbn [all_chars].
  intros E. apply andb_true_iff in E as [Hc Hs]. rewrite (H c Hc), (IH Hs).
  reflexivity.
Qed.

Lemma keep_all p s : all_chars p (keep p s) = true.
Proof.
  induction s as [|c s IH]; [reflexivity|]. cbn [keep].
  destruct (p c) eqn:Hc; [cbn [all_chars]; rewrite Hc|]; exact IH.
Qed.

Lemma keep_same p s : all_chars p s = true → keep p s = s.
Proof.
  induction s as [|c s IH]; [reflexivity|]. cbn [all_chars keep].
  intros E. apply andb_true_iff in E as [Hc Hs]. rewrite Hc, (IH Hs). reflexivity.
Qed.

(** *** The pieces between runs of one class *)

Section Runs.
Variable cs : cset.

Let inside (c : ascii) : bool := member false cs c.

Lemma star_first (p : ascii -> bool) s :
  ∀ i, ∃ j, star p i s (λ j _, Some j) = Some j ∧ (i ≤ j)%nat.
Proof.
  induction s as [|c s IH]; intros i; [exists i; auto|].
  cbn [star]. destruct (p c); [|exists i; auto].
  destruct (IH (S i)) as (j & -> & Hj). exists j. split; [reflexivity | lia].
Qed.

Lemma attempt_plus i c s :
  attempt false (Plus cs) false i (String c s)
  = if inside c then attempt false (Plus cs) false i (String c s) else None.
Proof.
  unfold attempt, inside. cbn [run andb]. destruct (member false cs c); reflexivity.
Qed.

Lemma attempt_plus_far i c s j :
  attempt false (Plus cs) false i (String c s) = Some j →
  inside c = true ∧ (i < j)%nat.
Proof.
  unfold attempt, inside. cbn [run andb]. destruct (member false cs c); [|discriminate].
  destruct (star_first (member false cs) s (S i)) as (j' & E & Hj).
  intros H. split; [reflexivity|].
  assert (E' : star (member false cs) (S i) s (λ j _, Some j) = Some j) by exact H.
  rewrite E in E'. injection E' as <-. lia.
Qed.

Lemma attempt_plus_outside i c s :
  inside c = false → attempt false (Plus cs) false i (String c s) = None.
Proof. intros H. rewrite attempt_plus, H. reflexivity. Qed.

Lemma push_pieces (p : ascii -> bool) c pieces :
  p c = true → Forall (λ x, all_chars p x = true) pieces →
  Forall (λ x, all_chars p x = true) (push c pieces).
Proof.
  intros Hc H. destruct H as [|x l Hx Hl]; cbn [push].
  - repeat constructor. cbn [all_chars]. rewrite Hc. reflexivity.
  - constructor; [cbn [all_chars]; rewrite Hc; exact Hx | exact Hl].
Qed.

(** Every piece is made of characters of the text that are not in the
    class. *)
Lemma split_pieces (p : ascii -> bool) s :
  all_chars p s = true →
  ∀ i skip,
    Forall (λ x, all_chars (λ c, p c && negb (inside c)) x = true)
           (split_go false (Plus cs) i s skip).
Proof.
  induction s as [|c s IH]; intros Hs i skip.
  - cbn [split_go]. destruct skip; [|repeat constructor].
    destruct (attempt false (Plus cs) false i ""); repeat constructor.
  - cbn [all_chars] in Hs. apply andb_true_iff in Hs as [Hc Hs].
    cbn [split_go]. destruct skip as [|n]; [|apply IH; exact Hs].
    destruct (attempt false (Plus cs) false i (String c s)) as [j|] eqn:E.
    + apply attempt_plus_far in E as [_ Hj].
      replace (j =? i)%nat with false by (symmetry; apply Nat.eqb_neq; lia).
      constructor; [reflexivity | apply IH; exact Hs].
    + apply push_pieces; [|apply IH; exact Hs].
      rewrite Hc. cbn [andb]. destruct (inside c) eqn:Hin; [|reflexivity].
      exfalso. unfold attempt in E. cbn [run andb] in E. fold (inside c) in E.
      rewrite Hin in E.
      destruct (star_first (member false cs) s (S i)) as (j' & E' & _).
      assert (E2 : star (member false cs) (S i) s (λ j _, Some j) = None) by exact E.
      rewrite E' in E2. discriminate E2.
Qed.

(** A text with no character of the class is one piece. *)
Lemma split_none s :
  all_chars (λ c, negb (inside c)) s = true →
  ∀ i, split_go false (Plus cs) i s 0 = [s].
Proof.
  induction s as [|c s IH]; intros Hs i; [reflexivity|].
  cbn [all_chars] in Hs. apply andb_true_iff in Hs as [Hc Hs].
  apply negb_true_iff in Hc.
  cbn [split_go]. rewrite (attempt_plus_outside i c s Hc), (IH Hs). reflexivity.
Qed.

End Runs.

Lemma concat_pieces (p : ascii -> bool) sep pieces :
  all_chars p sep = true → Forall (λ x, all_chars p x = true) pieces →
  all_chars p (String.concat sep pieces) = true.
Proof.
  intros Hsep H. induction H as [|x l Hx Hl IH]; [reflexivity|].
  destruct l as [|y l]; [exact Hx|].
  change (String.concat sep (x :: y :: l)) with (x ++ sep ++ String.concat sep (y :: l)).
  rewrite !all_chars_app, Hx, Hsep, IH. reflexivity.
Qed.

Lemma word_stays c : isword c = true → stays c = true.
Proof. intros H. unfold stays. rewrite H. reflexivity. Qed.

Lemma word_not_inside c :
  isword c = true → member false (Either (One "-") Space) c = false.
Proof.
  destruct c as [[] [] [] [] [] [] [] []]; intros H; try discriminate H; reflexivity.
Qed.

Lemma stays_outside_word c :
  stays c && negb (member false (Either (One "-") Space) c) = true → isword c = true.
Proof.
  destruct c as [[] [] [] [] [] [] [] []]; intros H; try discriminate H; reflexivity.
Qed.

Lemma safe_name_words name : all_chars isword (safe_name name) = true.
Proof.
  unfold safe_name, re_sub, re_split. apply concat_pieces; [reflexivity|].
  eapply Forall_impl;
    [apply (split_pieces (Either (One "-") Space) stays), keep_all|].
  intros x Hx. cbn beta in Hx. revert Hx. apply all_chars_impl.
  exact stays_outside_word.
Qed.

Lemma safe_name_of_words s : all_chars isword s = true → safe_name s = s.
Proof.
  intros H. unfold safe_name, re_sub, re_split.
  rewrite (keep_same stays s (all_chars_impl _ _ s word_stays H)).
  unfold hyphens_and_blanks. rewrite split_none; [reflexivity|].
  revert H. apply all_chars_impl. intros c Hc.
  rewrite (word_not_inside c Hc). reflexivity.
Qed.

Lemma all_chars_list p s :
  all_chars p s = true → ∀ c, c ∈ list_ascii_of_string s → p c = true.
Proof.
  induction s as [|x s IH]; cbn [all_chars list_ascii_of_string]; intros H c Hc.
  - inversion Hc.
  - apply andb_true_iff in H as [Hx Hs].
    apply elem_of_cons in Hc as [->|Hc]; [exact Hx | exact (IH Hs c Hc)].
Qed.

Lemma keep_none p s : all_chars (λ c, negb (p c)) s = true → keep p s = "".
Proof.
  induction s as [|c s IH]; [reflexivity|]. cbn [all_chars keep].
  intros E. apply andb_true_iff in E as [Hc Hs]. apply negb_true_iff in Hc.
  rewrite Hc. exact (IH Hs).
Qed.

End FileName.

Import FileName.

(** X19: the name that [get_creator] gives the file holds word characters only
    (letters, digits, the underscore): no slash, no backslash and no dot, so
    the file that is written and removed is one of the working directory. *)
Theorem safe_name_is_a_plain_name name c :
  c ∈ list_ascii_of_string (safe_name name) →
  isword c = true ∧ c ≠ "/"%char ∧ c ≠ "092"%char ∧ c ≠ "."%char.
Proof.
  intros Hc. pose proof (all_chars_list _ _ (safe_name_words name) c Hc) as Hw.
  split; [exact Hw|]. repeat split; intros ->; discriminate Hw.
Qed.

Lemma safe_name_is_a_plain_name_witness :
  safe_name "../My Quiz: 1/2" = "My_Quiz_12"
  ∧ isword "_" = true ∧ "_"%char ≠ "/"%char ∧ "_"%char ≠ "092"%char
  ∧ "_"%char ≠ "."%char.
Proof.
  split; [reflexivity|].
  apply (safe_name_is_a_plain_name "../My Quiz: 1/2" "_").
  vm_compute. set_solver.
Defined.

(** X20: a name that was made safe stays as it is when it is made safe again. *)
Theorem safe_name_twice name : safe_name (safe_name name) = safe_name name.
Proof. apply safe_name_of_words, safe_name_words. Qed.

(** X21: a quiz name with no letter, digit, underscore, blank or hyphen gives the
    file ".html". *)
Theorem name_of_signs_only name :
  all_chars (λ c, negb (stays c)) name = true → html_file name = ".html".
Proof.
  intros H. unfold html_file, safe_name. rewrite (keep_none stays name H).
  reflexivity.
Qed.

Lemma name_of_signs_only_witness :
  all_chars (λ c, negb (stays c)) "???" = true ∧ html_file "???" = ".html".
Proof. split; [reflexivity|]. apply (name_of_signs_only "???"). reflexivity. Defined.

(* ===================================================================== *)
(** * [generate_html_quiz]: the questions of the page *)
(* ===================================================================== *)

Module Generate.
Import Parser.

(** [quiz_data], the [user_data] of the conversation: the parsed questions,
    the name of the quiz and what was chosen, if anything, for the marks,
    the negative marks and the time. *)
Record QuizData : Type := mkQuizData {
  questions : list Question;
  name : string;
  marks : option string;
  negative : option string;
  time : option string
}.

(** A question dict after the loop of [generate_html_quiz]: the keys of the
    parser, with ["id"] and ["quiz_id"]. *)
Record Numbered : Type := mkNumbered {
  id : string;
  quiz_id : string;
  body : Question
}.

(** The body of [for i, q in enumerate(quiz_data["questions"])], without
    the text that [json.dumps] makes of [q]. *)
Definition number (qd : QuizData) (i : nat) (q : Question) : Numbered :=
  mkNumbered (pretty (50000 + Z.of_nat i + 1)%Z) (name qd)
             (set_scores (default "3" (marks qd)) (default "1" (negative qd)) q).

Fixpoint number_from (qd : QuizData) (i : nat) (qs : list Question) : list Numbered :=
  match qs with
  | [] => []
  | q :: qs' => number qd i q :: number_from qd (S i) qs'
  end.

Definition numbered_questions (qd : QuizData) : list Numbered :=
  number_from qd 0 (questions qd).

Lemma ids_from qd qs :
  ∀ i, map id (number_from qd i qs)
       = map (λ k, pretty (50000 + Z.of_nat k + 1)%Z) (seq i (length qs)).
Proof.
  induction qs as [|q qs IH]; intros i; [reflexivity|].
  cbn [number_from map length seq id number]. rewrite IH. reflexivity.
Qed.

End Generate.

Import Generate.

(** X22: [generate_html_quiz] gives the questions the identifiers 50001, 50002,
    ... in the order of the list: no two questions of a page have the same
    identifier. *)
Theorem generated_ids_are_distinct (qd : QuizData) :
  map Generate.id (numbered_questions qd)
  = map (λ k, pretty (50001 + Z.of_nat k)%Z) (seq 0 (length (questions qd)))
  ∧ NoDup (map Generate.id (numbered_questions qd)).
Proof.
  assert (E : map Generate.id (numbered_questions qd)
              = map (λ k, pretty (50001 + Z.of_nat k)%Z) (seq 0 (length (questions qd)))).
  { unfold numbered_questions. rewrite ids_from. apply map_ext. intros k.
    f_equal. lia. }
  split; [exact E|]. rewrite E.
  apply NoDup_fmap_2; [|apply NoDup_seq].
  intros j k H. apply (inj pretty) in H. lia.
Qed.

(* ===================================================================== *)
(** * The palette: [highlightPalette] *)
(* ===================================================================== *)

Module Palette.
Import Page.

(** The class that a palette button gets. *)
Inductive Mark : Type := IsCurrent | IsMarked | IsAttempted | IsUnattempted.

(** The numbers of [#palette-summary]. *)
Record Summary : Type := mkSummary {
  total : nat;
  attempted : nat;
  notAttempted : Z;
  marked : nat
}.

Section Buttons.
Variable QUESTIONS : list Q.
Variable g : Globals.

(** [answers[qid]] is truthy. *)
Definition answered (q : Q) : bool :=
  match answers g !! id q with
  | Some a => Str.truthy a
  | None => false
  end.

(** The body of the [forEach] over the buttons. *)
Definition button (idx : nat) (q : Q) : Mark :=
  if Nat.eqb idx (current g) then IsCurrent
  else if bool_decide (idx ∈ markedForReview g) then IsMarked
  else if answered q then IsAttempted
  else IsUnattempted.

Definition summary : Summary :=
  let total := length QUESTIONS in
  let attempted := size (answers g) in
  let marked := size (markedForReview g) in
  let notAttempted := (Z.of_nat total - Z.of_nat attempted - Z.of_nat marked)%Z in
  mkSummary total attempted notAttempted marked.

(** The classes of the buttons, in order, and the summary, once
    [buildPalette] has made the buttons. *)
Definition highlightPalette : list Mark * Summary :=
  (imap button QUESTIONS, summary).

(** The questions, each with its index. *)
Definition indexed : list (nat * Q) := imap pair QUESTIONS.

Definition is_marked (iq : nat * Q) : bool := bool_decide (iq.1 ∈ markedForReview g).
Definition is_answered (iq : nat * Q) : bool := answered iq.2.

Definition count (p : nat * Q -> bool) : nat :=
  length (filter (λ iq, p iq = true) indexed).

End Buttons.

Lemma count_split {A} (p q : A -> bool) (l : list A) :
  length (filter (λ x, p x = true) l)
  = (length (filter (λ x, p x && q x = true) l)
     + length (filter (λ x, p x && negb (q x) = true) l))%nat.
Proof.
  induction l as [|x l IH]; [reflexivity|]. rewrite !filter_cons.
  destruct (p x), (q x); cbn [andb negb]; repeat case_decide; try congruence;
    cbn [length]; rewrite IH; lia.
Qed.

Lemma count_all {A} (p : A -> bool) (l : list A) :
  length l
  = (length (filter (λ x, p x = true) l)
     + length (filter (λ x, negb (p x) = true) l))%nat.
Proof.
  induction l as [|x l IH]; [reflexivity|]. rewrite !filter_cons.
  destruct (p x); cbn [negb]; repeat case_decide; try congruence;
    cbn [length]; rewrite IH; lia.
Qed.

Lemma count_ext {A} (p q : A -> bool) (l : list A) :
  (∀ x, p x = q x) →
  length (filter (λ x, p x = true) l) = length (filter (λ x, q x = true) l).
Proof.
  intros H. induction l as [|x l IH]; [reflexivity|]. rewrite !filter_cons.
  rewrite <- (H x). destruct (p x); repeat case_decide; try congruence;
    cbn [length]; rewrite IH; reflexivity.
Qed.

Lemma filter_indexed {A} (f : A -> bool) (l : list A) :
  ∀ k, length (filter (λ iq : nat * A, f iq.2 = true) (imap (λ i q, (k + i, q)%nat) l))
       = length (filter (λ q, f q = true) l).
Proof.
  induction l as [|x l IH]; intros k; [reflexivity|].
  rewrite imap_cons, !filter_cons. cbn [snd].
  rewrite (imap_ext _ (λ i q, (S k + i, q)%nat)) by (intros ? ? _; unfold compose; apply pair_equal_spec; split; [lia | reflexivity]).
  destruct (f x); repeat case_decide; try congruence; cbn [length];
    rewrite IH; reflexivity.
Qed.

Lemma fst_indexed {A} (l : list A) :
  ∀ k, (imap (λ i q, (k + i, q)%nat) l).*1 = seq k (length l).
Proof.
  induction l as [|x l IH]; intros k; [reflexivity|].
  rewrite imap_cons. cbn [fmap list_fmap fst length seq].
  rewrite (imap_ext _ (λ i q, (S k + i, q)%nat)) by (intros ? ? _; unfold compose; apply pair_equal_spec; split; [lia | reflexivity]).
  rewrite Nat.add_0_r. f_equal. apply IH.
Qed.

Lemma filter_fst {A} (P : nat -> Prop) `{∀ n, Decision (P n)} (l : list (nat * A)) :
  length (filter (λ iq : nat * A, P iq.1) l) = length (filter P (l.*1)).
Proof.
  induction l as [|[i q] l IH]; [reflexivity|].
  cbn [fmap list_fmap]. rewrite !filter_cons. cbn [fst].
  destruct (decide (P i)); cbn [length]; rewrite IH; reflexivity.
Qed.

Section Counts.
Variable QUESTIONS : list Q.
Variable g : Globals.

Hypothesis distinct_ids : NoDup (map id QUESTIONS).
Hypothesis answers_ok : answers_of QUESTIONS (answers g).
Hypothesis marks_ok : ∀ i, i ∈ markedForReview g → (i < length QUESTIONS)%nat.

Lemma count_answered : count QUESTIONS (is_answered g) = size (answers g).
Proof.
  destruct answers_ok as [Hk Hv].
  rewrite (size_answers QUESTIONS (answers g) distinct_ids Hk).
  unfold count, indexed, is_answered, answered_records.
  rewrite (imap_ext _ (λ i q, (0 + i, q)%nat)) by reflexivity.
  rewrite (filter_indexed (answered g) QUESTIONS 0).
  f_equal. apply list_filter_iff. intros q. unfold answered.
  destruct (answers g !! id q) as [a|] eqn:E.
  - split; [eauto|]. intros _.
    destruct a; [exfalso; exact (Hv _ _ E eq_refl) | reflexivity].
  - split; [discriminate | intros [? ?]; congruence].
Qed.

Lemma count_marked : count QUESTIONS (is_marked g) = size (markedForReview g).
Proof.
  unfold count, indexed, is_marked.
  rewrite (imap_ext _ (λ i q, (0 + i, q)%nat)) by reflexivity.
  assert (E : ∀ l : list (nat * Q),
             length (filter (λ iq, bool_decide (iq.1 ∈ markedForReview g) = true) l)
             = length (filter (λ iq : nat * Q, iq.1 ∈ markedForReview g) l)).
  { intros l. induction l as [|x l IH]; [reflexivity|]. rewrite !filter_cons.
    destruct (decide (x.1 ∈ markedForReview g)) as [Hx|Hx].
    - rewrite decide_True by (apply bool_decide_eq_true; exact Hx).
      cbn [length]. rewrite IH. reflexivity.
    - rewrite decide_False by (rewrite bool_decide_eq_true; exact Hx). exact IH. }
  rewrite E.
  pose proof (filter_fst (λ i, i ∈ markedForReview g)
                         (imap (λ i q, (0 + i, q)%nat) QUESTIONS)) as F.
  cbn beta in F. rewrite F, fst_indexed.
  rewrite <- (size_list_to_set (C := gset nat))
    by (apply NoDup_filter, NoDup_seq).
  f_equal. apply set_eq. intros i.
  rewrite elem_of_list_to_set, list_elem_of_filter, elem_of_seq.
  split; [intros [H _]; exact H|]. intros H. split; [exact H|].
  specialize (marks_ok i H). lia.
Qed.

Lemma palette_numbers :
  notAttempted (summary QUESTIONS g)
  = (Z.of_nat (count QUESTIONS (λ iq, negb (is_answered g iq) && negb (is_marked g iq)))
     - Z.of_nat (count QUESTIONS (λ iq, is_answered g iq && is_marked g iq)))%Z.
Proof.
  unfold summary. cbn [notAttempted].
  rewrite <- count_answered, <- count_marked. unfold count.
  assert (HN : length QUESTIONS = length (indexed QUESTIONS))
    by (unfold indexed; rewrite length_imap; reflexivity).
  rewrite HN, (count_all (is_answered g) (indexed QUESTIONS)).
  rewrite (count_split (λ iq, negb (is_answered g iq)) (is_marked g)).
  rewrite (count_split (is_marked g) (is_answered g)).
  rewrite (count_ext (λ iq, is_marked g iq && is_answered g iq)
                     (λ iq, is_answered g iq && is_marked g iq))
    by (intros; apply andb_comm).
  rewrite (count_ext (λ iq, is_marked g iq && negb (is_answered g iq))
                     (λ iq, negb (is_answered g iq) && is_marked g iq))
    by (intros; apply andb_comm).
  lia.
Qed.

End Counts.

End Palette.

Import Palette.

(** X23: the "Unattempted" number of the palette is the number of questions that
    are neither answered nor marked for review, less the number of those
    that are answered and marked as well: a question that is both is taken
    off twice. *)
Theorem palette_counts_marked_answers_twice (QUESTIONS : list Page.Q) (g : Page.Globals) :
  NoDup (map Page.id QUESTIONS) →
  answers_of QUESTIONS (Page.answers g) →
  (∀ i, i ∈ Page.markedForReview g → (i < length QUESTIONS)%nat) →
  notAttempted (highlightPalette QUESTIONS g).2
  = (Z.of_nat (count QUESTIONS (λ iq, negb (is_answered g iq) && negb (is_marked g iq)))
     - Z.of_nat (count QUESTIONS (λ iq, is_answered g iq && is_marked g iq)))%Z.
Proof. intros H1 H2 H3. apply palette_numbers; assumption. Qed.

(** The first question answered and marked for review, the second one
    open and shown. *)
Definition marked_and_answered : Page.Globals :=
  Page.mkGlobals 1 {[ "50001" := "2" ]} {[ 0%nat ]} 60 true false.

Lemma palette_counts_marked_answers_twice_witness :
  highlightPalette two_questions marked_and_answered
  = ([IsMarked; IsCurrent], mkSummary 2 1 0 1)
  ∧ count two_questions
          (λ iq, negb (is_answered marked_and_answered iq)
                 && negb (is_marked marked_and_answered iq)) = 1%nat
  ∧ notAttempted (highlightPalette two_questions marked_and_answered).2
    = (Z.of_nat (count two_questions
                       (λ iq, negb (is_answered marked_and_answered iq)
                              && negb (is_marked marked_and_answered iq)))
       - Z.of_nat (count two_questions
                         (λ iq, is_answered marked_and_answered iq
                                && is_marked marked_and_answered iq)))%Z.
Proof.
  split; [vm_compute; reflexivity|]. split; [vm_compute; reflexivity|].
  apply (palette_counts_marked_answers_twice two_questions marked_and_answered).
  - exact two_questions_distinct.
  - split.
    + intros k [v Hk]. cbn in Hk. apply lookup_singleton_Some in Hk as [<- _].
      set_solver.
    + intros k v Hk. cbn in Hk. apply lookup_singleton_Some in Hk as [_ <-].
      discriminate.
  - intros i Hi. cbn in Hi. apply elem_of_singleton in Hi as ->. cbn. lia.
Defined.

(* ===================================================================== *)
(** * The quiz page: which answers can be stored *)
(* ===================================================================== *)

Module ChoiceProps.
Import Page PageProps.

Section Choices.

Variable QUESTIONS : list Q.
Variable TOTAL_TIME_SECONDS : Z.
Variable currentUser : User.
Variable review_html : Payload -> gmap string string -> string.

Local Abbreviation deliver := (deliver QUESTIONS TOTAL_TIME_SECONDS currentUser review_html).
Local Abbreviation run_events := (run_events QUESTIONS TOTAL_TIME_SECONDS currentUser review_html).

(** [v] is the number of an option of a question with the identifier [k],
    and that option is not empty. *)
Definition shown_option (k v : string) : Prop :=
  ∃ q n, q ∈ QUESTIONS ∧ id q = k ∧ v = pretty n
         ∧ Str.truthy (nth (n - 1) (options q) "") = true.

Definition shown_options (a : gmap string string) : Prop :=
  ∀ k v, a !! k = Some v → shown_option k v.

Definition stored_shown (it : option (Item Snapshot)) : Prop :=
  match it with
  | Some (Json s) => shown_options (default ∅ (s_answers s))
  | _ => True
  end.

Definition choices_ok (p : page) : Prop :=
  shown_options (answers (js p)) ∧ stored_shown (ls_state p).

Lemma shown_options_empty : shown_options ∅.
Proof. intros k v Hk. rewrite lookup_empty in Hk. discriminate. Qed.

Lemma shown_options_insert a q (val : nat) :
  q ∈ QUESTIONS → Str.truthy (nth (val - 1) (options q) "") = true →
  shown_options a → shown_options (<[id q := pretty val]> a).
Proof.
  intros Hq Ho Ha k v Hk. apply lookup_insert_Some in Hk as [[<- <-]|[_ Hk]].
  - exists q, val. auto.
  - apply Ha, Hk.
Qed.

Lemma shown_options_delete a k : shown_options a → shown_options (delete k a).
Proof.
  intros Ha k' v Hk. apply lookup_delete_Some in Hk as [_ Hk]. apply Ha, Hk.
Qed.

Lemma initQuiz_choices st res db :
  stored_shown st →
  choices_ok (snd (initQuiz QUESTIONS (loaded TOTAL_TIME_SECONDS st res db))).
Proof.
  intros Hst.
  unfold Page.initQuiz, JSON_parse, showSavedResult, startTimer, attachListeners,
    renderQuestion, saveQuizState, bind, modify, get, ret, throw, loaded.
  cbn.
  pose proof shown_options_empty as He.
  destruct res as [[raw|data]|]; cbn;
    [split; cbn; auto | |];
    try (destruct (submitted data && Str.truthy (resultHTML data)); cbn;
         [destruct (headerHTML data); cbn; split; cbn; auto|]);
    (destruct st as [[raw'|[c a sec m]]|]; cbn in *;
     [split; cbn; auto
     |destruct m; cbn;
      destruct (QUESTIONS !! default 0%nat c); cbn; split; cbn; auto
     |destruct (QUESTIONS !! 0%nat); cbn; split; cbn; auto]).
Qed.

Lemma handler_choices e p :
  choices_ok p →
  choices_ok (snd (handler QUESTIONS TOTAL_TIME_SECONDS currentUser review_html e p)).
Proof.
  intros [Ha Hs].
  assert (Hd : ∀ k, shown_options (delete k (answers (js p))))
    by (intros k; apply shown_options_delete, Ha).
  destruct e; cbn [Page.handler].
  - unfold tick, on_submitBtn, bind, modify, get, ret. cbn.
    destruct (seconds (js p) - 1 <=? 0)%Z; cbn;
      [destruct (listeners (doc p)); cbn|]; split; cbn; assumption.
  - unfold on_nextBtn, renderQuestion, saveQuizState, bind, modify, get, ret, throw. cbn.
    destruct (Z.of_nat (current (js p)) <? Z.of_nat (length QUESTIONS) - 1)%Z; cbn;
      [|split; cbn; assumption].
    destruct (QUESTIONS !! (current (js p) + 1)%nat); cbn; split; cbn; assumption.
  - unfold on_prevBtn, renderQuestion, saveQuizState, bind, modify, get, ret, throw. cbn.
    destruct (current (js p)) as [|c]; cbn; [split; cbn; assumption|].
    destruct (QUESTIONS !! (c - 0)%nat); cbn; split; cbn; assumption.
  - unfold on_clearBtn, renderQuestion, saveQuizState, bind, modify, get, ret, throw. cbn.
    destruct (QUESTIONS !! current (js p)) as [q|] eqn:Hq; cbn;
      [|split; cbn; assumption].
    rewrite ?Hq. cbn. split; cbn; apply Hd.
  - unfold on_markReviewBtn, saveQuizState, bind, modify. cbn. split; cbn; assumption.
  - unfold on_saveNextBtn, renderQuestion, saveQuizState, bind, modify, get, ret, throw.
    cbn.
    destruct (Z.of_nat (current (js p)) <? Z.of_nat (length QUESTIONS) - 1)%Z; cbn;
      [|split; cbn; assumption].
    destruct (QUESTIONS !! (current (js p) + 1)%nat); cbn; split; cbn; assumption.
  - unfold on_submitBtn, modify. cbn. split; cbn; assumption.
  - unfold on_cancelSubmit, modify. cbn. split; cbn; assumption.
  - unfold on_confirmSubmit. unfold bind at 1. cbn [modify].
    destruct (submitQuiz_writes_then_throws QUESTIONS TOTAL_TIME_SECONDS currentUser
                review_html now (with_doc (set_submitModal false) p))
      as (_ & _ & Hjs & _ & Hst & _).
    cbn zeta in *.
    set (r := submitQuiz _ _ _ _ _ _) in *. clearbody r.
    split; rewrite ?Hjs, ?Hst; cbn; assumption.
  - unfold on_modeToggle, renderQuestion, saveQuizState, bind, modify, get, ret, throw.
    cbn. destruct (QUESTIONS !! current (js p)); cbn; split; cbn; assumption.
  - unfold selectOption, saveQuizState, bind, modify, get, ret. cbn.
    destruct (rendered (doc p)) as [i|]; [|split; cbn; assumption].
    destruct (QUESTIONS !! i) as [q|] eqn:Hq; [|split; cbn; assumption].
    destruct (Str.truthy (nth (val - 1) (options q) "")) eqn:Ho;
      [|split; cbn; assumption].
    cbn. split; cbn; (apply shown_options_insert; [|exact Ho|exact Ha]);
      apply list_elem_of_lookup; eauto.
  - unfold renderQuestion, saveQuizState, bind, modify, get, ret, throw. cbn.
    destruct (QUESTIONS !! i); cbn; split; cbn; assumption.
  - split; assumption.
Qed.

Lemma deliver_choices e p : choices_ok p → choices_ok (deliver p e).
Proof.
  intros Hp. unfold Page.deliver.
  destruct e;
    try (destruct (enabled _ p); [apply handler_choices; assumption | exact Hp]).
  apply initQuiz_choices. apply Hp.
Qed.

Lemma run_events_choices es : ∀ p, choices_ok p → choices_ok (run_events p es).
Proof.
  induction es as [|e es IH]; intros p Hp; [exact Hp|].
  unfold Page.run_events. cbn [fold_left]. apply IH, deliver_choices, Hp.
Qed.

Lemma same_id_same_question q q' :
  NoDup (map id QUESTIONS) → q ∈ QUESTIONS → q' ∈ QUESTIONS → id q = id q' → q = q'.
Proof.
  induction QUESTIONS as [|x l IH]; intros Hnd Hq Hq' E; [inversion Hq|].
  cbn [map] in Hnd. apply NoDup_cons in Hnd as [Hx Hnd].
  apply elem_of_cons in Hq as [->|Hq]; apply elem_of_cons in Hq' as [->|Hq'].
  - reflexivity.
  - exfalso. apply Hx. rewrite E. apply list_elem_of_fmap. eauto.
  - exfalso. apply Hx. rewrite <- E. apply list_elem_of_fmap. eauto.
  - apply IH; assumption.
Qed.

(** X24: in a session opened on a stored state whose answers are numbers of
    shown options (or on none), whatever events follow, the answer stored
    for a question is the number of one of its options that is not empty.
    So a question whose answer key names no such option, as the parser can
    emit, is never counted as correct. *)
Theorem stored_answers_name_shown_options st res db es q :
  NoDup (map id QUESTIONS) → stored_shown st → q ∈ QUESTIONS →
  let p := run_events (snd (open_page QUESTIONS TOTAL_TIME_SECONDS st res db)) es in
  (∀ v, answers (js p) !! id q = Some v →
        ∃ n : nat, v = pretty n ∧ Str.truthy (nth (n - 1) (options q) "") = true)
  ∧ ((∀ n : nat, answer q = pretty n →
                 Str.truthy (nth (n - 1) (options q) "") = false) →
     ∀ t, t_correct (score_step (answers (js p)) t q) = t_correct t).
Proof.
  intros Hnd Hst Hq. cbn zeta.
  pose proof (run_events_choices es _ (initQuiz_choices st res db Hst)) as [Ha _].
  fold (open_page QUESTIONS TOTAL_TIME_SECONDS st res db) in Ha.
  set (p := run_events _ es) in *.
  assert (H1 : ∀ v, answers (js p) !! id q = Some v →
                    ∃ n : nat, v = pretty n
                               ∧ Str.truthy (nth (n - 1) (options q) "") = true).
  { intros v Hv. destruct (Ha _ _ Hv) as (q' & n & Hq' & Hid & -> & Ho).
    rewrite (same_id_same_question q q' Hnd Hq Hq' (eq_sym Hid)). eauto. }
  split; [exact H1|]. intros Hkey t. unfold score_step.
  destruct (answers (js p) !! id q) as [a|] eqn:E; [|reflexivity].
  destruct (H1 a eq_refl) as (n & -> & Ho).
  destruct (String.eqb_spec (pretty n) (answer q)) as [Heq|_].
  - rewrite (Hkey n (eq_sym Heq)) in Ho. discriminate Ho.
  - rewrite andb_false_r. destruct (Str.truthy (pretty n)); reflexivity.
Qed.

End Choices.
End ChoiceProps.

Import ChoiceProps.

(** A question with two options whose answer key is 5. *)
Definition fifth_of_two : Page.Q :=
  Page.mkQ "50001" "Pick one" ["a) x"; "b) y"; ""; ""; ""] "5" "" (Q2Qc 3) (Q2Qc 1).

Lemma stored_answers_name_shown_options_witness :
  let p := Page.run_events [fifth_of_two] 60 candidate review
             (snd (Page.open_page [fifth_of_two] 60 None None []))
             [Page.ClickOption 5; Page.ClickOption 2] in
  Page.answers (Page.js p) !! "50001" = Some "2"
  ∧ ∀ t, Page.t_correct (Page.score_step (Page.answers (Page.js p)) t fifth_of_two)
         = Page.t_correct t.
Proof.
  cbn zeta. split; [vm_compute; reflexivity|].
  apply (stored_answers_name_shown_options [fifth_of_two] 60 candidate review
           None None [] [Page.ClickOption 5; Page.ClickOption 2] fifth_of_two).
  - apply (bool_decide_unpack _). vm_compute. exact I.
  - exact I.
  - set_solver.
  - intros n Hn. cbn in Hn.
    assert (n = 5%nat) as -> by (apply (inj pretty); symmetry; exact Hn).
    reflexivity.
Defined.

(* ===================================================================== *)
(** * Scoring: the bounds of the score *)
(* ===================================================================== *)

Module ScoreBounds.
Import Page.

Local Open Scope Qc_scope.

(** The sum of [f] over the questions. *)
Fixpoint total_of (f : Q -> Qc) (l : list Q) : Qc :=
  match l with
  | [] => 0
  | q :: l' => f q + total_of f l'
  end.

Lemma le_add_r (a c : Qc) : 0 <= c → a <= a + c.
Proof.
  intros H. rewrite <- (Qcplus_0_r a) at 1.
  apply Qcplus_le_compat; [apply Qcle_refl | exact H].
Qed.

Lemma sub_le (a n : Qc) : 0 <= n → a - n <= a.
Proof.
  intros H. rewrite <- (Qcplus_0_r a) at 2. unfold Qcminus.
  apply Qcplus_le_compat; [apply Qcle_refl|].
  apply Qcopp_le_compat in H. exact H.
Qed.

Lemma score_step_bounds answers t q :
  0 <= correct_score q → 0 <= negative_score q →
  t_totalMarks t - negative_score q <= t_totalMarks (score_step answers t q)
  ∧ t_totalMarks (score_step answers t q) <= t_totalMarks t + correct_score q
  ∧ t_maxMarks (score_step answers t q) = t_maxMarks t + correct_score q.
Proof.
  intros Hc Hn. unfold score_step.
  destruct (answers !! id q) as [a|]; [destruct (Str.truthy a && String.eqb a (answer q));
                                       [|destruct (Str.truthy a)]|];
    cbn [t_totalMarks t_maxMarks]; repeat split;
    try apply Qcle_refl; try (apply le_add_r; assumption);
    try (apply sub_le; assumption).
  - eapply Qcle_trans; [apply sub_le; exact Hn | apply le_add_r; exact Hc].
  - eapply Qcle_trans; [apply sub_le; exact Hn | apply le_add_r; exact Hc].
Qed.

Lemma fold_bounds answers l :
  Forall (λ q, 0 <= correct_score q ∧ 0 <= negative_score q) l →
  ∀ t,
    t_totalMarks t - total_of negative_score l
    <= t_totalMarks (fold_left (score_step answers) l t)
    ∧ t_totalMarks (fold_left (score_step answers) l t)
      <= t_totalMarks t + total_of correct_score l
    ∧ t_maxMarks (fold_left (score_step answers) l t)
      = t_maxMarks t + total_of correct_score l.
Proof.
  induction 1 as [|q l [Hc Hn] _ IH]; intros t.
  - cbn [fold_left total_of].
    replace (t_totalMarks t - 0) with (t_totalMarks t) by ring.
    rewrite !Qcplus_0_r. repeat split; apply Qcle_refl.
  - cbn [fold_left total_of].
    destruct (score_step_bounds answers t q Hc Hn) as (L & U & M).
    destruct (IH (score_step answers t q)) as (L' & U' & M').
    split; [|split].
    + eapply Qcle_trans; [|exact L'].
      replace (t_totalMarks t - (negative_score q + total_of negative_score l))
        with ((t_totalMarks t - negative_score q) - total_of negative_score l) by ring.
      unfold Qcminus. apply Qcplus_le_compat; [exact L | apply Qcle_refl].
    + eapply Qcle_trans; [exact U'|].
      replace (t_totalMarks t + (correct_score q + total_of correct_score l))
        with ((t_totalMarks t + correct_score q) + total_of correct_score l) by ring.
      apply Qcplus_le_compat; [exact U | apply Qcle_refl].
    + rewrite M', M. ring.
Qed.

End ScoreBounds.

Import ScoreBounds.

(** X25: with marks that are not negative, the score of a submission is at
    most the maximum, which is the sum of the marks of all questions, and
    at least minus the sum of the negative marks. *)
Theorem score_is_within_bounds (QUESTIONS : list Page.Q) (answers : gmap string string) :
  Forall (λ q, (0 <= Page.correct_score q)%Qc ∧ (0 <= Page.negative_score q)%Qc)
         QUESTIONS →
  let t := Page.tally QUESTIONS answers in
  (- total_of Page.negative_score QUESTIONS <= Page.t_totalMarks t)%Qc
  ∧ (Page.t_totalMarks t <= Page.t_maxMarks t)%Qc
  ∧ Page.t_maxMarks t = total_of Page.correct_score QUESTIONS.
Proof.
  intros H. cbn zeta. unfold Page.tally.
  destruct (fold_bounds answers QUESTIONS H (Page.mkTally 0 0 0%Qc 0%Qc)) as (L & U & M).
  cbn [Page.t_totalMarks Page.t_maxMarks] in *.
  rewrite Qcplus_0_l in U, M.
  replace (0 - total_of Page.negative_score QUESTIONS)%Qc
    with (- total_of Page.negative_score QUESTIONS)%Qc in L by ring.
  split; [exact L|]. split; [rewrite M; exact U | exact M].
Qed.

Lemma score_is_within_bounds_witness :
  let t := Page.tally two_questions one_right_one_wrong in
  Page.t_totalMarks t = Q2Qc 2 ∧ Page.t_maxMarks t = Q2Qc 6
  ∧ (- total_of Page.negative_score two_questions <= Page.t_totalMarks t)%Qc
  ∧ (Page.t_totalMarks t <= Page.t_maxMarks t)%Qc
  ∧ Page.t_maxMarks t = total_of Page.correct_score two_questions.
Proof.
  cbn zeta. split; [apply Qc_is_canon; reflexivity|].
  split; [apply Qc_is_canon; reflexivity|].
  apply (score_is_within_bounds two_questions one_right_one_wrong).
  repeat constructor; discriminate.
Defined.
